(** * Transcription editor: splice engine, PCM16 interchange, waveform
      viewport and selection reconciliation.

    A shallow embedding of [app/audio_editor.py], [app/waveform_view.py]
    and the editing paths of [app/main.py].

    Numbers.  Python [int] is [Z].  A finite Python/NumPy float is a
    rational, so floats are embedded in [Q] and the arithmetic on them is
    taken exactly (no binary rounding of [*], [/], [+], [-]); NaN and the
    infinities are outside the embedding.  Results that are floats are
    therefore compared with [==] ([Qeq]).

    Arrays.  The application only ever holds float32 arrays of one or two
    dimensions ([AudioRecorder.stop], [load_wav], [splice_audio] and the
    append path of [on_stop] all finish with [astype(np.float32)]), so
    [ndarray] is the type of those arrays. *)

From Stdlib Require Import String Ascii.
From Stdlib Require Import QArith Qround Qminmax Qabs Qpower Lqa ZArith List Lia
  Bool.
Import ListNotations.

Open Scope Z_scope.

(* ------------------------------------------------------------------ *)
(** ** Python runtime: exceptions and numeric builtins                  *)
(* ------------------------------------------------------------------ *)

Module py.

Inductive exn : Type :=
| ValueError
| TypeError
| ZeroDivisionError
| WaveError
| StructError
| OverflowError.

(** Outcome of a call that may raise. *)
Inductive result (A : Type) : Type :=
| Ok (a : A)
| Raise (e : exn).
Arguments Ok {A} a.
Arguments Raise {A} e.

Definition bind {A B : Type} (r : result A) (k : A -> result B) : result B :=
  match r with
  | Ok a => k a
  | Raise e => Raise e
  end.

(** [round(x)] on a float: nearest integer, ties to the even one. *)
Definition round (x : Q) : Z :=
  let f := Qfloor x in
  match (x - inject_Z f ?= 1 # 2)%Q with
  | Lt => f
  | Gt => f + 1
  | Eq => if Z.even f then f else f + 1
  end.


(** Conversion of a float to a C integer, as [ndarray.astype(int)] does:
    the fractional part is dropped (truncation toward zero). *)
Definition trunc (x : Q) : Z := Z.quot (Qnum x) (Zpos (Qden x)).

(** [a / b] on integers (true division). *)
Definition truediv (a b : Z) : result Q :=
  if b =? 0 then Raise ZeroDivisionError
  else Ok (inject_Z a / inject_Z b)%Q.

(** [np.clip(x, lo, hi)] = [minimum(maximum(x, lo), hi)]. *)
Definition clip (x lo hi : Q) : Q := Qmin (Qmax x lo) hi.

(** Bounds of a slice [a[i:j]] on a sequence of length [n]. *)
Definition slice_index (n i : Z) : nat :=
  Z.to_nat (if i <? 0 then Z.max 0 (i + n) else Z.min i n).

(** [l[:i]] and [l[i:]]. *)
Definition slice_to {A : Type} (l : list A) (i : Z) : list A :=
  firstn (slice_index (Z.of_nat (length l)) i) l.
Definition slice_from {A : Type} (l : list A) (i : Z) : list A :=
  skipn (slice_index (Z.of_nat (length l)) i) l.

End py.

(* ------------------------------------------------------------------ *)
(** ** Binary floating point: rounding to a format                      *)
(* ------------------------------------------------------------------ *)

Module ieee.

(** [2^e], for any integer [e]. *)
Definition pow2 (e : Z) : Q := (2 ^ e)%Q.

(** [floor(log2 q)] for [q > 0]: the quotient of two integers of [a + 1]
    and [b + 1] bits lies between [2^(a-b-1)] and [2^(a-b+1)]. *)
Definition ilog2 (q : Q) : Z :=
  let e0 := Z.log2 (Qnum q) - Z.log2 (Zpos (Qden q)) in
  if Qle_bool (pow2 e0) q then e0 else e0 - 1.

(** The multiple of [2^e] nearest to [q], ties to the even multiple. *)
Definition round_to (e : Z) (q : Q) : Q :=
  (inject_Z (py.round (q / pow2 e)) * pow2 e)%Q.

(** The value of a binary format nearest to [q], ties to even; the format
    has [prec] bits of precision and [2^emin] is its least positive
    (subnormal) value.  Overflow to an infinity is outside the
    embedding. *)
Definition rnd (prec emin : Z) (q : Q) : Q :=
  round_to (Z.max (ilog2 (Qabs q) - (prec - 1)) emin) q.

Definition float32 : Q -> Q := rnd 24 (-149).
Definition float64 : Q -> Q := rnd 53 (-1074).

(** The four binary64 operations on finite operands. *)
Definition add64 (x y : Q) : Q := float64 (x + y).
Definition sub64 (x y : Q) : Q := float64 (x - y).
Definition mul64 (x y : Q) : Q := float64 (x * y).
Definition div64 (x y : Q) : Q := float64 (x / y).

(** Whether a binary64 result [q], rounded as above, is a finite float:
    from [2^1024] on, IEEE arithmetic delivers an infinity instead. *)
Definition finite64 (q : Q) : bool := negb (Qle_bool (pow2 1024) (Qabs q)).

End ieee.

Import py.

(* ------------------------------------------------------------------ *)
(** ** NumPy arrays held by the application                             *)
(* ------------------------------------------------------------------ *)

Module np.

(** One row of a 2-D buffer: a sample per channel. *)
Definition frame : Type := list Q.

(** A float32 array of shape [(n,)] or [(n, cols)]. *)
Inductive ndarray : Type :=
| Arr1 (samples : list Q)
| Arr2 (cols : positive) (rows : list frame).

Definition ndim (a : ndarray) : Z :=
  match a with Arr1 _ => 1 | Arr2 _ _ => 2 end.

(** [len(a)]: extent of the first axis. *)
Definition len (a : ndarray) : Z :=
  match a with
  | Arr1 s => Z.of_nat (length s)
  | Arr2 _ r => Z.of_nat (length r)
  end.


(** [a[:, None]] on a 1-D array: a single-channel column. *)
Definition add_axis (s : list Q) : ndarray :=
  Arr2 1 (map (fun x => [x]) s).

(** [a[:, 0]] on a 2-D array. *)
Definition column0 (r : list frame) : list Q := map (fun f => hd 0%Q f) r.

(** [a[:i]] and [a[i:]] along the first axis. *)
Definition slice_to (a : ndarray) (i : Z) : ndarray :=
  match a with
  | Arr1 s => Arr1 (py.slice_to s i)
  | Arr2 c r => Arr2 c (py.slice_to r i)
  end.
Definition slice_from (a : ndarray) (i : Z) : ndarray :=
  match a with
  | Arr1 s => Arr1 (py.slice_from s i)
  | Arr2 c r => Arr2 c (py.slice_from r i)
  end.

(** [np.concatenate([a, b], axis=0)]: the arrays must have the same number
    of dimensions and agree on every axis but the first. *)
Definition concatenate2 (a b : ndarray) : result ndarray :=
  match a, b with
  | Arr1 s, Arr1 t => Ok (Arr1 (s ++ t))
  | Arr2 c r, Arr2 d q =>
      if Pos.eqb c d then Ok (Arr2 c (r ++ q)) else Raise ValueError
  | _, _ => Raise ValueError
  end.

(** [np.concatenate(arrays, axis=0)]. *)
Fixpoint concatenate (arrays : list ndarray) : result ndarray :=
  match arrays with
  | [] => Raise ValueError
  | [a] => Ok a
  | a :: rest => bind (concatenate rest) (fun r => concatenate2 a r)
  end.

(** [a.shape[1]] once a 1-D array is seen as a column, and the rows of
    that 2-D view. *)
Definition channel_count (a : ndarray) : positive :=
  match a with
  | Arr1 _ => 1%positive
  | Arr2 c _ => c
  end.
Definition frames (a : ndarray) : list frame :=
  match a with
  | Arr1 s => map (fun x => [x]) s
  | Arr2 _ r => r
  end.

(** [a.astype(np.float32)] on an array that is float32 already. *)
Definition astype_float32 (a : ndarray) : ndarray := a.

(** [np.zeros((0,), dtype=np.float32)]. *)
Definition zeros0 : ndarray := Arr1 [].

End np.

Import np.

(* ------------------------------------------------------------------ *)
(** ** app/audio_editor.py                                              *)
(* ------------------------------------------------------------------ *)

Module audio_editor.

Definition seconds_to_frames (seconds : Q) (sample_rate : Z) : Z :=
  Z.max 0 (py.round (seconds * inject_Z sample_rate)).

(** The two index computations of [splice_audio], on a base of [n]
    frames. *)
Definition splice_start_idx (n sample_rate : Z) (start_sec : Q) : Z :=
  Z.min (Z.max (seconds_to_frames start_sec sample_rate) 0) n.
Definition splice_end_idx (n sample_rate : Z) (start_sec end_sec : Q) : Z :=
  Z.min (Z.max (seconds_to_frames end_sec sample_rate)
               (splice_start_idx n sample_rate start_sec)) n.

Definition promote (a : ndarray) : ndarray :=
  match a with
  | Arr1 s => add_axis s
  | Arr2 _ _ => a
  end.

Definition splice_audio (base_audio : ndarray) (sample_rate : Z)
    (start_sec end_sec : Q) (insert_audio : ndarray) : result ndarray :=
  let base_audio := promote base_audio in
  let insert_audio := promote insert_audio in
  let start_idx := splice_start_idx (len base_audio) sample_rate start_sec in
  let end_idx :=
    splice_end_idx (len base_audio) sample_rate start_sec end_sec in
  let prefix := np.slice_to base_audio start_idx in
  let suffix := np.slice_from base_audio end_idx in
  bind (concatenate [prefix; insert_audio; suffix])
       (fun combined => Ok (astype_float32 combined)).

(** *** PCM16 WAV interchange *)

(** Two's-complement wrap of an integer into int16. *)
Definition wrap_int16 (z : Z) : Z := (z + 32768) mod 65536 - 32768.

(** [x.astype(np.int16)] on a float. *)
Definition astype_int16 (x : Q) : Z := wrap_int16 (py.trunc x).

(** One sample through [np.clip(audio, -1.0, 1.0)] and
    [(audio * 32767.0).astype(np.int16)]. *)
Definition pcm16_encode (x : Q) : Z :=
  astype_int16 (ieee.float32 (py.clip x (-1) 1 * 32767)%Q).

(** One sample through [.astype(np.float32) / 32767.0]. *)
Definition pcm16_decode (k : Z) : Q := (inject_Z k / 32767)%Q.

(** [pcm16.tobytes()]: each int16 as two little-endian bytes. *)
Definition int16_bytes (k : Z) : list Z :=
  let u := k mod 65536 in [u mod 256; u / 256].
Definition tobytes (pcm : list Z) : list Z := flat_map int16_bytes pcm.

(** [np.frombuffer(bytes, dtype=np.int16)]; a trailing odd byte makes
    NumPy raise. *)
Fixpoint frombuffer (bytes : list Z) : result (list Z) :=
  match bytes with
  | [] => Ok []
  | lo :: hi :: rest =>
      bind (frombuffer rest)
           (fun tl => Ok (wrap_int16 (lo + 256 * hi) :: tl))
  | [_] => Raise ValueError
  end.

(** What the [wave] module keeps of a file. *)
Record wav : Type := {
  nchannels : Z;
  sampwidth : Z;
  framerate : Z;
  frames_bytes : list Z
}.

(** Row-major flattening of the array handed to [tobytes]. *)
Definition flatten (a : ndarray) : list Q :=
  match a with
  | Arr1 s => s
  | Arr2 _ r => concat r
  end.


(** The header that [Wave_write] packs at the first [writeframes], for
    16-bit samples: [struct.pack('<L4s4sLHHLLHH4s', 36 + datalength, ...,
    nchannels, framerate, nchannels * framerate * 2, nchannels * 2, 16,
    ...)] and [struct.pack('<L', datalength)].  [L] fields hold unsigned
    32-bit values and [H] fields unsigned 16-bit ones; a value out of
    range makes [struct.pack] raise [struct.error]. *)
Definition header_fits (nchannels framerate datalength : Z) : bool :=
  (36 + datalength <? 2 ^ 32) && (nchannels <? 2 ^ 16)
  && (framerate <? 2 ^ 32) && (nchannels * framerate * 2 <? 2 ^ 32)
  && (nchannels * 2 <? 2 ^ 16).

(** [wf.setnchannels(channels); wf.setsampwidth(2);
    wf.setframerate(sample_rate); wf.writeframes(data)] on a file just
    opened for writing. *)
Definition wave_write (channels sample_rate : Z) (data : list Z)
    : result wav :=
  if channels <? 1 then Raise WaveError
  else if sample_rate <=? 0 then Raise WaveError
  else
    let nframes := Z.of_nat (length data) / (channels * 2) in
    if header_fits channels sample_rate (nframes * channels * 2)
    then Ok {| nchannels := channels; sampwidth := 2;
               framerate := sample_rate; frames_bytes := data |}
    else Raise StructError.


(** [audio.reshape(-1, channels)]. *)
Fixpoint chunks (fuel : nat) (c : nat) (l : list Q) : list frame :=
  match fuel, l with
  | O, _ => []
  | _, [] => []
  | S fuel', _ => firstn c l :: chunks fuel' c (skipn c l)
  end.
Definition reshape (l : list Q) (channels : Z) : result ndarray :=
  if (Z.of_nat (length l) mod channels =? 0)
  then Ok (Arr2 (Z.to_pos channels)
                (chunks (length l) (Z.to_nat channels) l))
  else Raise ValueError.

Definition load_wav (f : wav) : result (ndarray * Z * Z) :=
  let channels := nchannels f in
  let sample_rate := framerate f in
  bind (frombuffer (frames_bytes f))
       (fun pcm =>
          let audio := map pcm16_decode pcm in
          if 1 <? channels
          then bind (reshape audio channels)
                    (fun a => Ok (a, sample_rate, channels))
          else Ok (Arr1 audio, sample_rate, channels)).


End audio_editor.

Import audio_editor.

(* ------------------------------------------------------------------ *)
(** ** app/audio_editor.py, the frame indices in binary64               *)
(* ------------------------------------------------------------------ *)

(** [seconds_to_frames] and [splice_audio] once more, with the product
    [seconds * sample_rate] as the interpreter computes it: the rate is
    converted to a float, the product is rounded to binary64, and
    [round] raises [OverflowError] on an infinite product. *)
Module audio_editor_binary64.

(** The conversion of the [int] operand of a mixed product. *)
Definition int_to_float (n : Z) : result Q :=
  let x := ieee.float64 (inject_Z n) in
  if ieee.finite64 x then Ok x else Raise OverflowError.

Definition seconds_to_frames (seconds : Q) (sample_rate : Z) : result Z :=
  bind (int_to_float sample_rate) (fun rate =>
    let product := ieee.float64 (seconds * rate) in
    if ieee.finite64 product then Ok (Z.max 0 (py.round product))
    else Raise OverflowError).

Definition splice_audio (base_audio : ndarray) (sample_rate : Z)
    (start_sec end_sec : Q) (insert_audio : ndarray) : result ndarray :=
  let base_audio := promote base_audio in
  let insert_audio := promote insert_audio in
  bind (seconds_to_frames start_sec sample_rate) (fun start_idx =>
  bind (seconds_to_frames end_sec sample_rate) (fun end_idx =>
    let start_idx := Z.min (Z.max start_idx 0) (len base_audio) in
    let end_idx := Z.min (Z.max end_idx start_idx) (len base_audio) in
    let prefix := np.slice_to base_audio start_idx in
    let suffix := np.slice_from base_audio end_idx in
    bind (concatenate [prefix; insert_audio; suffix])
         (fun combined => Ok (astype_float32 combined)))).

End audio_editor_binary64.

(* ------------------------------------------------------------------ *)
(** ** app/waveform_view.py                                             *)
(* ------------------------------------------------------------------ *)

Module waveform_view.

Open Scope Q_scope.

(** The widget's fields that the viewport and the cursor depend on;
    [width] is the widget's current pixel width ([self.width()]). *)
Record WaveformView : Type := {
  _audio : option (list Q);
  _sr : Z;
  _cursor_time : Q;
  _sel_start : option Q;
  _sel_end : option Q;
  _dragging : bool;
  _view_start : Q;
  _view_dur : option Q;
  width : Z
}.

(** [WaveformView.__init__]. *)
Definition init (width : Z) : WaveformView :=
  {| _audio := None; _sr := 44100; _cursor_time := 0;
     _sel_start := None; _sel_end := None; _dragging := false;
     _view_start := 0; _view_dur := None; width := width |}.

Definition with_view (w : WaveformView) (vs : Q) (vd : option Q)
    : WaveformView :=
  {| _audio := _audio w; _sr := _sr w; _cursor_time := _cursor_time w;
     _sel_start := _sel_start w; _sel_end := _sel_end w;
     _dragging := _dragging w;
     _view_start := vs; _view_dur := vd; width := width w |}.

Definition _duration (w : WaveformView) : Q :=
  match _audio w with
  | None => 0
  | Some a =>
      if (_sr w <=? 0)%Z then 0
      else inject_Z (Z.of_nat (length a)) / inject_Z (_sr w)
  end.

Definition _visible_range (w : WaveformView) : Q * Q :=
  let dur := _duration w in
  if Qle_bool dur 0 then (0, 0)
  else
    match _view_dur w with
    | None => (0, dur)
    | Some vd =>
        if Qle_bool vd 0 || Qle_bool dur vd then (0, dur)
        else
          let start := Qmax 0 (Qmin (_view_start w) (Qmax 0 (dur - vd))) in
          (start, Qmin dur (start + vd))
    end.

Definition set_audio (audio : ndarray) (sample_rate : Z)
    (w : WaveformView) : WaveformView :=
  let audio :=
    match audio with
    | Arr2 _ r => column0 r
    | Arr1 s => s
    end in
  {| _audio := Some audio; _sr := sample_rate; _cursor_time := 0;
     _sel_start := None; _sel_end := None; _dragging := _dragging w;
     (* Reset view to full duration *)
     _view_start := 0; _view_dur := None; width := width w |}.

Definition set_cursor_time (time_sec : Q) (w : WaveformView)
    : WaveformView :=
  {| _audio := _audio w; _sr := _sr w; _cursor_time := Qmax 0 time_sec;
     _sel_start := _sel_start w; _sel_end := _sel_end w;
     _dragging := _dragging w;
     _view_start := _view_start w; _view_dur := _view_dur w;
     width := width w |}.

Definition set_selection (start_sec end_sec : option Q) (w : WaveformView)
    : WaveformView :=
  {| _audio := _audio w; _sr := _sr w; _cursor_time := _cursor_time w;
     _sel_start := start_sec; _sel_end := end_sec;
     _dragging := _dragging w;
     _view_start := _view_start w; _view_dur := _view_dur w;
     width := width w |}.

Definition _clamp_view (w : WaveformView) : WaveformView :=
  let dur := _duration w in
  if Qle_bool dur 0 then with_view w 0 None
  else
    match _view_dur w with
    | Some vd =>
        let vd' := Qmax (Qmin vd dur) (Qmin (1 # 10) dur) in
        with_view w (Qmax 0 (Qmin (_view_start w) (dur - vd'))) (Some vd')
    | None => with_view w 0 None
    end.

Definition _time_at_x (x : Q) (w : WaveformView) : Q :=
  let dur := _duration w in
  if Qle_bool dur 0 || (_sr w <=? 0)%Z then 0
  else
    let '(vs, ve) := _visible_range w in
    let vr := Qmax (1 # 1000000000) (ve - vs) in
    let pos := py.clip (x / inject_Z (Z.max 1 (width w))) 0 1 in
    vs + pos * vr.

(** The lines "Initialize view if showing full", written out in
    [_handle_gesture] and in both branches of [wheelEvent]. *)
Definition init_view (w : WaveformView) : WaveformView :=
  let dur := _duration w in
  let '(vs, ve) := _visible_range w in
  match _view_dur w with
  | Some _ => w
  | None => with_view w vs (Some dur)
  end.

(** [self._view_dur] once it is known not to be [None]. *)
Definition view_dur_of (w : WaveformView) : Q :=
  match _view_dur w with Some d => d | None => _duration w end.

Record WheelEvent : Type := {
  pixelDelta_x : Z;
  pixelDelta_y : Z;
  angleDelta_x : Z;
  angleDelta_y : Z;
  ctrl_or_meta : bool;
  position_x : Q
}.

(** The zoom factor that [wheelEvent] derives from the deltas. *)
Definition wheel_zoom_factor (event : WheelEvent) : Q :=
  let px := pixelDelta_x event in
  let py_ := pixelDelta_y event in
  let ax := angleDelta_x event in
  let ay := angleDelta_y event in
  let delta_x := if (px =? 0)%Z then ax else px in
  let delta_y := if (py_ =? 0)%Z then ay else py_ in
  let sign :=
    if (0 <? (if (delta_y =? 0)%Z then delta_x else delta_y))%Z
    then 1%Z else (-1)%Z in
  if (0 <? sign)%Z then 95 # 100 else 105 # 100.

Definition wheelEvent (event : WheelEvent) (w : WaveformView)
    : WaveformView :=
  let px := pixelDelta_x event in
  let ax := angleDelta_x event in
  let dur := _duration w in
  if Qle_bool dur 0 then w
  else if ctrl_or_meta event then
    let factor := wheel_zoom_factor event in
    let w := init_view w in
    let cursor_t := _time_at_x (position_x event) w in
    let new_dur :=
      py.clip (view_dur_of w * factor) (Qmin (5 # 100) dur) dur in
    let rel :=
      (cursor_t - _view_start w) / Qmax (1 # 1000000000) (view_dur_of w) in
    _clamp_view (with_view w (cursor_t - rel * new_dur) (Some new_dur))
  else
    let w := init_view w in
    let step :=
      if negb (px =? 0)%Z
      then (inject_Z px / 300) * view_dur_of w
      else (inject_Z ax / 120) * (3 # 100) * view_dur_of w in
    _clamp_view (with_view w (_view_start w - step) (_view_dur w)).

Record PinchGesture : Type := {
  scaleFactor : Q;
  centerPoint_x : option Q
}.

(** The zoom factor and the centre abscissa that [_handle_gesture]
    derives from the pinch. *)
Definition pinch_zoom_factor (pinch : PinchGesture) : Q :=
  let scale := scaleFactor pinch in
  let scale := if Qle_bool scale 0 then 1 else scale in
  1 / scale.
Definition pinch_center (pinch : PinchGesture) (w : WaveformView) : Q :=
  match centerPoint_x pinch with
  | Some x => x
  | None => inject_Z (width w) / 2
  end.

(** [_handle_gesture]; [pinch] is [e.gesture(PinchGesture)]. *)
Definition _handle_gesture (pinch : option PinchGesture)
    (w : WaveformView) : WaveformView :=
  match pinch with
  | None => w
  | Some pinch =>
      let dur := _duration w in
      if Qle_bool dur 0 then w
      else
        let w := init_view w in
        let factor := pinch_zoom_factor pinch in
        let new_dur :=
          py.clip (view_dur_of w * factor) (Qmin (1 # 10) dur) dur in
        let cx := pinch_center pinch w in
        let cursor_t := _time_at_x cx w in
        let rel :=
          (cursor_t - _view_start w)
          / Qmax (1 # 1000000000) (view_dur_of w) in
        _clamp_view (with_view w (cursor_t - rel * new_dur) (Some new_dur))
  end.

Definition mouseDoubleClickEvent (w : WaveformView) : WaveformView :=
  with_view w 0 None.

(** The viewport gestures delivered to the widget. *)
Inductive view_event : Type :=
| Wheel (e : WheelEvent)
| Gesture (pinch : option PinchGesture)
| DoubleClick.

Definition handle (e : view_event) (w : WaveformView) : WaveformView :=
  match e with
  | Wheel ev => wheelEvent ev w
  | Gesture p => _handle_gesture p w
  | DoubleClick => mouseDoubleClickEvent w
  end.

(** Events are handled one after the other by the event loop. *)
Definition run (events : list view_event) (w : WaveformView)
    : WaveformView :=
  fold_left (fun w e => handle e w) events w.

(** The viewport lies inside the buffer. *)
Definition view_ok (w : WaveformView) : Prop :=
  0 <= _view_start w
  /\ match _view_dur w with
     | Some d => _view_start w + d <= _duration w
     | None => True
     end.

(** *** The zoomed duration as the specification words it, for a window
    of [old_duration] on a buffer lasting [total]. *)
Definition zoom_spec_duration (total old_duration f : Q) : Q :=
  py.clip (old_duration * f) (Qmin (5 # 100) total) total.

(** *** Pixel mapping, mouse selection and painting geometry *)

(** [_x_at_time(t, w)]; [w_px] is the width passed by [paintEvent]. *)
Definition _x_at_time (t : Q) (w_px : Z) (w : WaveformView) : Z :=
  let '(vs, ve) := _visible_range w in
  let vr := Qmax (1 # 1000000000) (ve - vs) in
  let pos := py.clip ((t - vs) / vr) 0 1 in
  py.trunc (pos * inject_Z w_px).

(** The two Qt signals of the widget, as emitted. *)
Inductive signal : Type :=
| selectionChanged (start_sec end_sec : Q)
| scrubbed (time_sec : Q).

(** [mousePressEvent]; [left_button] is
    [event.button() == Qt.MouseButton.LeftButton], [x] is
    [event.position().x()].  Returns the widget and the signals emitted,
    in order. *)
Definition mousePressEvent (left_button : bool) (x : Q) (w : WaveformView)
    : WaveformView * list signal :=
  if Qle_bool (_duration w) 0 then (w, [])
  else if left_button then
    let t := _time_at_x x w in
    ({| _audio := _audio w; _sr := _sr w; _cursor_time := t;
        _sel_start := Some t; _sel_end := Some t; _dragging := true;
        _view_start := _view_start w; _view_dur := _view_dur w;
        width := width w |},
     [selectionChanged t t; scrubbed t])
  else (w, []).

(** [mouseMoveEvent].  [min(self._sel_start, self._sel_end)] raises
    [TypeError] when the selection start was reset to [None] during the
    drag; the new [_sel_end] is stored by then. *)
Definition mouseMoveEvent (x : Q) (w : WaveformView)
    : WaveformView * result (list signal) :=
  if negb (_dragging w) || Qle_bool (_duration w) 0 then (w, Ok [])
  else
    let t := _time_at_x x w in
    let w' :=
      {| _audio := _audio w; _sr := _sr w; _cursor_time := _cursor_time w;
         _sel_start := _sel_start w; _sel_end := Some t;
         _dragging := _dragging w;
         _view_start := _view_start w; _view_dur := _view_dur w;
         width := width w |} in
    match _sel_start w with
    | Some s => (w', Ok [selectionChanged (Qmin s t) (Qmax s t)])
    | None => (w', Raise TypeError)
    end.

Definition mouseReleaseEvent (w : WaveformView) : WaveformView :=
  if _dragging w then
    {| _audio := _audio w; _sr := _sr w; _cursor_time := _cursor_time w;
       _sel_start := _sel_start w; _sel_end := _sel_end w;
       _dragging := false;
       _view_start := _view_start w; _view_dur := _view_dur w;
       width := width w |}
  else w.




(** [l[i:j]]. *)
Definition slice_range {A : Type} (l : list A) (i j : Z) : list A :=
  let n := Z.of_nat (length l) in
  let i' := py.slice_index n i in
  let j' := py.slice_index n j in
  firstn (j' - i') (skipn i' l).

(** [np.max(np.abs(row))] on a non-empty row. *)
Definition max_abs (row : list Q) : Q :=
  fold_right (fun x m => Qmax (Qabs x) m) 0 row.

(** The bars drawn by [_draw_envelope(p, w, h)]: the abscissa and the
    amplitude of each. *)
Definition _draw_envelope (w_px : Z) (w : WaveformView) : list (Z * Q) :=
  if Qle_bool (_duration w) 0 then []
  else
    let '(vs, ve) := _visible_range w in
    let start_idx := py.trunc (vs * inject_Z (_sr w)) in
    let end_idx := py.trunc (ve * inject_Z (_sr w)) in
    match _audio w with
    | None => []
    | Some a =>
        let chunk := slice_range a start_idx end_idx in
        let n := Z.of_nat (length chunk) in
        if (n =? 0)%Z then []
        else
          let bucket := Z.max 1 (n / Z.max 1 w_px) in
          let trim := (n / bucket * bucket)%Z in
          let seg := audio_editor.chunks (length chunk) (Z.to_nat bucket)
                       (py.slice_to chunk trim) in
          let env := map max_abs seg in
          let n_env := Z.of_nat (length env) in
          map (fun '(i, amp) =>
                 (py.trunc (inject_Z (Z.of_nat i)
                            * (inject_Z w_px / inject_Z n_env)), amp))
              (combine (seq 0 (length env)) env)
    end.

(** A label drawn by [_draw_words]: abscissa, text, and whether it is
    highlighted as part of the selection. *)
Record word_label : Type := {
  label_x : Z;
  label_text : string;
  label_highlight : bool
}.

(** The loop of [_draw_words] over [(start, end, text)] items; [vs] and
    [ve] are the visible range read before the loop. *)
Fixpoint draw_words_loop (items : list (Q * Q * string)) (vs ve : Q)
    (w_px : Z) (w : WaveformView) (last_x : Z) : list word_label :=
  match items with
  | [] => []
  | (start, end_, text) :: rest =>
      if Qle_bool vs end_ && Qle_bool start ve then
        let xs := _x_at_time start w_px w in
        if (xs - last_x <? 40)%Z
        then draw_words_loop rest vs ve w_px w last_x
        else
          let highlight :=
            match _sel_start w, _sel_end w with
            | Some s, Some e =>
                negb (Qle_bool end_ (Qmin s e) || Qle_bool (Qmax s e) start)
            | _, _ => false
            end in
          {| label_x := xs; label_text := text;
             label_highlight := highlight |}
          :: draw_words_loop rest vs ve w_px w xs
      else draw_words_loop rest vs ve w_px w last_x
  end.

(** [_draw_words(p, w, h)]; [word_items] is [self._word_items]. *)
Definition _draw_words (word_items : option (list (Q * Q * string)))
    (w_px : Z) (w : WaveformView) : list word_label :=
  match word_items with
  | None => []
  | Some items =>
      let '(vs, ve) := _visible_range w in
      draw_words_loop items vs ve w_px w (-1000000000)%Z
  end.

(** The viewport keeps at least [min(0.1, total)] and at most [total] in
    view. *)
Definition zoom_ok (w : WaveformView) : Prop :=
  match _view_dur w with
  | Some d => Qmin (1 # 10) (_duration w) <= d /\ d <= _duration w
  | None => True
  end.

End waveform_view.

Import waveform_view.

(* ------------------------------------------------------------------ *)
(** ** app/waveform_view.py, the viewport in binary64                   *)
(* ------------------------------------------------------------------ *)

(** The viewport arithmetic of the widget once more, on the same record
    and the same events, with every [+], [-], [*], [/] rounded to
    binary64 as the interpreter does, the literals [0.1], [0.05],
    [1e-9], [0.95], [1.05] and [0.03] being the floats nearest to them.
    A quotient or product too large for a float only ever reaches
    [np.clip], which returns its upper bound for it as for an
    infinity. *)
Module waveform_view_binary64.

Open Scope Q_scope.

Definition _duration (w : WaveformView) : Q :=
  match _audio w with
  | None => 0
  | Some a =>
      if (_sr w <=? 0)%Z then 0
      else ieee.div64 (inject_Z (Z.of_nat (length a))) (inject_Z (_sr w))
  end.

Definition _visible_range (w : WaveformView) : Q * Q :=
  let dur := _duration w in
  if Qle_bool dur 0 then (0, 0)
  else
    match _view_dur w with
    | None => (0, dur)
    | Some vd =>
        if Qle_bool vd 0 || Qle_bool dur vd then (0, dur)
        else
          let start :=
            Qmax 0 (Qmin (_view_start w) (Qmax 0 (ieee.sub64 dur vd))) in
          (start, Qmin dur (ieee.add64 start vd))
    end.

Definition _clamp_view (w : WaveformView) : WaveformView :=
  let dur := _duration w in
  if Qle_bool dur 0 then with_view w 0 None
  else
    match _view_dur w with
    | Some vd =>
        let vd' := Qmax (Qmin vd dur) (Qmin (ieee.float64 (1 # 10)) dur) in
        with_view w (Qmax 0 (Qmin (_view_start w) (ieee.sub64 dur vd')))
          (Some vd')
    | None => with_view w 0 None
    end.

Definition _time_at_x (x : Q) (w : WaveformView) : Q :=
  let dur := _duration w in
  if Qle_bool dur 0 || (_sr w <=? 0)%Z then 0
  else
    let '(vs, ve) := _visible_range w in
    let vr := Qmax (ieee.float64 (1 # 1000000000)) (ieee.sub64 ve vs) in
    let pos :=
      py.clip (ieee.div64 x (ieee.float64 (inject_Z (Z.max 1 (width w)))))
              0 1 in
    ieee.add64 vs (ieee.mul64 pos vr).

(** The lines "Initialize view if showing full". *)
Definition init_view (w : WaveformView) : WaveformView :=
  let dur := _duration w in
  let '(vs, ve) := _visible_range w in
  match _view_dur w with
  | Some _ => w
  | None => with_view w vs (Some dur)
  end.

Definition view_dur_of (w : WaveformView) : Q :=
  match _view_dur w with Some d => d | None => _duration w end.

Definition wheel_zoom_factor (event : WheelEvent) : Q :=
  ieee.float64 (waveform_view.wheel_zoom_factor event).

Definition wheelEvent (event : WheelEvent) (w : WaveformView)
    : WaveformView :=
  let px := pixelDelta_x event in
  let ax := angleDelta_x event in
  let dur := _duration w in
  if Qle_bool dur 0 then w
  else if ctrl_or_meta event then
    let factor := wheel_zoom_factor event in
    let w := init_view w in
    let cursor_t := _time_at_x (position_x event) w in
    let new_dur :=
      py.clip (ieee.mul64 (view_dur_of w) factor)
              (Qmin (ieee.float64 (5 # 100)) dur) dur in
    let rel :=
      ieee.div64 (ieee.sub64 cursor_t (_view_start w))
                 (Qmax (ieee.float64 (1 # 1000000000)) (view_dur_of w)) in
    _clamp_view
      (with_view w (ieee.sub64 cursor_t (ieee.mul64 rel new_dur))
         (Some new_dur))
  else
    let w := init_view w in
    let step :=
      if negb (px =? 0)%Z
      then ieee.mul64 (ieee.div64 (ieee.float64 (inject_Z px)) 300)
                      (view_dur_of w)
      else ieee.mul64
             (ieee.mul64 (ieee.div64 (ieee.float64 (inject_Z ax)) 120)
                         (ieee.float64 (3 # 100)))
             (view_dur_of w) in
    _clamp_view (with_view w (ieee.sub64 (_view_start w) step) (_view_dur w)).

Definition pinch_zoom_factor (pinch : PinchGesture) : Q :=
  let scale := scaleFactor pinch in
  let scale := if Qle_bool scale 0 then 1 else scale in
  ieee.div64 1 scale.

Definition pinch_center (pinch : PinchGesture) (w : WaveformView) : Q :=
  match centerPoint_x pinch with
  | Some x => x
  | None => ieee.div64 (inject_Z (width w)) 2
  end.

Definition _handle_gesture (pinch : option PinchGesture)
    (w : WaveformView) : WaveformView :=
  match pinch with
  | None => w
  | Some pinch =>
      let dur := _duration w in
      if Qle_bool dur 0 then w
      else
        let w := init_view w in
        let factor := pinch_zoom_factor pinch in
        let new_dur :=
          py.clip (ieee.mul64 (view_dur_of w) factor)
                  (Qmin (ieee.float64 (1 # 10)) dur) dur in
        let cx := pinch_center pinch w in
        let cursor_t := _time_at_x cx w in
        let rel :=
          ieee.div64 (ieee.sub64 cursor_t (_view_start w))
                     (Qmax (ieee.float64 (1 # 1000000000))
                           (view_dur_of w)) in
        _clamp_view
          (with_view w (ieee.sub64 cursor_t (ieee.mul64 rel new_dur))
             (Some new_dur))
  end.

Definition handle (e : view_event) (w : WaveformView) : WaveformView :=
  match e with
  | Wheel ev => wheelEvent ev w
  | Gesture p => _handle_gesture p w
  | DoubleClick => mouseDoubleClickEvent w
  end.

Definition run (events : list view_event) (w : WaveformView)
    : WaveformView :=
  fold_left (fun w e => handle e w) events w.

(** What [_clamp_view] leaves behind: a start that is not negative and,
    once a window is set, a window between the floor and the buffer's
    duration that starts no later than the rounded difference
    [total - window]. *)
Definition view_ok (w : WaveformView) : Prop :=
  0 <= _view_start w
  /\ match _view_dur w with
     | Some d =>
         Qmin (ieee.float64 (1 # 10)) (_duration w) <= d
         /\ d <= _duration w
         /\ _view_start w <= ieee.sub64 (_duration w) d
     | None => True
     end.

End waveform_view_binary64.

(* ------------------------------------------------------------------ *)
(** ** app/apple_speech.py (data) and app/main.py (editing paths)       *)
(* ------------------------------------------------------------------ *)

Module main.

Open Scope Q_scope.

Record WordSegment : Type := {
  text : string;
  start_sec : Q;
  duration_sec : Q;
  char_start : Z;
  char_length : Z
}.

Record TranscriptionResult : Type := {
  full_text : string;
  segments : list WordSegment
}.

Record SessionAudio : Type := {
  audio : ndarray;
  sample_rate : Z;
  channels : Z
}.

(** A time range as the controller stores it.  The second component is
    typed [float] in the source, but [_selection_to_time] can leave it
    [None]. *)
Definition time_range : Type := Q * option Q.

(** [self.text_edit.textCursor()]. *)
Record TextCursor : Type := {
  selectionStart : Z;
  selectionEnd : Z
}.

(** The controller's fields read or written by the editing paths;
    [recorder_is_recording] is [self.recorder.is_recording()]. *)
Record MainWindow : Type := {
  recorder_is_recording : bool;
  session : option SessionAudio;
  transcription : option TranscriptionResult;
  selection_time : option time_range;
  _rerecord_active : bool;
  _rerecord_range : option time_range;
  waveform : WaveformView
}.

Definition set_recording (st : MainWindow) (b : bool) : MainWindow :=
  {| recorder_is_recording := b; session := session st;
     transcription := transcription st;
     selection_time := selection_time st;
     _rerecord_active := _rerecord_active st;
     _rerecord_range := _rerecord_range st; waveform := waveform st |}.

Definition set_session (st : MainWindow) (s : option SessionAudio)
    : MainWindow :=
  {| recorder_is_recording := recorder_is_recording st; session := s;
     transcription := transcription st;
     selection_time := selection_time st;
     _rerecord_active := _rerecord_active st;
     _rerecord_range := _rerecord_range st; waveform := waveform st |}.

Definition set_transcription (st : MainWindow)
    (t : option TranscriptionResult) : MainWindow :=
  {| recorder_is_recording := recorder_is_recording st;
     session := session st; transcription := t;
     selection_time := selection_time st;
     _rerecord_active := _rerecord_active st;
     _rerecord_range := _rerecord_range st; waveform := waveform st |}.

Definition set_selection_time (st : MainWindow) (r : option time_range)
    : MainWindow :=
  {| recorder_is_recording := recorder_is_recording st;
     session := session st; transcription := transcription st;
     selection_time := r;
     _rerecord_active := _rerecord_active st;
     _rerecord_range := _rerecord_range st; waveform := waveform st |}.

Definition set_rerecord (st : MainWindow) (b : bool)
    (r : option time_range) : MainWindow :=
  {| recorder_is_recording := recorder_is_recording st;
     session := session st; transcription := transcription st;
     selection_time := selection_time st;
     _rerecord_active := b; _rerecord_range := r;
     waveform := waveform st |}.

Definition set_waveform (st : MainWindow) (w : WaveformView) : MainWindow :=
  {| recorder_is_recording := recorder_is_recording st;
     session := session st; transcription := transcription st;
     selection_time := selection_time st;
     _rerecord_active := _rerecord_active st;
     _rerecord_range := _rerecord_range st; waveform := w |}.

(** [a[:, 0] if a.ndim == 2 else a]. *)
Definition to_mono (a : ndarray) : ndarray :=
  match a with
  | Arr2 _ r => Arr1 (column0 r)
  | Arr1 _ => a
  end.

(** [a if a.ndim == 2 else a[:, None]]. *)
Definition to_2d (a : ndarray) : ndarray :=
  match a with
  | Arr2 _ _ => a
  | Arr1 s => add_axis s
  end.

(** The loop of [_selection_to_time]; returning at the second test is the
    [break]. *)
Fixpoint scan_segments (segs : list WordSegment) (start end_ : Z)
    (start_t end_t : option Q) : option Q * option Q :=
  match segs with
  | [] => (start_t, end_t)
  | seg :: rest =>
      let seg_end_char := (char_start seg + char_length seg)%Z in
      let start_t :=
        match start_t with
        | None =>
            if (start <? seg_end_char)%Z then Some (start_sec seg) else None
        | Some _ => start_t
        end in
      match end_t with
      | None =>
          if (end_ <=? seg_end_char)%Z
          then (start_t, Some (start_sec seg + duration_sec seg))
          else scan_segments rest start end_ start_t end_t
      | Some _ => scan_segments rest start end_ start_t end_t
      end
  end.

Definition _selection_to_time (transcription : option TranscriptionResult)
    (session : option SessionAudio) (cursor : TextCursor)
    : result (option time_range) :=
  match transcription with
  | None => Ok None
  | Some tr =>
      let start := Z.min (selectionStart cursor) (selectionEnd cursor) in
      let end_ := Z.max (selectionStart cursor) (selectionEnd cursor) in
      if (start =? end_)%Z then Ok None
      else
        let '(start_t, end_t) :=
          scan_segments (segments tr) start end_ None None in
        let start_t := match start_t with None => 0 | Some t => t end in
        match end_t, session with
        | None, Some s =>
            bind (py.truediv (len (audio s)) (sample_rate s))
                 (fun d => Ok (Some (start_t, Some d)))
        | _, _ => Ok (Some (start_t, end_t))
        end
  end.

(** *** The mapping as the specification words it. *)
Definition seg_end_char (seg : WordSegment) : Z :=
  (char_start seg + char_length seg)%Z.
Definition spec_start_t (segs : list WordSegment) (start : Z) : Q :=
  match find (fun seg => (start <? seg_end_char seg)%Z) segs with
  | Some seg => start_sec seg
  | None => 0
  end.
Definition spec_end_t (segs : list WordSegment) (end_ : Z)
    (total_duration : Q) : Q :=
  match find (fun seg => (end_ <=? seg_end_char seg)%Z) segs with
  | Some seg => start_sec seg + duration_sec seg
  | None => total_duration
  end.

(** *** Slots connected to the waveform's signals *)

(** [MainWindow.__init__]: the fields as first set. *)
Definition MainWindow_init (width : Z) : MainWindow :=
  {| recorder_is_recording := false; session := None;
     transcription := None; selection_time := None;
     _rerecord_active := false; _rerecord_range := None;
     waveform := init width |}.

Definition on_scrub (time_sec : Q) (st : MainWindow) : MainWindow :=
  set_waveform st (set_cursor_time time_sec (waveform st)).

Definition on_waveform_selection (start end_ : Q) (st : MainWindow)
    : MainWindow :=
  if Qeq_bool start end_ then set_selection_time st None
  else set_selection_time st (Some (Qmin start end_, Some (Qmax start end_))).

(** The slot connected to each signal in [_build_ui]. *)
Definition deliver (sig : signal) (st : MainWindow) : MainWindow :=
  match sig with
  | selectionChanged a b => on_waveform_selection a b st
  | scrubbed t => on_scrub t st
  end.

(** A mouse press, move or release on the controller's waveform, with the
    connected slots run on the signals emitted. *)
Definition waveform_press (left_button : bool) (x : Q) (st : MainWindow)
    : MainWindow :=
  let '(w, sigs) := mousePressEvent left_button x (waveform st) in
  fold_left (fun st sig => deliver sig st) sigs (set_waveform st w).

Definition waveform_move (x : Q) (st : MainWindow) : result MainWindow :=
  let '(w, r) := mouseMoveEvent x (waveform st) in
  bind r (fun sigs =>
            Ok (fold_left (fun st sig => deliver sig st) sigs
                          (set_waveform st w))).

(** The mono samples of a buffer: [a[:, 0] if a.ndim == 2 else a]. *)
Definition mono_samples (a : ndarray) : list Q :=
  match a with
  | Arr2 _ r => column0 r
  | Arr1 s => s
  end.

(** The waveform shows the session's buffer. *)
Definition mirrors (st : MainWindow) : Prop :=
  match session st with
  | Some s =>
      _audio (waveform st) = Some (mono_samples (audio s))
      /\ _sr (waveform st) = sample_rate s
  | None => _audio (waveform st) = None \/ _audio (waveform st) = Some []
  end.


(** *** Playback *)

(** The playback fields of the controller; [_play_stream] tells whether
    the stream is not [None]. *)
Record Playback : Type := {
  _play_stream : bool;
  _play_audio : option (list Q);
  _play_sr : Z;
  _play_frame : Z
}.


(** The [callback(outdata, frames, ...)] closure of [_start_playback]:
    the block written to [outdata], the fields afterwards, and whether
    [sd.CallbackStop] is raised. *)
Definition callback (frames : Z) (p : Playback)
    : list Q * Playback * bool :=
  match _play_audio p with
  | None => (repeat 0 (Z.to_nat frames), p, false)
  | Some a =>
      let n := Z.of_nat (length a) in
      let end_ := Z.min (_play_frame p + frames)%Z n in
      let chunk := slice_range a (_play_frame p) end_ in
      let out := chunk ++ repeat 0 (Z.to_nat frames - length chunk) in
      (out,
       {| _play_stream := _play_stream p; _play_audio := _play_audio p;
          _play_sr := _play_sr p; _play_frame := end_ |},
       (n <=? end_)%Z)
  end.

(** Successive calls of the callback by the audio thread, with the block
    sizes it asks for: the blocks written, and the fields at the end. *)
Fixpoint callbacks (sizes : list Z) (p : Playback) : list Q * Playback :=
  match sizes with
  | [] => ([], p)
  | frames :: rest =>
      let '(out, p', _) := callback frames p in
      let '(outs, p'') := callbacks rest p' in
      (out ++ outs, p'')
  end.

Section playback.

(** Whether the [sounddevice] import succeeded ([sd is not None]). *)
Variable sd_available : bool.

Definition _stop_playback (p : Playback) : Playback :=
  if sd_available then
    {| _play_stream := false; _play_audio := _play_audio p;
       _play_sr := _play_sr p; _play_frame := _play_frame p |}
  else p.

(** [_start_playback]; the output stream is taken to open. *)
Definition _start_playback (start_sec : Q) (sp : MainWindow * Playback)
    : MainWindow * Playback :=
  let '(st, p) := sp in
  if negb sd_available then sp
  else
    match session st with
    | None => sp
    | Some s =>
        (set_waveform st (set_cursor_time start_sec (waveform st)),
         {| _play_stream := true;
            _play_audio := Some (mono_samples (audio s));
            _play_sr := sample_rate s;
            _play_frame :=
              Z.max 0 (py.trunc (start_sec * inject_Z (sample_rate s))) |})
    end.


Definition on_skip_start (sp : MainWindow * Playback)
    : MainWindow * Playback :=
  let '(st, p) := sp in
  match session st with
  | None => sp
  | Some _ =>
      _start_playback 0
        (set_waveform st (set_cursor_time 0 (waveform st)), p)
  end.

(** [_tick_playback], run by the 30 ms timer. *)
Definition _tick_playback (sp : MainWindow * Playback)
    : MainWindow * Playback :=
  let '(st, p) := sp in
  match _play_audio p with
  | None => sp
  | Some a =>
      if negb (_play_stream p) then sp
      else
        let pos_sec :=
          inject_Z (_play_frame p) / inject_Z (Z.max 1 (_play_sr p)) in
        let st := set_waveform st (set_cursor_time pos_sec (waveform st)) in
        if (Z.of_nat (length a) <=? _play_frame p)%Z
        then (set_waveform st (set_cursor_time pos_sec (waveform st)),
              _stop_playback p)
        else (st, p)
  end.

End playback.

Section controller.

(** [self.apple]: the recogniser, [None] when Apple Speech could not be
    set up; applied to the temporary WAV written for it. *)
Variable apple : option (wav -> result TranscriptionResult).

Definition is_space (c : ascii) : bool :=
  let n := nat_of_ascii c in
  ((9 <=? n) && (n <=? 13) || (28 <=? n) && (n <=? 32))%nat.

(** [not s.strip()]. *)
Fixpoint is_blank (s : string) : bool :=
  match s with
  | EmptyString => true
  | String c rest => is_space c && is_blank rest
  end.

Definition placeholder : TranscriptionResult :=
  {| full_text := "[no speaking detected]"; segments := [] |}.

Definition _save_temp_wav (audio : ndarray) (sr : Z) : result wav :=
  let pcm16 := map pcm16_encode (flatten audio) in
  wave_write 1 sr (tobytes pcm16).

Definition on_transcribe (st : MainWindow) : MainWindow :=
  match apple, session st with
  | None, _ => st
  | Some _, None => st
  | Some transcribe_file, Some s =>
      let mono := to_mono (audio s) in
      match bind (_save_temp_wav mono (sample_rate s)) transcribe_file with
      | Ok res =>
          if is_blank (full_text res)
          then set_transcription st (Some placeholder)
          else set_transcription st (Some res)
      | Raise _ => set_transcription st (Some placeholder)
      end
  end.

(** Where the body of a [try] stands: still running, or left through
    the [except] clause with the state reached so far. *)
Inductive flow : Type :=
| Next (st : MainWindow) (appended : bool)
| Caught (st : MainWindow).

(** The branch of [on_stop] taken while a re-record is armed. *)
Definition on_stop_rerecord (clip : ndarray) (st : MainWindow)
    : MainWindow :=
  if recorder_is_recording st then
    let st := set_recording st false in
    let clip := to_mono clip in
    match session st, _rerecord_range st with
    | Some sess, Some (start_sec, end_sec) =>
        match end_sec with
        | None => st
        | Some end_sec =>
            match splice_audio (audio sess) (sample_rate sess)
                               start_sec end_sec clip with
            | Raise _ => st
            | Ok new_audio =>
                let sess := {| audio := new_audio;
                               sample_rate := sample_rate sess;
                               channels := channels sess |} in
                let st := set_session st (Some sess) in
                let st :=
                  set_waveform st
                    (set_audio (audio sess) (sample_rate sess)
                               (waveform st)) in
                let st :=
                  set_waveform st
                    (set_cursor_time start_sec (waveform st)) in
                let st := set_rerecord st false None in
                on_transcribe st
            end
        end
    | _, _ => set_rerecord st false None
    end
  else st.

(** The block [if self.recorder.is_recording(): ...] of [on_stop];
    [(audio, sr)] is what [self.recorder.stop()] returns.  In each branch
    the session is assigned first and the status text, which divides
    [len(audio)] by [sr], is built after it: with [sr = 0] the
    [ZeroDivisionError] leaves the [try] with the session already
    changed. *)
Definition on_stop_finalize (audio_ : ndarray) (sr : Z) (st : MainWindow)
    : flow :=
  if recorder_is_recording st then
    let st := set_recording st false in
    let fresh :=
      Some {| audio := audio_; sample_rate := sr; channels := 1 |} in
    let install_fresh :=
      match py.truediv (len audio_) sr with
      | Raise _ => Caught (set_session st fresh)
      | Ok _ => Next (set_session st fresh) false
      end in
    match session st with
    | None => install_fresh
    | Some sess =>
        if (len (audio sess) =? 0)%Z
        then install_fresh
        else
          match py.truediv (len (audio sess)) (sample_rate sess) with
          | Raise _ => Caught st
          | Ok dur =>
              let cursor := _cursor_time (waveform st) in
              if Qle_bool (dur - (5 # 100)) cursor then
                let insert := to_2d audio_ in
                let base := to_2d (audio sess) in
                match concatenate [base; insert] with
                | Raise _ => Caught st
                | Ok joined =>
                    let st :=
                      set_session st
                        (Some {| audio := astype_float32 joined;
                                 sample_rate := sample_rate sess;
                                 channels := channels sess |}) in
                    match py.truediv (len audio_) sr with
                    | Raise _ => Caught st
                    | Ok _ => Next st true
                    end
                end
              else install_fresh
          end
    end
  else Next st false.

(** [on_stop].  The transcription that the non-append branch schedules
    on a 150 ms timer runs later, from the event loop, and is not part
    of this transition. *)
Definition on_stop (captured : ndarray * Z) (st : MainWindow)
    : MainWindow :=
  let '(clip, sr) := captured in
  if _rerecord_active st then on_stop_rerecord clip st
  else
    match on_stop_finalize clip sr st with
    | Caught st => st
    | Next st appended =>
        match session st with
        | None => st
        | Some sess =>
            let st :=
              set_waveform st
                (set_audio (audio sess) (sample_rate sess)
                           (waveform st)) in
            match py.truediv (len (audio sess)) (sample_rate sess) with
            | Raise _ => st
            | Ok d =>
                let st :=
                  set_waveform st (set_cursor_time d (waveform st)) in
                if appended then on_transcribe st else st
            end
        end
    end.

(** [_delete_selection]; [Raise] is an exception that leaves the
    method. *)
Definition _delete_selection (cursor : TextCursor) (st : MainWindow)
    : result MainWindow :=
  match session st with
  | None => Ok st
  | Some sess =>
      bind
        (match selection_time st with
         | Some r => Ok (Some r)
         | None =>
             _selection_to_time (transcription st) (session st) cursor
         end)
        (fun sel =>
           match sel with
           | None => Ok st
           | Some (start_sec, None) => Raise TypeError
           | Some (start_sec, Some end_sec) =>
               if Qle_bool end_sec start_sec then Ok st
               else
                 let blank := zeros0 in
                 match splice_audio (audio sess) (sample_rate sess)
                                    start_sec end_sec blank with
                 | Raise _ => Ok st
                 | Ok new_audio =>
                     let sess := {| audio := new_audio;
                                    sample_rate := sample_rate sess;
                                    channels := channels sess |} in
                     let st := set_session st (Some sess) in
                     let st :=
                       set_waveform st
                         (set_audio (audio sess) (sample_rate sess)
                                    (waveform st)) in
                     let st :=
                       set_waveform st
                         (set_selection None None (waveform st)) in
                     let st :=
                       set_waveform st
                         (set_cursor_time start_sec (waveform st)) in
                     let st := set_selection_time st None in
                     Ok (on_transcribe st)
                 end
           end)
  end.

(** The edits that change the session buffer in place of a wholesale
    replacement, as the controller performs them. *)
Inductive edit : Type :=
| DeleteSelection (cursor : TextCursor)
| Stop (captured : ndarray * Z).

Definition apply_edit (e : edit) (st : MainWindow) : result MainWindow :=
  match e with
  | DeleteSelection c => _delete_selection c st
  | Stop captured => Ok (on_stop captured st)
  end.

(** *** Recording, selection, import, export and clear *)

Definition on_rerecord (st : MainWindow) : MainWindow :=
  match session st, selection_time st with
  | Some _, Some r => set_rerecord st true (Some r)
  | _, _ => st
  end.

(** [on_record]; [captured] is what the recorder would return if this
    press is a Stop, [start_ok] tells whether [self.recorder.start()]
    returns rather than raises. *)
Definition on_record (captured : ndarray * Z) (cursor : TextCursor)
    (start_ok : bool) (st : MainWindow) : MainWindow :=
  if recorder_is_recording st then on_stop captured st
  else
    match _selection_to_time (transcription st) (session st) cursor with
    | Raise _ => st
    | Ok auto_range =>
        let st :=
          match auto_range with
          | Some r => set_rerecord st true (Some r)
          | None => st
          end in
        if start_ok then set_recording st true else st
    end.

(** [on_selection_changed]; [Raise] is an exception that leaves the
    slot. *)
Definition on_selection_changed (cursor : TextCursor) (st : MainWindow)
    : result MainWindow :=
  bind (_selection_to_time (transcription st) (session st) cursor)
       (fun sel =>
          let st := set_selection_time st sel in
          match sel, session st with
          | Some (s, e), Some _ =>
              Ok (set_waveform st (set_selection (Some s) e (waveform st)))
          | _, _ =>
              Ok (set_waveform st (set_selection None None (waveform st)))
          end).

(** [_load_audio_file]; [opened] is the outcome of [wave.open]. *)
Definition _load_audio_file (opened : result wav) (st : MainWindow)
    : MainWindow :=
  match bind opened load_wav with
  | Raise _ => st
  | Ok (audio_, sr, ch) =>
      let st :=
        set_session st
          (Some {| audio := audio_; sample_rate := sr; channels := ch |}) in
      let st := set_waveform st (set_audio audio_ sr (waveform st)) in
      let st := set_waveform st (set_cursor_time 0 (waveform st)) in
      on_transcribe st
  end.

(** [on_clear]; [plain_text] is [self.text_edit.toPlainText()], [confirm]
    tells whether the user answers Yes. *)
Definition on_clear (plain_text : string) (confirm : bool)
    (st : MainWindow) : MainWindow :=
  let has_audio :=
    match session st with
    | Some s => (0 <? len (audio s))%Z
    | None => false
    end in
  let has_text := negb (is_blank plain_text) in
  if negb (has_audio || has_text) then st
  else if negb confirm then st
  else
    let st := set_recording st false in
    let st := set_session st None in
    let st := set_transcription st None in
    let st := set_selection_time st None in
    let st := set_waveform st (set_selection None None (waveform st)) in
    let st := set_waveform st (set_audio zeros0 44100 (waveform st)) in
    set_waveform st (set_cursor_time 0 (waveform st)).

(** The commands a user can issue, with what the environment supplies
    to each. *)
Inductive command : Type :=
| CmdRecord (captured : ndarray * Z) (cursor : TextCursor) (start_ok : bool)
| CmdStop (captured : ndarray * Z)
| CmdRerecord
| CmdDelete (cursor : TextCursor)
| CmdImport (opened : result wav)
| CmdClear (plain_text : string) (confirm : bool)
| CmdTextSelection (cursor : TextCursor)
| CmdMousePress (left_button : bool) (x : Q)
| CmdMouseMove (x : Q)
| CmdMouseRelease
| CmdView (e : view_event).

Definition step (c : command) (st : MainWindow) : result MainWindow :=
  match c with
  | CmdRecord captured cursor start_ok =>
      Ok (on_record captured cursor start_ok st)
  | CmdStop captured => Ok (on_stop captured st)
  | CmdRerecord => Ok (on_rerecord st)
  | CmdDelete cursor => _delete_selection cursor st
  | CmdImport opened => Ok (_load_audio_file opened st)
  | CmdClear plain_text confirm => Ok (on_clear plain_text confirm st)
  | CmdTextSelection cursor => on_selection_changed cursor st
  | CmdMousePress left_button x => Ok (waveform_press left_button x st)
  | CmdMouseMove x => waveform_move x st
  | CmdMouseRelease =>
      Ok (set_waveform st (mouseReleaseEvent (waveform st)))
  | CmdView e => Ok (set_waveform st (handle e (waveform st)))
  end.

(** Commands run one after the other; an exception that leaves a slot ends
    the run. *)
Fixpoint run_commands (cs : list command) (st : MainWindow)
    : result MainWindow :=
  match cs with
  | [] => Ok st
  | c :: rest => bind (step c st) (run_commands rest)
  end.


(** What the environment guarantees of a command's inputs: the recorder,
    built with [sample_rate=44100, channels=1], returns single-channel
    clips at a positive rate, and the [wave] module only opens files of at
    least one channel. *)
Definition inputs_ok (c : command) : Prop :=
  match c with
  | CmdRecord (clip, sr) _ _ => channel_count clip = 1%positive /\ (0 < sr)%Z
  | CmdStop (clip, sr) => channel_count clip = 1%positive /\ (0 < sr)%Z
  | CmdImport opened => forall f, opened = Ok f -> (1 <= nchannels f)%Z
  | _ => True
  end.

(** The part of it that the status text of [on_stop] relies on: the
    recorder's rate is not zero. *)
Definition rate_ok (c : command) : Prop :=
  match c with
  | CmdRecord (_, sr) _ _ => sr <> 0%Z
  | CmdStop (_, sr) => sr <> 0%Z
  | _ => True
  end.

End controller.

(** The viewport of the controller's waveform widget. *)
Definition viewport (st : MainWindow) : Q * option Q :=
  (_view_start (waveform st), _view_dur (waveform st)).

(** The buffer held by the session, if any. *)
Definition session_audio (st : MainWindow) : option ndarray :=
  option_map audio (session st).

End main.

Import main.

(* ------------------------------------------------------------------ *)
(** ** app/audio_recorder.py                                            *)
(* ------------------------------------------------------------------ *)

Module audio_recorder.

(** The recorder's fields; [_stream] tells whether the input stream is
    not [None], [_frames_q] lists the queued chunks, oldest first, and
    [_stop_event] tells whether the event is set. *)
Record AudioRecorder : Type := {
  sample_rate : Z;
  channels : positive;
  _stream : bool;
  _frames_q : list ndarray;
  _stop_event : bool;
  _buffer : option ndarray
}.

Definition is_recording (r : AudioRecorder) : bool := _stream r.

Definition set_buffer (r : AudioRecorder) (b : option ndarray)
    : AudioRecorder :=
  {| sample_rate := sample_rate r; channels := channels r;
     _stream := _stream r; _frames_q := _frames_q r;
     _stop_event := _stop_event r; _buffer := b |}.

Definition set_queue (r : AudioRecorder) (q : list ndarray)
    : AudioRecorder :=
  {| sample_rate := sample_rate r; channels := channels r;
     _stream := _stream r; _frames_q := q;
     _stop_event := _stop_event r; _buffer := _buffer r |}.

(** [_callback], run by the audio thread for every chunk captured:
    [self._frames_q.put(indata.copy())]. *)
Definition _callback (indata : ndarray) (r : AudioRecorder)
    : AudioRecorder :=
  set_queue r (_frames_q r ++ [indata]).

Definition _append_to_buffer (frames_list : list ndarray)
    (r : AudioRecorder) : result AudioRecorder :=
  bind (concatenate frames_list)
       (fun chunk =>
          match _buffer r with
          | None => Ok (set_buffer r (Some chunk))
          | Some b =>
              bind (concatenate [b; chunk])
                   (fun joined => Ok (set_buffer r (Some joined)))
          end).

(** The collector thread: inside the loop of [_collector_loop] with its
    local list [frames], or ended. *)
Inductive collector : Type :=
| Running (frames_ : list ndarray)
| Exited.

(** The chunks a collector holds that are not in the buffer yet. *)
Definition collector_frames (t : collector) : list ndarray :=
  match t with
  | Running frames_ => frames_
  | Exited => []
  end.

(** A flush by the collector; an exception of [np.concatenate] ends the
    thread. *)
Definition collector_flush (frames_ : list ndarray) (next : collector)
    (r : AudioRecorder) : collector * AudioRecorder :=
  match _append_to_buffer frames_ r with
  | Ok r' => (next, r')
  | Raise _ => (Exited, r)
  end.

(** One turn of [_collector_loop]: the test of the stop event, then
    either the body of the loop -- [get] takes the oldest chunk, or times
    out on an empty queue; the flush happens when more than a second has
    passed since the last one ([flush_due]) and [frames] is not empty --
    or the final flush and the end of the thread.  The chunks left in the
    queue stay there. *)
Definition collector_turn (flush_due : bool) (t : collector)
    (r : AudioRecorder) : collector * AudioRecorder :=
  match t with
  | Exited => (Exited, r)
  | Running frames_ =>
      if _stop_event r then
        match frames_ with
        | [] => (Exited, r)
        | _ :: _ => collector_flush frames_ Exited r
        end
      else
        let '(frames_, r) :=
          match _frames_q r with
          | chunk :: rest => (frames_ ++ [chunk], set_queue r rest)
          | [] => (frames_, r)
          end in
        match frames_ with
        | _ :: _ =>
            if flush_due then collector_flush frames_ (Running []) r
            else (Running frames_, r)
        | [] => (Running frames_, r)
        end
  end.

(** What the other two threads do while the caller is elsewhere. *)
Inductive event : Type :=
| Captured (indata : ndarray)
| Turn (flush_due : bool).

Definition step (e : event) (s : collector * AudioRecorder)
    : collector * AudioRecorder :=
  match e with
  | Captured indata => (fst s, _callback indata (snd s))
  | Turn flush_due => collector_turn flush_due (fst s) (snd s)
  end.

Definition run (events : list event) (s : collector * AudioRecorder)
    : collector * AudioRecorder :=
  fold_left (fun s e => step e s) events s.

(** The chunks captured during [events], in order. *)
Definition captured (events : list event) : list ndarray :=
  flat_map (fun e => match e with
                     | Captured indata => [indata]
                     | Turn _ => []
                     end) events.

(** [start]: nothing when a stream is active; otherwise the buffer is
    dropped, the event cleared, the stream opened and a collector thread
    started.  The queue is not emptied. *)
Definition start (t : collector) (r : AudioRecorder)
    : collector * AudioRecorder :=
  if _stream r then (t, r)
  else
    (Running [],
     {| sample_rate := sample_rate r; channels := channels r;
        _stream := true; _frames_q := _frames_q r;
        _stop_event := false; _buffer := None |}).

(** What [stop] does: it returns, or raises [RuntimeError] when no
    stream is active. *)
Inductive stop_outcome : Type :=
| Stopped (audio : ndarray) (sample_rate : Z)
          (t : collector) (r : AudioRecorder)
| RuntimeError_not_active.

(** [stop]; [during] is what the audio thread and the collector do from
    [self._stop_event.set()] until [join(timeout=2.0)] returns, with the
    collector ended or not. *)
Definition stop (during : list event) (t : collector) (r : AudioRecorder)
    : stop_outcome :=
  if _stream r then
    let r := {| sample_rate := sample_rate r; channels := channels r;
                _stream := _stream r; _frames_q := _frames_q r;
                _stop_event := true; _buffer := _buffer r |} in
    let '(t, r) := run during (t, r) in
    let r := {| sample_rate := sample_rate r; channels := channels r;
                _stream := false; _frames_q := _frames_q r;
                _stop_event := _stop_event r; _buffer := _buffer r |} in
    let audio :=
      match _buffer r with
      | Some b => b
      | None => Arr2 (channels r) []
      end in
    Stopped (astype_float32 audio) (sample_rate r) t r
  else RuntimeError_not_active.

(** A chunk as the input stream delivers it: [(frames, channels)]. *)
Definition chunk_ok (c : positive) (a : ndarray) : Prop :=
  ndim a = 2%Z /\ channel_count a = c.

(** Every chunk of [all] is in the buffer, with the collector or in the
    queue, in that order. *)
Definition chunks_kept (c : positive) (all : list ndarray)
    (s : collector * AudioRecorder) : Prop :=
  exists flushed,
    flushed ++ collector_frames (fst s) ++ _frames_q (snd s) = all
    /\ ((_buffer (snd s) = None /\ flushed = [])
        \/ _buffer (snd s) = Some (Arr2 c (concat (map frames flushed))))
    /\ Forall (chunk_ok c) all.

End audio_recorder.

(* ================================================================== *)
(** * Properties                                                        *)
(* ================================================================== *)

(* ------------------------------------------------------------------ *)
(** ** Python numerics                                                  *)
(* ------------------------------------------------------------------ *)

Open Scope Z_scope.

Lemma round_comp (x y : Q) : (x == y)%Q -> py.round x = py.round y.
Proof.
  intros E. unfold py.round.
  rewrite (Qfloor_comp _ _ E).
  assert (H : (x - inject_Z (Qfloor y) ?= 1 # 2)%Q
              = (y - inject_Z (Qfloor y) ?= 1 # 2)%Q)
    by (apply Qcompare_comp; [rewrite E; reflexivity | reflexivity]).
  now rewrite H.
Qed.

Lemma round_inject_Z (z : Z) : py.round (inject_Z z) = z.
Proof.
  unfold py.round. rewrite Qfloor_Z.
  assert (H : (inject_Z z - inject_Z z ?= 1 # 2)%Q = Lt).
  { rewrite <- Qlt_alt. lra. }
  now rewrite H.
Qed.



Lemma slice_index_in_range (n i : Z) :
  0 <= i <= n -> py.slice_index n i = Z.to_nat i.
Proof.
  intros H. unfold py.slice_index.
  destruct (Z.ltb_spec i 0); [lia | f_equal; lia].
Qed.

(** Truncation drops less than one unit, toward zero. *)
Lemma trunc_spec (q : Q) :
  ((0 <= q -> inject_Z (py.trunc q) <= q < inject_Z (py.trunc q) + 1)
   /\ (q <= 0 -> inject_Z (py.trunc q) - 1 < q <= inject_Z (py.trunc q)))%Q.
Proof.
  destruct q as [n d]. unfold py.trunc, Qle, Qlt. cbn.
  pose proof (Z.quot_rem' n (Zpos d)) as E.
  split; intros H.
  - assert (Hn : 0 <= n) by lia.
    pose proof (Z.rem_bound_pos n (Zpos d) Hn ltac:(lia)). nia.
  - assert (Hn : n <= 0) by lia.
    pose proof (Z.rem_bound_pos_neg n (Zpos d) ltac:(lia) Hn). nia.
Qed.

Lemma trunc_range (q : Q) (b : Z) :
  (- inject_Z b <= q <= inject_Z b)%Q -> - b <= py.trunc q <= b.
Proof.
  destruct q as [n d]. unfold py.trunc, Qle. cbn. intros [Hl Hu].
  pose proof (Z.quot_rem' n (Zpos d)) as E.
  destruct (Z_le_gt_dec 0 n) as [Hn | Hn].
  - pose proof (Z.rem_bound_pos n (Zpos d) Hn ltac:(lia)). nia.
  - pose proof (Z.rem_bound_pos_neg n (Zpos d) ltac:(lia) ltac:(lia)). nia.
Qed.

Lemma Zle_of_Qlt_succ (a b : Z) :
  (inject_Z a < inject_Z b + 1)%Q -> a <= b.
Proof.
  intros H.
  assert (H' : (inject_Z a < inject_Z (b + 1))%Q)
    by (rewrite inject_Z_plus; exact H).
  rewrite <- Zlt_Qlt in H'. lia.
Qed.

Lemma round_bounds (x : Q) : Qfloor x <= py.round x <= Qfloor x + 1.
Proof.
  unfold py.round.
  destruct (x - inject_Z (Qfloor x) ?= 1 # 2)%Q;
    [destruct (Z.even (Qfloor x)) | |]; lia.
Qed.

Lemma round_mono (x y : Q) : (x <= y)%Q -> py.round x <= py.round y.
Proof.
  intros Hxy.
  pose proof (Qfloor_resp_le x y Hxy) as Hf.
  destruct (Z.eq_dec (Qfloor x) (Qfloor y)) as [E | N].
  - unfold py.round. rewrite E.
    destruct (Qcompare_spec (x - inject_Z (Qfloor y)) (1 # 2)) as [Hx | Hx | Hx];
      destruct (Qcompare_spec (y - inject_Z (Qfloor y)) (1 # 2))
        as [Hy | Hy | Hy];
      try lia; try lra; destruct (Z.even (Qfloor y)); lia.
  - pose proof (round_bounds x). pose proof (round_bounds y). lia.
Qed.

Lemma round_zero : py.round 0 = 0.
Proof. reflexivity. Qed.

Lemma trunc_comp (x y : Q) : (x == y)%Q -> py.trunc x = py.trunc y.
Proof.
  intros E.
  destruct (trunc_spec x) as [Px Nx]. destruct (trunc_spec y) as [Py Ny].
  destruct (Qlt_le_dec x 0) as [H | H].
  - assert (Hx : (x <= 0)%Q) by lra. assert (Hy : (y <= 0)%Q) by lra.
    specialize (Nx Hx). specialize (Ny Hy).
    assert (py.trunc x <= py.trunc y) by (apply Zle_of_Qlt_succ; lra).
    assert (py.trunc y <= py.trunc x) by (apply Zle_of_Qlt_succ; lra).
    lia.
  - assert (Hy : (0 <= y)%Q) by lra.
    specialize (Px H). specialize (Py Hy).
    assert (py.trunc x <= py.trunc y) by (apply Zle_of_Qlt_succ; lra).
    assert (py.trunc y <= py.trunc x) by (apply Zle_of_Qlt_succ; lra).
    lia.
Qed.

Lemma trunc_inject_Z (k : Z) : py.trunc (inject_Z k) = k.
Proof. unfold py.trunc. cbn. apply Z.quot_1_r. Qed.

Lemma trunc_mono (x y : Q) : (x <= y)%Q -> py.trunc x <= py.trunc y.
Proof.
  intros Hxy.
  destruct (trunc_spec x) as [Px Nx]. destruct (trunc_spec y) as [Py Ny].
  destruct (Qlt_le_dec y 0) as [Hy | Hy].
  - assert (Hx' : (x <= 0)%Q) by lra. assert (Hy' : (y <= 0)%Q) by lra.
    specialize (Nx Hx'). specialize (Ny Hy').
    apply Zle_of_Qlt_succ. lra.
  - specialize (Py Hy).
    destruct (Qlt_le_dec x 0) as [Hx | Hx].
    + assert (Hx' : (x <= 0)%Q) by lra. specialize (Nx Hx').
      assert (py.trunc x <= 0).
      { apply Zle_of_Qlt_succ. change (inject_Z 0) with 0%Q. lra. }
      assert (0 <= py.trunc y).
      { apply Zle_of_Qlt_succ. change (inject_Z 0) with 0%Q. lra. }
      lia.
    + specialize (Px Hx). apply Zle_of_Qlt_succ. lra.
Qed.

Lemma trunc_opp (x : Q) : py.trunc (- x) = - py.trunc x.
Proof. unfold py.trunc. cbn. now apply Z.quot_opp_l. Qed.

(* ------------------------------------------------------------------ *)
(** ** Rounding to the nearest integer, ties to even                    *)
(* ------------------------------------------------------------------ *)

Lemma inject_Z_sub (a b : Z) :
  (inject_Z (a - b) == inject_Z a - inject_Z b)%Q.
Proof. unfold Z.sub. rewrite inject_Z_plus, inject_Z_opp. reflexivity. Qed.

(** [round] returns an integer within one half of its argument, and the
    even one of the two when the argument is half-way. *)
Lemma round_spec (x : Q) :
  (inject_Z (py.round x) - (1 # 2) <= x <= inject_Z (py.round x) + (1 # 2))%Q
  /\ ((x == inject_Z (py.round x) + (1 # 2))%Q
      \/ (x == inject_Z (py.round x) - (1 # 2))%Q ->
      Z.even (py.round x) = true).
Proof.
  pose proof (Qfloor_le x) as Hl. pose proof (Qlt_floor x) as Hu.
  rewrite inject_Z_plus in Hu. change (inject_Z 1) with 1%Q in Hu.
  unfold py.round.
  destruct (Qcompare_spec (x - inject_Z (Qfloor x)) (1 # 2)) as [E | L | G].
  - destruct (Z.even (Qfloor x)) eqn:Ev.
    + split; [lra | intros _; exact Ev].
    + rewrite inject_Z_plus. change (inject_Z 1) with 1%Q.
      split; [lra |]. intros _.
      rewrite Z.add_1_r, Z.even_succ, <- Z.negb_even, Ev. reflexivity.
  - split; [lra |]. intros [H | H]; lra.
  - rewrite inject_Z_plus. change (inject_Z 1) with 1%Q.
    split; [lra |]. intros [H | H]; lra.
Qed.

(** That determines it. *)
Lemma round_unique (x : Q) (k : Z) :
  (inject_Z k - (1 # 2) <= x <= inject_Z k + (1 # 2))%Q ->
  ((x == inject_Z k + (1 # 2))%Q \/ (x == inject_Z k - (1 # 2))%Q ->
   Z.even k = true) ->
  k = py.round x.
Proof.
  intros Hk Ek. destruct (round_spec x) as [Hr Er].
  set (r := py.round x) in *.
  assert (D : r - 1 <= k <= r + 1).
  { split.
    - apply Zle_of_Qlt_succ. rewrite inject_Z_sub.
      change (inject_Z 1) with 1%Q. lra.
    - apply Zle_of_Qlt_succ. rewrite inject_Z_plus.
      change (inject_Z 1) with 1%Q. lra. }
  destruct (Z.eq_dec k r) as [? | N]; [assumption | exfalso].
  destruct (Z.eq_dec k (r + 1)) as [E | N'].
  - subst k. rewrite inject_Z_plus in Hk, Ek.
    change (inject_Z 1) with 1%Q in Hk, Ek.
    assert (T : (x == inject_Z r + (1 # 2))%Q) by lra.
    assert (E1 : Z.even r = true) by (apply Er; now left).
    assert (E2 : Z.even (r + 1) = true) by (apply Ek; right; lra).
    rewrite Z.add_1_r, Z.even_succ, <- Z.negb_even, E1 in E2. discriminate.
  - assert (E : k = r - 1) by lia. subst k.
    rewrite inject_Z_sub in Hk, Ek.
    change (inject_Z 1) with 1%Q in Hk, Ek.
    assert (T : (x == inject_Z r - (1 # 2))%Q) by lra.
    assert (E1 : Z.even r = true) by (apply Er; now right).
    assert (E2 : Z.even (r - 1) = true) by (apply Ek; left; lra).
    rewrite Z.sub_1_r, Z.even_pred, <- Z.negb_even, E1 in E2.
    discriminate.
Qed.

Lemma round_opp (x : Q) : py.round (- x) = - py.round x.
Proof.
  symmetry. destruct (round_spec x) as [Hr Er].
  apply round_unique; rewrite inject_Z_opp.
  - lra.
  - intros H. rewrite Z.even_opp. apply Er. destruct H; [right | left]; lra.
Qed.

(* ------------------------------------------------------------------ *)
(** ** Rounding to a binary floating-point format                       *)
(* ------------------------------------------------------------------ *)

Lemma pow2_pos (e : Z) : (0 < ieee.pow2 e)%Q.
Proof. apply Qpower_0_lt. reflexivity. Qed.

Lemma pow2_add (a b : Z) :
  (ieee.pow2 (a + b) == ieee.pow2 a * ieee.pow2 b)%Q.
Proof. apply Qpower_plus. discriminate. Qed.

Lemma pow2_le (a b : Z) : a <= b -> (ieee.pow2 a <= ieee.pow2 b)%Q.
Proof. intros H. apply Qpower_le_compat_l; [exact H | discriminate]. Qed.

Lemma pow2_lt (a b : Z) : a < b -> (ieee.pow2 a < ieee.pow2 b)%Q.
Proof. intros H. apply Qpower_lt_compat_l; [exact H | reflexivity]. Qed.

Lemma pow2_Z (k : Z) : 0 <= k -> (ieee.pow2 k == inject_Z (2 ^ k))%Q.
Proof. intros H. symmetry. exact (Zpower_Qpower 2 k H). Qed.

(** [ilog2] is the floor of the binary logarithm. *)
Lemma ilog2_spec (q : Q) :
  (0 < q)%Q ->
  (ieee.pow2 (ieee.ilog2 q) <= q < ieee.pow2 (ieee.ilog2 q + 1))%Q.
Proof.
  intros Hq. unfold ieee.ilog2.
  destruct q as [n d]. cbn [Qnum Qden].
  assert (Hn : 0 < n) by (unfold Qlt in Hq; cbn in Hq; lia).
  set (a := Z.log2 n). set (b := Z.log2 (Zpos d)).
  destruct (Z.log2_spec n Hn) as [An An'].
  destruct (Z.log2_spec (Zpos d) ltac:(lia)) as [Bd Bd'].
  fold a in An, An'. fold b in Bd, Bd'.
  assert (Ha : 0 <= a) by apply Z.log2_nonneg.
  assert (Hb : 0 <= b) by apply Z.log2_nonneg.
  assert (Eq : (n # d == inject_Z n / inject_Z (Zpos d))%Q)
    by apply Qmake_Qdiv.
  assert (Pd : (0 < inject_Z (Zpos d))%Q) by reflexivity.
  assert (Pa : (ieee.pow2 a == inject_Z (2 ^ a))%Q) by now apply pow2_Z.
  assert (Pa' : (ieee.pow2 (a + 1) == inject_Z (2 ^ (a + 1)))%Q)
    by (apply pow2_Z; lia).
  assert (Pb : (ieee.pow2 b == inject_Z (2 ^ b))%Q) by now apply pow2_Z.
  assert (Pb' : (ieee.pow2 (b + 1) == inject_Z (2 ^ (b + 1)))%Q)
    by (apply pow2_Z; lia).
  assert (Pbpos : (0 < ieee.pow2 b)%Q) by apply pow2_pos.
  (* n / d < 2^(a - b + 1) *)
  assert (U : (n # d < ieee.pow2 (a - b + 1))%Q).
  { replace (a - b + 1) with ((a + 1) + - b) by lia.
    rewrite pow2_add. unfold ieee.pow2 at 2. rewrite Qpower_opp.
    fold (ieee.pow2 b). rewrite Eq.
    apply Qlt_shift_div_r; [exact Pd |].
    rewrite Pa'.
    assert (X : (inject_Z n * ieee.pow2 b
                 < inject_Z (2 ^ (a + 1)) * inject_Z (Zpos d))%Q).
    { rewrite Pb, <- !inject_Z_mult, <- Zlt_Qlt.
      rewrite Z.add_1_r. nia. }
    assert (Y : (inject_Z (2 ^ (a + 1)) * / ieee.pow2 b * inject_Z (Zpos d)
                 == inject_Z (2 ^ (a + 1)) * inject_Z (Zpos d)
                    / ieee.pow2 b)%Q) by (field; lra).
    rewrite Y. apply Qlt_shift_div_l; [exact Pbpos | exact X]. }
  (* 2^(a - b - 1) < n / d *)
  assert (L : (ieee.pow2 (a - b - 1) < n # d)%Q).
  { replace (a - b - 1) with (a + - (b + 1)) by lia.
    rewrite pow2_add. unfold ieee.pow2 at 2. rewrite Qpower_opp.
    fold (ieee.pow2 (b + 1)). rewrite Eq.
    assert (Pb1 : (0 < ieee.pow2 (b + 1))%Q) by apply pow2_pos.
    apply Qlt_shift_div_l; [exact Pd |].
    assert (Y : (ieee.pow2 a * / ieee.pow2 (b + 1) * inject_Z (Zpos d)
                 == ieee.pow2 a * inject_Z (Zpos d)
                    / ieee.pow2 (b + 1))%Q) by (field; lra).
    rewrite Y. apply Qlt_shift_div_r; [exact Pb1 |].
    rewrite Pa, Pb', <- !inject_Z_mult, <- Zlt_Qlt.
    rewrite Z.add_1_r in *. nia. }
  destruct (Qle_bool (ieee.pow2 (a - b)) (n # d)) eqn:C.
  - apply Qle_bool_iff in C. split; [exact C | exact U].
  - assert (C' : (n # d < ieee.pow2 (a - b))%Q).
    { apply Qnot_le_lt. intros H. apply Qle_bool_iff in H. congruence. }
    replace (a - b - 1 + 1) with (a - b) by lia.
    split; [apply Qlt_le_weak; exact L | exact C'].
Qed.

Lemma ilog2_unique (q : Q) (l : Z) :
  (ieee.pow2 l <= q < ieee.pow2 (l + 1))%Q -> ieee.ilog2 q = l.
Proof.
  intros [Hl Hu].
  assert (Hq : (0 < q)%Q)
    by (apply Qlt_le_trans with (ieee.pow2 l); [apply pow2_pos | exact Hl]).
  destruct (ilog2_spec q Hq) as [Sl Su].
  set (k := ieee.ilog2 q) in *.
  destruct (Z.lt_trichotomy k l) as [H | [H | H]]; [exfalso | exact H | exfalso].
  - pose proof (pow2_le (k + 1) l ltac:(lia)). lra.
  - pose proof (pow2_le (l + 1) k ltac:(lia)). lra.
Qed.

Lemma ilog2_comp (q q' : Q) :
  (0 < q)%Q -> (q == q')%Q -> ieee.ilog2 q = ieee.ilog2 q'.
Proof.
  intros Hq E. symmetry. apply ilog2_unique.
  rewrite <- E. now apply ilog2_spec.
Qed.

Lemma ilog2_mono (q q' : Q) :
  (0 < q)%Q -> (q <= q')%Q -> ieee.ilog2 q <= ieee.ilog2 q'.
Proof.
  intros Hq H.
  destruct (ilog2_spec q Hq) as [Sl Su].
  destruct (ilog2_spec q' ltac:(lra)) as [Sl' Su'].
  destruct (Z_le_gt_dec (ieee.ilog2 q) (ieee.ilog2 q')) as [? | G];
    [assumption | exfalso].
  pose proof (pow2_le (ieee.ilog2 q' + 1) (ieee.ilog2 q) ltac:(lia)). lra.
Qed.

Lemma round_to_comp (e : Z) (q q' : Q) :
  (q == q')%Q -> (ieee.round_to e q == ieee.round_to e q')%Q.
Proof.
  intros E. unfold ieee.round_to.
  rewrite (round_comp (q / ieee.pow2 e) (q' / ieee.pow2 e));
    [reflexivity | now rewrite E].
Qed.

Lemma round_to_mono (e : Z) (q q' : Q) :
  (q <= q')%Q -> (ieee.round_to e q <= ieee.round_to e q')%Q.
Proof.
  intros H. unfold ieee.round_to.
  pose proof (pow2_pos e) as P.
  apply Qmult_le_compat_r; [| lra].
  rewrite <- Zle_Qle. apply round_mono.
  apply Qmult_le_compat_r; [exact H |].
  apply Qlt_le_weak, Qinv_lt_0_compat, P.
Qed.

(** The multiples of [2^e] are left as they are. *)
Lemma round_to_fix (e m : Z) :
  (ieee.round_to e (inject_Z m * ieee.pow2 e) == inject_Z m * ieee.pow2 e)%Q.
Proof.
  unfold ieee.round_to. pose proof (pow2_pos e) as P.
  rewrite (round_comp _ (inject_Z m)); [now rewrite round_inject_Z |].
  field. lra.
Qed.

Lemma round_to_opp (e : Z) (q : Q) :
  (ieee.round_to e (- q) == - ieee.round_to e q)%Q.
Proof.
  unfold ieee.round_to. pose proof (pow2_pos e) as P.
  rewrite (round_comp (- q / ieee.pow2 e) (- (q / ieee.pow2 e)))
    by (field; lra).
  rewrite round_opp, inject_Z_opp. ring.
Qed.

Lemma round_to_zero (e : Z) (q : Q) :
  (q == 0)%Q -> (ieee.round_to e q == 0)%Q.
Proof.
  intros E. unfold ieee.round_to. pose proof (pow2_pos e) as P.
  rewrite (round_comp _ 0); [rewrite round_zero; ring |].
  rewrite E. field. lra.
Qed.

Lemma round_to_nonneg (e : Z) (q : Q) :
  (0 <= q)%Q -> (0 <= ieee.round_to e q)%Q.
Proof.
  intros H. rewrite <- (round_to_zero e 0) by reflexivity.
  now apply round_to_mono.
Qed.

Lemma pow2_multiple (l e : Z) :
  e <= l -> (ieee.pow2 l == inject_Z (2 ^ (l - e)) * ieee.pow2 e)%Q.
Proof.
  intros H. replace l with ((l - e) + e) at 1 by lia.
  rewrite pow2_add, (pow2_Z (l - e)) by lia. reflexivity.
Qed.

Lemma round_to_pow2 (l e : Z) :
  e <= l -> (ieee.round_to e (ieee.pow2 l) == ieee.pow2 l)%Q.
Proof.
  intros H.
  rewrite (round_to_comp e _ _ (pow2_multiple l e H)).
  rewrite round_to_fix. symmetry. now apply pow2_multiple.
Qed.

Lemma Qabs_opp_eq (q : Q) : Qabs (- q) = Qabs q.
Proof. destruct q as [n d]. unfold Qabs, Qopp. cbn. now rewrite Z.abs_opp. Qed.

Lemma Qabs_pos_eq (q : Q) : (0 <= q)%Q -> Qabs q = q.
Proof.
  destruct q as [n d]. unfold Qabs, Qle. cbn. intros H.
  f_equal. apply Z.abs_eq. lia.
Qed.

Section rnd.

Variables (prec emin : Z).
Hypothesis prec_pos : 1 <= prec.
Hypothesis emin_neg : emin <= 0.

Lemma rnd_zero (q : Q) : (q == 0)%Q -> (ieee.rnd prec emin q == 0)%Q.
Proof. apply round_to_zero. Qed.

Lemma rnd_opp (q : Q) :
  (ieee.rnd prec emin (- q) == - ieee.rnd prec emin q)%Q.
Proof. unfold ieee.rnd. rewrite Qabs_opp_eq. apply round_to_opp. Qed.

Lemma rnd_comp (q q' : Q) :
  (q == q')%Q -> (ieee.rnd prec emin q == ieee.rnd prec emin q')%Q.
Proof.
  intros E. destruct (Qeq_dec q 0) as [Z0 | N].
  - rewrite (rnd_zero q Z0), (rnd_zero q'); [reflexivity |].
    now rewrite <- E.
  - unfold ieee.rnd.
    assert (Ha : (0 < Qabs q)%Q).
    { clear -N. destruct q as [n d]. unfold Qabs, Qeq, Qlt in *.
      cbn in *. lia. }
    rewrite (ilog2_comp (Qabs q) (Qabs q') Ha) by now rewrite E.
    now apply round_to_comp.
Qed.

Lemma rnd_nonneg (q : Q) : (0 <= q)%Q -> (0 <= ieee.rnd prec emin q)%Q.
Proof. apply round_to_nonneg. Qed.

Lemma rnd_mono_pos (q q' : Q) :
  (0 < q)%Q -> (q <= q')%Q ->
  (ieee.rnd prec emin q <= ieee.rnd prec emin q')%Q.
Proof.
  intros Hq H. unfold ieee.rnd.
  rewrite (Qabs_pos_eq q), (Qabs_pos_eq q') by lra.
  pose proof (ilog2_mono q q' Hq H) as Hl.
  destruct (ilog2_spec q Hq) as [_ Su].
  destruct (ilog2_spec q' ltac:(lra)) as [Sl' _].
  set (l := ieee.ilog2 q) in *. set (l' := ieee.ilog2 q') in *.
  set (e := Z.max (l - (prec - 1)) emin).
  set (e' := Z.max (l' - (prec - 1)) emin).
  destruct (Z.eq_dec e e') as [E | N].
  - rewrite <- E. now apply round_to_mono.
  - assert (He : e < e') by (unfold e, e' in *; lia).
    assert (Hll : l + 1 <= l') by (unfold e, e' in *; lia).
    assert (He' : e' <= l') by (unfold e, e' in *; lia).
    pose proof (pow2_le (l + 1) l' Hll) as B.
    apply Qle_trans with (ieee.pow2 l').
    + rewrite <- (round_to_pow2 l' e) by lia.
      apply round_to_mono. lra.
    + rewrite <- (round_to_pow2 l' e') at 1 by lia.
      now apply round_to_mono.
Qed.

(** Rounding keeps the order. *)
Lemma rnd_mono (q q' : Q) :
  (q <= q')%Q -> (ieee.rnd prec emin q <= ieee.rnd prec emin q')%Q.
Proof.
  intros H.
  destruct (Qlt_le_dec 0 q) as [Hq | Hq]; [now apply rnd_mono_pos |].
  destruct (Qlt_le_dec q' 0) as [Hq' | Hq'].
  - assert (M : (ieee.rnd prec emin (- q') <= ieee.rnd prec emin (- q))%Q)
      by (apply rnd_mono_pos; lra).
    rewrite !rnd_opp in M. lra.
  - assert (A : (0 <= ieee.rnd prec emin (- q))%Q)
      by (apply rnd_nonneg; lra).
    rewrite rnd_opp in A.
    pose proof (rnd_nonneg q' Hq'). lra.
Qed.

(** Integers of at most [prec] bits are values of the format. *)
Lemma rnd_fix_Z (k : Z) :
  Z.abs k < 2 ^ prec -> (ieee.rnd prec emin (inject_Z k) == inject_Z k)%Q.
Proof.
  intros Hk. destruct (Z.eq_dec k 0) as [-> | N].
  - now apply rnd_zero.
  - unfold ieee.rnd.
    change (Qabs (inject_Z k)) with (inject_Z (Z.abs k)).
    assert (H1 : (1 <= inject_Z (Z.abs k))%Q)
      by (change 1%Q with (inject_Z 1); rewrite <- Zle_Qle; lia).
    destruct (ilog2_spec (inject_Z (Z.abs k)) ltac:(lra)) as [Sl Su].
    set (l := ieee.ilog2 (inject_Z (Z.abs k))) in *.
    assert (Hp : (inject_Z (Z.abs k) < ieee.pow2 prec)%Q)
      by (rewrite pow2_Z by lia; now rewrite <- Zlt_Qlt).
    assert (Hl : l < prec).
    { destruct (Z_lt_le_dec l prec) as [? | G]; [assumption | exfalso].
      pose proof (pow2_le prec l G). lra. }
    set (e := Z.max (l - (prec - 1)) emin).
    assert (He : e <= 0) by (unfold e; lia).
    assert (Ek : (inject_Z k == inject_Z (k * 2 ^ (- e)) * ieee.pow2 e)%Q).
    { rewrite inject_Z_mult, <- (pow2_Z (- e)) by lia.
      rewrite <- Qmult_assoc, <- pow2_add.
      replace (- e + e) with 0 by lia.
      change (ieee.pow2 0) with 1%Q. ring. }
    rewrite (round_to_comp e _ _ Ek), round_to_fix. now symmetry.
Qed.

End rnd.














(* ------------------------------------------------------------------ *)
(** ** splice_audio                                                     *)
(* ------------------------------------------------------------------ *)


Lemma promote_shape (a : ndarray) :
  promote a = Arr2 (channel_count a) (frames a).
Proof. now destruct a. Qed.



(** With other channel counts NumPy refuses to concatenate. *)
Lemma splice_audio_mismatch (B I : ndarray) (R : Z) (s e : Q) :
  channel_count B <> channel_count I ->
  splice_audio B R s e I = Raise ValueError.
Proof.
  intros Hc. unfold splice_audio.
  rewrite !promote_shape. cbn [len np.slice_to np.slice_from].
  cbn [concatenate concatenate2 bind].
  destruct (Pos.eqb_spec (channel_count I) (channel_count B)) as [E | E].
  - now symmetry in E.
  - reflexivity.
Qed.



(** *** The splice with binary64 frame indices *)







(** C1 (as stated, for every insert buffer and every pair of times, with
    [B] returned unchanged) fails.  A 1-D base comes back as a column of
    shape [(N, 1)]; an empty 1-D insert into a two-channel base makes
    [np.concatenate] raise; and a time of [2^1023] s at rate 2 gives an
    infinite product, on which [round] raises [OverflowError]. *)
Lemma splice_audio_empty_insert_is_not_identity :
  audio_editor_binary64.splice_audio (Arr1 [1; 2]%Q) 1 0 0 (Arr1 [])
  = Ok (Arr2 1 [[1]; [2]]%Q)
  /\ Arr2 1 [[1]; [2]]%Q <> Arr1 [1; 2]%Q
  /\ audio_editor_binary64.splice_audio
       (Arr2 2 [[1; 2]]%Q) 1 0 0 (Arr1 [])
     = Raise ValueError
  /\ audio_editor_binary64.splice_audio
       (Arr1 [1; 2]%Q) 2 (ieee.pow2 1023) (ieee.pow2 1023) (Arr1 [])
     = Raise OverflowError.
Proof.
  split; [vm_compute; reflexivity |].
  split; [discriminate |].
  split; vm_compute; reflexivity.
Qed.








(* ------------------------------------------------------------------ *)
(** ** PCM16 interchange                                                *)
(* ------------------------------------------------------------------ *)

Lemma clip_unit_bounds (x : Q) : (-1 <= py.clip x (-1) 1 <= 1)%Q.
Proof.
  unfold py.clip.
  destruct (Q.min_spec_le (Qmax x (-1)) 1) as [[? E] | [? E]];
    destruct (Q.max_spec_le x (-1)) as [[? F] | [? F]];
    rewrite E; try rewrite F; lra.
Qed.



Lemma wrap_int16_id (z : Z) : -32768 <= z <= 32767 -> wrap_int16 z = z.
Proof.
  intros H. unfold wrap_int16.
  rewrite Z.mod_small by lia. lia.
Qed.

(** The float32 format. *)
Lemma float32_mono (q q' : Q) :
  (q <= q')%Q -> (ieee.float32 q <= ieee.float32 q')%Q.
Proof. apply rnd_mono. lia. Qed.

Lemma float32_fix_Z (k : Z) :
  Z.abs k < 2 ^ 24 -> (ieee.float32 (inject_Z k) == inject_Z k)%Q.
Proof. apply rnd_fix_Z; lia. Qed.

Lemma float32_opp (q : Q) : (ieee.float32 (- q) == - ieee.float32 q)%Q.
Proof. apply rnd_opp. Qed.

Lemma float32_comp (q q' : Q) :
  (q == q')%Q -> (ieee.float32 q == ieee.float32 q')%Q.
Proof. apply rnd_comp. Qed.

Lemma scaled_range (x : Q) :
  (- inject_Z 32767 <= ieee.float32 (py.clip x (-1) 1 * 32767)
   <= inject_Z 32767)%Q.
Proof.
  pose proof (clip_unit_bounds x) as [Hl Hu].
  pose proof (float32_fix_Z 32767 ltac:(cbn; lia)) as F.
  pose proof (float32_fix_Z (-32767) ltac:(cbn; lia)) as F'.
  change (- inject_Z 32767)%Q with (inject_Z (-32767)).
  rewrite <- F, <- F' at 1. split; apply float32_mono.
  - change (inject_Z (-32767)) with (-(32767))%Q. lra.
  - change (inject_Z 32767) with 32767%Q. lra.
Qed.

(** The int16 cast never wraps after the clip: encoding is the float32
    product truncated. *)
Lemma pcm16_encode_trunc (x : Q) :
  pcm16_encode x = py.trunc (ieee.float32 (py.clip x (-1) 1 * 32767)%Q).
Proof.
  unfold pcm16_encode, astype_int16.
  pose proof (trunc_range _ 32767 (scaled_range x)).
  apply wrap_int16_id. lia.
Qed.

Lemma pcm16_encode_range (x : Q) : -32767 <= pcm16_encode x <= 32767.
Proof.
  rewrite pcm16_encode_trunc. apply (trunc_range _ 32767 (scaled_range x)).
Qed.

Lemma int16_bytes_roundtrip (k : Z) :
  -32768 <= k <= 32767 ->
  wrap_int16 ((k mod 65536) mod 256 + 256 * ((k mod 65536) / 256)) = k.
Proof.
  intros H.
  rewrite (Z.add_comm _ (256 * _)), <- (Z.div_mod (k mod 65536) 256) by lia.
  unfold wrap_int16.
  rewrite Zplus_mod_idemp_l.
  rewrite Z.mod_small by lia. lia.
Qed.

Lemma frombuffer_tobytes (l : list Z) :
  Forall (fun k => -32768 <= k <= 32767) l ->
  frombuffer (tobytes l) = Ok l.
Proof.
  induction 1 as [| k l Hk _ IH]; [reflexivity |].
  cbn [tobytes flat_map int16_bytes app frombuffer].
  fold (tobytes l). rewrite IH. cbn [bind].
  now rewrite int16_bytes_roundtrip.
Qed.









(** The product is the float32 one: at [x = 492015/2^19] the exact
    product is just below 30750 and would be cut to 30749, its nearest
    float32 value is 30750, and 30750 is what is written. *)
Lemma pcm16_encode_float32_product :
  pcm16_encode (492015 # 524288) = 30750
  /\ py.trunc ((492015 # 524288) * 32767)%Q = 30749.
Proof. split; vm_compute; reflexivity. Qed.



(* ------------------------------------------------------------------ *)
(** ** Selection reconciler: characters to time                         *)
(* ------------------------------------------------------------------ *)

Section scan.

Variables (start end_ : Z).
Hypothesis start_lt_end : start < end_.

Let starts (seg : WordSegment) : bool := start <? seg_end_char seg.
Let ends (seg : WordSegment) : bool := end_ <=? seg_end_char seg.

(** The loop finds the same two segments as two independent searches:
    the [break] cannot hide the start segment, which never comes after
    the end segment when [start < end]. *)
Lemma scan_segments_find (segs : list WordSegment) (start_t : option Q) :
  scan_segments segs start end_ start_t None
  = (match start_t with
     | Some t => Some t
     | None => option_map start_sec (find starts segs)
     end,
     option_map (fun seg => (start_sec seg + duration_sec seg)%Q)
                (find ends segs)).
Proof.
  revert start_t.
  induction segs as [| seg rest IH]; intros start_t.
  - now destruct start_t.
  - cbn [scan_segments find]. unfold starts, ends, seg_end_char in *.
    destruct (Z.leb_spec end_ (char_start seg + char_length seg)) as [He | He].
    + destruct start_t as [t |]; [reflexivity |].
      destruct (Z.ltb_spec start (char_start seg + char_length seg));
        [reflexivity | lia].
    + rewrite IH.
      destruct start_t as [t |]; [reflexivity |].
      now destruct (Z.ltb_spec start (char_start seg + char_length seg)).
Qed.

End scan.

Lemma find_none_of_forall (end_ : Z) (segs : list WordSegment) :
  Forall (fun seg => seg_end_char seg < end_) segs ->
  find (fun seg => end_ <=? seg_end_char seg) segs = None.
Proof.
  induction 1 as [| seg rest H _ IH]; [reflexivity |].
  cbn [find]. destruct (Z.leb_spec end_ (seg_end_char seg)); [lia | exact IH].
Qed.

(** C3.  For a selection [[start, end)] with [start < end]: [start_t] is
    the [start_sec] of the first segment with
    [char_start + char_length > start] (0.0 if none) and [end_t] is
    [start_sec + duration_sec] of the first segment with
    [char_start + char_length >= end] (the buffer's total duration if
    none); a selection with [start == end] maps to [None]. *)
Theorem selection_to_time_mapping
    (tr : TranscriptionResult) (sess : SessionAudio) (cursor : TextCursor) :
  let start := Z.min (selectionStart cursor) (selectionEnd cursor) in
  let end_ := Z.max (selectionStart cursor) (selectionEnd cursor) in
  (start < end_ -> sample_rate sess <> 0 ->
   _selection_to_time (Some tr) (Some sess) cursor
   = Ok (Some (spec_start_t (segments tr) start,
               Some (spec_end_t (segments tr) end_
                       (inject_Z (len (audio sess))
                        / inject_Z (sample_rate sess))%Q))))
  /\ (start = end_ ->
      forall session, _selection_to_time (Some tr) session cursor = Ok None).
Proof.
  intros start end_. split.
  - intros Hlt Hsr. unfold _selection_to_time. fold start end_.
    destruct (Z.eqb_spec start end_) as [E | _]; [lia |].
    rewrite (scan_segments_find start end_ Hlt).
    unfold spec_start_t, spec_end_t.
    destruct (find (fun seg => start <? seg_end_char seg) (segments tr));
      destruct (find (fun seg => end_ <=? seg_end_char seg) (segments tr));
      cbn [option_map]; try reflexivity;
      unfold py.truediv;
      destruct (Z.eqb_spec (sample_rate sess) 0); (lia || reflexivity).
  - intros E session. unfold _selection_to_time. fold start end_.
    rewrite E, Z.eqb_refl. reflexivity.
Qed.

Lemma selection_to_time_mapping_witness :
  let hello := {| text := "hello"; start_sec := 0; duration_sec := 1 # 2;
                  char_start := 0; char_length := 5 |} in
  let world := {| text := "world"; start_sec := 6 # 10;
                  duration_sec := 1 # 2;
                  char_start := 6; char_length := 5 |} in
  let tr := {| full_text := "hello world"; segments := [hello; world] |} in
  let sess := {| audio := Arr1 (repeat 0%Q 20); sample_rate := 10;
                 channels := 1 |} in
  let cursor := {| selectionStart := 0; selectionEnd := 11 |} in
  0 < 11 /\ 10 <> 0
  /\ _selection_to_time (Some tr) (Some sess) cursor
     = Ok (Some (0%Q, Some ((6 # 10) + (1 # 2))%Q)).
Proof.
  intros hello world tr sess cursor.
  split; [reflexivity |]. split; [discriminate |].
  exact (proj1 (selection_to_time_mapping tr sess cursor)
           eq_refl ltac:(discriminate)).
Defined.

(** C10.  When the selection ends beyond every segment's character range
    and there is no session, [_selection_to_time] returns
    [(start_t, None)]: the end of the range is not a number. *)
Theorem selection_to_time_end_none
    (tr : TranscriptionResult) (cursor : TextCursor) :
  let start := Z.min (selectionStart cursor) (selectionEnd cursor) in
  let end_ := Z.max (selectionStart cursor) (selectionEnd cursor) in
  start < end_ ->
  Forall (fun seg => seg_end_char seg < end_) (segments tr) ->
  _selection_to_time (Some tr) None cursor
  = Ok (Some (spec_start_t (segments tr) start, None)).
Proof.
  intros start end_ Hlt Hall. unfold _selection_to_time. fold start end_.
  destruct (Z.eqb_spec start end_) as [E | _]; [lia |].
  rewrite (scan_segments_find start end_ Hlt).
  rewrite (find_none_of_forall end_ _ Hall).
  unfold spec_start_t.
  now destruct (find (fun seg => start <? seg_end_char seg) (segments tr)).
Qed.

Lemma selection_to_time_end_none_witness :
  let hello := {| text := "hello"; start_sec := 1 # 4; duration_sec := 1 # 2;
                  char_start := 0; char_length := 5 |} in
  let tr := {| full_text := "hello there"; segments := [hello] |} in
  let cursor := {| selectionStart := 2; selectionEnd := 9 |} in
  2 < 9
  /\ Forall (fun seg => seg_end_char seg < 9) [hello]
  /\ _selection_to_time (Some tr) None cursor = Ok (Some ((1 # 4)%Q, None)).
Proof.
  intros hello tr cursor.
  assert (H : Forall (fun seg => seg_end_char seg < 9) [hello])
    by (repeat constructor).
  split; [reflexivity |]. split; [exact H |].
  exact (selection_to_time_end_none tr cursor eq_refl H).
Defined.

(* ------------------------------------------------------------------ *)
(** ** Waveform viewport                                                *)
(* ------------------------------------------------------------------ *)

(** Case analysis of every [Qmax]/[Qmin] in sight, then linear
    arithmetic. *)
Ltac name_max a b :=
  let m := fresh "m" in
  let H := fresh "Hm" in
  pose proof (Q.max_spec_le a b) as H;
  set (m := Qmax a b) in *; clearbody m;
  destruct H as [[? ?] | [? ?]].

Ltac name_min a b :=
  let m := fresh "m" in
  let H := fresh "Hm" in
  pose proof (Q.min_spec_le a b) as H;
  set (m := Qmin a b) in *; clearbody m;
  destruct H as [[? ?] | [? ?]].

Ltac split_minmax :=
  repeat match goal with
    | |- context [Qmax ?a ?b] => name_max a b
    | |- context [Qmin ?a ?b] => name_min a b
    | _ : context [Qmax ?a ?b] |- _ => name_max a b
    | _ : context [Qmin ?a ?b] |- _ => name_min a b
    end.

Lemma Qle_bool_false (x y : Q) : Qle_bool x y = false -> (y < x)%Q.
Proof.
  intros H. apply Qnot_le_lt. intro C.
  apply Qle_bool_iff in C. congruence.
Qed.

Lemma Qle_bool_false_of_lt (x y : Q) : (y < x)%Q -> Qle_bool x y = false.
Proof.
  intros H. destruct (Qle_bool x y) eqn:E; [| reflexivity].
  apply Qle_bool_iff in E. lra.
Qed.

Lemma duration_with_view (w : WaveformView) (vs : Q) (vd : option Q) :
  _duration (with_view w vs vd) = _duration w.
Proof. reflexivity. Qed.

Lemma init_view_cases (w : WaveformView) :
  init_view w = w
  \/ (_view_dur w = None
      /\ init_view w
         = with_view w (fst (_visible_range w)) (Some (_duration w))).
Proof.
  unfold init_view. destruct (_visible_range w) as [vs ve].
  destruct (_view_dur w); [now left | now right].
Qed.

Lemma duration_init_view (w : WaveformView) :
  _duration (init_view w) = _duration w.
Proof.
  destruct (init_view_cases w) as [-> | [_ ->]]; reflexivity.
Qed.

Lemma view_dur_init_view (w : WaveformView) :
  _view_dur (init_view w) = Some (view_dur_of (init_view w)).
Proof.
  unfold view_dur_of, init_view.
  destruct (_visible_range w) as [vs ve].
  destruct (_view_dur w) eqn:D.
  - now rewrite D.
  - reflexivity.
Qed.

(** [_clamp_view] on a buffer with audio, after a handler set the window. *)
Lemma clamp_view_set (w : WaveformView) (vs nd : Q) :
  (0 < _duration w)%Q ->
  let dur := _duration w in
  let vd' := Qmax (Qmin nd dur) (Qmin (1 # 10) dur) in
  _clamp_view (with_view w vs (Some nd))
  = with_view w (Qmax 0 (Qmin vs (dur - vd'))) (Some vd').
Proof.
  intros Hd dur vd'. unfold _clamp_view.
  rewrite duration_with_view, (Qle_bool_false_of_lt _ _ Hd).
  reflexivity.
Qed.

Lemma clamp_view_ok (w : WaveformView) : view_ok (_clamp_view w).
Proof.
  unfold _clamp_view, view_ok.
  destruct (Qle_bool (_duration w) 0) eqn:E.
  - cbn. split; [lra | exact I].
  - apply Qle_bool_false in E.
    destruct (_view_dur w) as [vd |]; cbn; [| split; [lra | exact I]].
    change (_duration (with_view w _ _)) with (_duration w).
    generalize dependent (_duration w). intros dur Hdur.
    generalize (_view_start w). intros vs.
    split; split_minmax; lra.
Qed.

Lemma handle_ok (e : view_event) (w : WaveformView) :
  view_ok w -> view_ok (handle e w).
Proof.
  intros Hw. destruct e as [ev | [p |] |]; cbn [handle].
  - unfold wheelEvent.
    destruct (Qle_bool (_duration w) 0); [exact Hw |].
    destruct (ctrl_or_meta ev); apply clamp_view_ok.
  - unfold _handle_gesture.
    destruct (Qle_bool (_duration w) 0); [exact Hw |].
    apply clamp_view_ok.
  - exact Hw.
  - unfold mouseDoubleClickEvent, view_ok. cbn. split; [lra | exact I].
Qed.

Lemma run_ok (events : list view_event) (w : WaveformView) :
  view_ok w -> view_ok (run events w).
Proof.
  revert w. induction events as [| e rest IH]; intros w Hw; [exact Hw |].
  cbn [run fold_left]. apply IH, handle_ok, Hw.
Qed.

Lemma set_audio_ok (a : ndarray) (sr : Z) (w : WaveformView) :
  view_ok (set_audio a sr w).
Proof. unfold view_ok. cbn. split; [lra | exact I]. Qed.

Lemma init_ok (width : Z) : view_ok (init width).
Proof. unfold view_ok. cbn. split; [lra | exact I]. Qed.

(** *** The viewport in binary64 *)










(** C6 (as stated, with [view_start + view_duration <= total]) fails by
    a rounding error.  On a buffer of 9 samples at rate 10 (0.9 s) shown
    in full, a pinch of scale 3 centred on the right edge leaves a window
    of 0.3 s starting at [0.9 - 0.3], which in binary64 is
    0.6000000000000001: start plus window exceeds the duration, as an
    exact sum and as the float sum. *)
Lemma viewport_overshoots_by_rounding :
  let pinch := {| scaleFactor := 3; centerPoint_x := Some 100%Q |} in
  let w := waveform_view_binary64.run [Gesture (Some pinch)]
             (set_audio (Arr1 (repeat 0%Q 9)) 10 (init 100)) in
  exists d,
    _view_dur w = Some d
    /\ (waveform_view_binary64._duration w == ieee.float64 (9 # 10))%Q
    /\ (d == ieee.float64 (3 # 10))%Q
    /\ (waveform_view_binary64._duration w < _view_start w + d)%Q
    /\ (waveform_view_binary64._duration w
        < ieee.add64 (_view_start w) d)%Q.
Proof.
  cbv zeta. eexists. split; [vm_compute; reflexivity |].
  repeat split; vm_compute; reflexivity.
Qed.


(** C5 (as stated, with the floor [min(0.05, total)]) fails.  On a 10 s
    buffer shown in full, a pinch with scale 200 asks for 0.05 s; the
    specification's rule keeps 0.05 s, the widget ends at 0.1 s.  From that
    0.1 s window a Ctrl-wheel zoom-in (factor 0.95) should give 0.095 s by
    the rule, and the widget stays at 0.1 s. *)
Lemma zoom_floor_is_not_50ms :
  let w0 := set_audio (Arr1 (repeat 0%Q 10)) 1 (init 100) in
  let pinch := {| scaleFactor := 200; centerPoint_x := None |} in
  let w1 := _handle_gesture (Some pinch) w0 in
  let ev := {| pixelDelta_x := 0; pixelDelta_y := 0; angleDelta_x := 0;
               angleDelta_y := 120; ctrl_or_meta := true;
               position_x := 0 |} in
  (_duration w0 == 10)%Q
  /\ (pinch_zoom_factor pinch == 1 # 200)%Q
  /\ (zoom_spec_duration 10 10 (1 # 200) == 5 # 100)%Q
  /\ (exists d, _view_dur w1 = Some d /\ (d == 1 # 10)%Q
                /\ ~ (d == zoom_spec_duration 10 10 (1 # 200))%Q)
  /\ (wheel_zoom_factor ev == 95 # 100)%Q
  /\ (zoom_spec_duration 10 (1 # 10) (95 # 100) == 95 # 1000)%Q
  /\ (exists d, _view_dur (wheelEvent ev w1) = Some d /\ (d == 1 # 10)%Q
                /\ ~ (d == zoom_spec_duration 10 (1 # 10) (95 # 100))%Q).
Proof.
  cbv zeta.
  split; [vm_compute; reflexivity |].
  split; [vm_compute; reflexivity |].
  split; [vm_compute; reflexivity |].
  split.
  { eexists. split; [vm_compute; reflexivity |].
    split; [vm_compute; reflexivity | vm_compute; discriminate]. }
  split; [vm_compute; reflexivity |].
  split; [vm_compute; reflexivity |].
  eexists. split; [vm_compute; reflexivity |].
  split; [vm_compute; reflexivity | vm_compute; discriminate].
Qed.

(** The window left by a zoom handler that asked for [(vs, nd)], with
    [nd] already clamped from below by [Qmin floor dur]. *)
Lemma zoom_window (dur od f c os floor : Q) :
  (0 < dur)%Q -> (1 # 1000000000 <= od)%Q -> (floor <= 1 # 10)%Q ->
  let nd := py.clip (od * f) (Qmin floor dur) dur in
  let vd' := Qmax (Qmin nd dur) (Qmin (1 # 10) dur) in
  let new_duration := py.clip (od * f) (Qmin (1 # 10) dur) dur in
  (vd' == new_duration)%Q
  /\ (Qmax 0 (Qmin (c - (c - os) / Qmax (1 # 1000000000) od * nd)
                   (dur - vd'))
      == py.clip (c - (c - os) / od * nd) 0 (dur - new_duration))%Q
  /\ ((Qmin (1 # 10) dur <= od * f)%Q -> (nd == new_duration)%Q).
Proof.
  intros Hd Hod Hfl nd vd' new_duration.
  assert (E1 : (vd' == new_duration)%Q).
  { unfold vd', new_duration, nd, py.clip.
    generalize (od * f)%Q. intros p. split_minmax; lra. }
  split; [exact E1 |]. split.
  - rewrite E1. rewrite (Q.max_r _ _ Hod).
    assert (Hnd : (new_duration <= dur)%Q).
    { unfold new_duration, py.clip. generalize (od * f)%Q. intros p.
      split_minmax; lra. }
    unfold py.clip.
    generalize dependent new_duration. intros new_duration _ Hnd.
    generalize (c - (c - os) / od * nd)%Q. intros x.
    split_minmax; lra.
  - unfold nd, new_duration, py.clip.
    generalize (od * f)%Q. intros p Hp. split_minmax; lra.
Qed.

#[global] Instance clip_proper :
  Proper (Qeq ==> Qeq ==> Qeq ==> Qeq) py.clip.
Proof.
  intros x x' Hx lo lo' Hlo hi hi' Hhi. unfold py.clip.
  now rewrite Hx, Hlo, Hhi.
Qed.

(** C5, amended.  For every zoom with centre time [c] and factor [f] on a
    buffer of duration [total > 0] (window at least 1 ns long): the new view
    duration is [old_duration * f] clamped to [[min(0.1, total), total]];
    the new view start is [c - rel * new_duration], with
    [rel = (c - old_start) / old_duration], clamped into
    [[0, total - new_duration]] -- for every pinch, and for a Ctrl-wheel
    zoom whenever [old_duration * f] is not below [min(0.1, total)]. *)
Theorem zoom_viewport (w : WaveformView) :
  let total := _duration w in
  let w1 := init_view w in
  let old_start := _view_start w1 in
  let old_duration := view_dur_of w1 in
  let new_duration := fun f : Q =>
    py.clip (old_duration * f) (Qmin (1 # 10) total) total in
  let new_start := fun c f : Q =>
    py.clip (c - (c - old_start) / old_duration * new_duration f)
            0 (total - new_duration f) in
  (0 < total)%Q ->
  (1 # 1000000000 <= old_duration)%Q ->
  (forall p : PinchGesture,
      let c := _time_at_x (pinch_center p w1) w1 in
      let f := pinch_zoom_factor p in
      let w' := _handle_gesture (Some p) w in
      exists vd,
        _view_dur w' = Some vd
        /\ (vd == new_duration f)%Q
        /\ (_view_start w' == new_start c f)%Q)
  /\ (forall ev : WheelEvent,
         ctrl_or_meta ev = true ->
         let c := _time_at_x (position_x ev) w1 in
         let f := wheel_zoom_factor ev in
         let w' := wheelEvent ev w in
         exists vd,
           _view_dur w' = Some vd
           /\ (vd == new_duration f)%Q
           /\ ((Qmin (1 # 10) total <= old_duration * f)%Q ->
               (_view_start w' == new_start c f)%Q)).
Proof.
  intros total w1 old_start old_duration new_duration new_start Hd Hod.
  assert (Hd1 : (0 < _duration w1)%Q)
    by (unfold w1; rewrite duration_init_view; exact Hd).
  assert (Ed : _duration w1 = total) by apply duration_init_view.
  split.
  - intros p c f w'. unfold w', _handle_gesture.
    change (_duration w) with total.
    rewrite (Qle_bool_false_of_lt _ _ Hd).
    change (init_view w) with w1.
    rewrite (clamp_view_set w1 _ _ Hd1), Ed.
    cbn [_view_dur _view_start with_view].
    destruct (zoom_window total old_duration f c old_start (1 # 10)
                Hd Hod ltac:(lra)) as (E1 & E2 & _).
    eexists. split; [reflexivity |]. split; [exact E1 | exact E2].
  - intros ev Hctrl c f w'. unfold w', wheelEvent.
    change (_duration w) with total.
    rewrite (Qle_bool_false_of_lt _ _ Hd), Hctrl.
    change (init_view w) with w1.
    rewrite (clamp_view_set w1 _ _ Hd1), Ed.
    cbn [_view_dur _view_start with_view].
    destruct (zoom_window total old_duration f c old_start (5 # 100)
                Hd Hod ltac:(lra)) as (E1 & E2 & E3).
    eexists. split; [reflexivity |]. split; [exact E1 |].
    intros Hf. specialize (E3 Hf).
    etransitivity; [exact E2 |].
    unfold new_start, new_duration. now rewrite E3.
Qed.

Lemma zoom_viewport_witness :
  let w := with_view (set_audio (Arr1 (repeat 0%Q 20)) 1 (init 100))
                     0 (Some 10%Q) in
  let p := {| scaleFactor := 2; centerPoint_x := Some 50%Q |} in
  let ev := {| pixelDelta_x := 0; pixelDelta_y := 0; angleDelta_x := 0;
               angleDelta_y := 120; ctrl_or_meta := true;
               position_x := 50 |} in
  (0 < _duration w)%Q
  /\ (1 # 1000000000 <= view_dur_of (init_view w))%Q
  /\ (Qmin (1 # 10) (_duration w)
      <= view_dur_of (init_view w) * wheel_zoom_factor ev)%Q
  /\ (exists vd,
         _view_dur (_handle_gesture (Some p) w) = Some vd /\ (vd == 5)%Q)
  /\ (_view_start (_handle_gesture (Some p) w) == 5 # 2)%Q
  /\ (exists vd,
         _view_dur (wheelEvent ev w) = Some vd /\ (vd == 95 # 10)%Q)
  /\ (_view_start (wheelEvent ev w) == 1 # 4)%Q.
Proof.
  intros w p ev.
  assert (H1 : (0 < _duration w)%Q) by (vm_compute; reflexivity).
  assert (H2 : (1 # 1000000000 <= view_dur_of (init_view w))%Q)
    by (vm_compute; discriminate).
  assert (H3 : (Qmin (1 # 10) (_duration w)
                <= view_dur_of (init_view w) * wheel_zoom_factor ev)%Q)
    by (vm_compute; discriminate).
  split; [exact H1 |]. split; [exact H2 |]. split; [exact H3 |].
  destruct (proj1 (zoom_viewport w H1 H2) p) as (vd & E & Hvd & Hvs).
  destruct (proj2 (zoom_viewport w H1 H2) ev eq_refl)
    as (vd' & E' & Hvd' & Hvs').
  split; [exists vd; split; [exact E |] |].
  { rewrite Hvd. vm_compute. reflexivity. }
  split; [rewrite Hvs; vm_compute; reflexivity |].
  split; [exists vd'; split; [exact E' |] |].
  { rewrite Hvd'. vm_compute. reflexivity. }
  rewrite (Hvs' H3). vm_compute. reflexivity.
Defined.

(* ------------------------------------------------------------------ *)
(** ** Session controller                                               *)
(* ------------------------------------------------------------------ *)

Section controller_facts.

Variable apple : option (wav -> result TranscriptionResult).

Lemma on_transcribe_session (st : MainWindow) :
  session (on_transcribe apple st) = session st.
Proof.
  unfold on_transcribe.
  destruct apple as [f |]; [| reflexivity].
  destruct (session st) as [s |] eqn:E; [| now rewrite E].
  destruct (bind _ f) as [res | e]; [| exact E].
  destruct (is_blank (full_text res)); exact E.
Qed.

Lemma on_transcribe_waveform (st : MainWindow) :
  waveform (on_transcribe apple st) = waveform st.
Proof.
  unfold on_transcribe.
  destruct apple as [f |]; [| reflexivity].
  destruct (session st) as [s |]; [| reflexivity].
  destruct (bind _ f) as [res | e]; [| reflexivity].
  destruct (is_blank (full_text res)); reflexivity.
Qed.

Lemma on_transcribe_session_audio (st : MainWindow) :
  session_audio (on_transcribe apple st) = session_audio st.
Proof. unfold session_audio. now rewrite on_transcribe_session. Qed.

Lemma on_transcribe_viewport (st : MainWindow) :
  viewport (on_transcribe apple st) = viewport st.
Proof. unfold viewport. now rewrite on_transcribe_waveform. Qed.

(** Whenever [_delete_selection] changes the buffer, the viewport is
    reset. *)
Lemma delete_selection_viewport (c : TextCursor) (st st' : MainWindow) :
  _delete_selection apple c st = Ok st' ->
  session_audio st' <> session_audio st ->
  viewport st' = (0%Q, None).
Proof.
  unfold _delete_selection. intros H Hne.
  destruct (session st) as [sess |] eqn:Es;
    [| injection H as <-; now elim Hne].
  destruct (match selection_time st with
            | Some r => Ok (Some r)
            | None => _ end) as [[[s [e |]] |] | x];
    cbn [bind] in H; try discriminate H;
    try (injection H as <-; now elim Hne).
  destruct (Qle_bool e s); [injection H as <-; now elim Hne |].
  destruct (splice_audio _ _ _ _ _) as [new_audio | x];
    [| injection H as <-; now elim Hne].
  injection H as <-.
  now rewrite on_transcribe_viewport.
Qed.

Lemma truediv_ok (a b : Z) :
  b <> 0 -> py.truediv a b = Ok (inject_Z a / inject_Z b)%Q.
Proof.
  intros H. unfold py.truediv.
  destruct (Z.eqb_spec b 0); [contradiction | reflexivity].
Qed.

(** Whenever [on_stop] changes the buffer, the viewport is reset, the
    recorder's rate not being zero. *)
Lemma on_stop_viewport (captured : ndarray * Z) (st : MainWindow) :
  snd captured <> 0 ->
  session_audio (on_stop apple captured st) <> session_audio st ->
  viewport (on_stop apple captured st) = (0%Q, None).
Proof.
  destruct captured as [clip sr]. cbn [snd]. intros Hsr. unfold on_stop.
  destruct (_rerecord_active st).
  - unfold on_stop_rerecord.
    destruct (recorder_is_recording st); [| intros Hne; now elim Hne].
    cbn [session set_recording _rerecord_range].
    destruct (session st) as [sess |] eqn:Es;
      [| intros Hne; elim Hne; unfold session_audio; cbn; now rewrite Es].
    destruct (_rerecord_range st) as [[s [e |]] |];
      try (intros Hne; elim Hne; unfold session_audio; cbn;
           now rewrite Es).
    destruct (splice_audio _ _ _ _ _) as [new_audio | x];
      [| intros Hne; elim Hne; unfold session_audio; cbn; now rewrite Es].
    intros _. now rewrite on_transcribe_viewport.
  - destruct (on_stop_finalize clip sr st) as [st1 appended | st1] eqn:F.
    + destruct (session st1) as [sess |] eqn:E1.
      * intros _.
        destruct (py.truediv _ _) as [d | x]; [| reflexivity].
        destruct appended; [now rewrite on_transcribe_viewport |].
        reflexivity.
      * intros Hne. elim Hne.
        unfold session_audio. rewrite E1.
        unfold on_stop_finalize in F.
        rewrite !(truediv_ok (len clip) sr Hsr) in F.
        destruct (recorder_is_recording st).
        -- cbn [session set_recording] in F.
           destruct (session st) as [sess |] eqn:Es.
           ++ destruct (len (audio sess) =? 0);
                [injection F as <- _; discriminate E1 |].
              destruct (py.truediv _ _) as [d | x]; [| discriminate F].
              destruct (Qle_bool _ _).
              ** destruct (concatenate _) as [j | x];
                   [injection F as <- _; discriminate E1 | discriminate F].
              ** injection F as <- _; discriminate E1.
           ++ injection F as <- _; discriminate E1.
        -- injection F as <- _. now rewrite E1.
    + intros Hne. elim Hne.
      unfold on_stop_finalize in F.
      rewrite !(truediv_ok (len clip) sr Hsr) in F.
      destruct (recorder_is_recording st); [| discriminate F].
      cbn [session set_recording] in F.
      destruct (session st) as [sess |] eqn:Es; [| discriminate F].
      destruct (len (audio sess) =? 0); [discriminate F |].
      destruct (py.truediv _ _) as [d | x].
      * destruct (Qle_bool _ _); [| discriminate F].
        destruct (concatenate _) as [j | x]; [discriminate F |].
        injection F as <-. unfold session_audio. cbn. now rewrite Es.
      * injection F as <-. unfold session_audio. cbn. now rewrite Es.
Qed.

(** The commands that are not Record, Stop, Delete, Import or Clear leave
    the session as it is. *)
Lemma step_keeps_session (c : command) (st st' : MainWindow) :
  match c with
  | CmdRecord _ _ _ | CmdStop _ | CmdDelete _ | CmdImport _ | CmdClear _ _ =>
      False
  | _ => True
  end ->
  step apple c st = Ok st' -> session st' = session st.
Proof.
  destruct c; cbn [step]; intros Hc; try contradiction.
  - intros [= <-]. unfold on_rerecord.
    destruct (session st) eqn:Es, (selection_time st); cbn; now rewrite ?Es.
  - unfold on_selection_changed.
    destruct (_selection_to_time _ _ _) as [sel | x]; [| discriminate].
    cbn [bind]. cbn [session set_selection_time].
    destruct sel as [[s e] |]; destruct (session st) eqn:Es;
      intros [= <-]; cbn; now rewrite ?Es.
  - intros [= <-]. unfold waveform_press, mousePressEvent.
    destruct (Qle_bool _ 0); [reflexivity |].
    destruct left_button; [| reflexivity].
    cbn [fold_left deliver]. unfold on_waveform_selection.
    now destruct (Qeq_bool _ _).
  - unfold waveform_move, mouseMoveEvent.
    destruct (negb _ || _); [cbn [bind fold_left]; now intros [= <-] |].
    destruct (_sel_start (waveform st)) as [s |]; [| discriminate].
    cbn [bind fold_left deliver]. intros [= <-].
    unfold on_waveform_selection. now destruct (Qeq_bool _ _).
  - now intros [= <-].
  - now intros [= <-].
Qed.

(** A file that loads replaces the session and resets the viewport. *)
Lemma load_audio_file_viewport (f : wav) (a : ndarray) (sr ch : Z)
    (st : MainWindow) :
  load_wav f = Ok (a, sr, ch) ->
  session_audio (_load_audio_file apple (Ok f) st) = Some a
  /\ viewport (_load_audio_file apple (Ok f) st) = (0%Q, None).
Proof.
  intros L. unfold _load_audio_file. cbn [bind]. rewrite L.
  now rewrite on_transcribe_session_audio, on_transcribe_viewport.
Qed.

(** A confirmed Clear of a project with content empties the session and
    resets the viewport. *)
Lemma on_clear_viewport (plain_text : string) (st : MainWindow) :
  is_blank plain_text = false
  \/ (exists s, session st = Some s /\ 0 < len (audio s)) ->
  session_audio (on_clear plain_text true st) = None
  /\ viewport (on_clear plain_text true st) = (0%Q, None).
Proof.
  intros Hcontent. unfold on_clear.
  assert (C : (match session st with
               | Some s => 0 <? len (audio s)
               | None => false
               end || negb (is_blank plain_text)) = true).
  { destruct Hcontent as [B | (s & Es & L)].
    - rewrite B. apply orb_true_r.
    - rewrite Es. apply Z.ltb_lt in L. now rewrite L. }
  rewrite C. now split.
Qed.

(** Whatever the command, a change of the session buffer comes with a
    reset of the viewport. *)
Lemma step_viewport (c : command) (st st' : MainWindow) :
  rate_ok c -> step apple c st = Ok st' ->
  session_audio st' <> session_audio st ->
  viewport st' = (0%Q, None).
Proof.
  intros Hr H Hne.
  assert (K : match c with
              | CmdRecord _ _ _ | CmdStop _ | CmdDelete _ | CmdImport _
              | CmdClear _ _ => False
              | _ => True
              end -> viewport st' = (0%Q, None)).
  { intros Hc. elim Hne. unfold session_audio.
    now rewrite (step_keeps_session c st st' Hc H). }
  destruct c; cbn [step] in H; try (apply K; exact I).
  - (* Record *)
    injection H as <-. revert Hne. unfold on_record.
    destruct captured as [clip sr]. cbn [rate_ok] in Hr.
    destruct (recorder_is_recording st);
      [now apply on_stop_viewport |].
    intros Hne. elim Hne. unfold session_audio.
    destruct (_selection_to_time _ _ _) as [[r |] | x]; [| | reflexivity];
      now destruct start_ok.
  - (* Stop *)
    injection H as <-. destruct captured as [clip sr].
    now apply on_stop_viewport.
  - (* Delete *)
    now apply (delete_selection_viewport cursor st st').
  - (* Import *)
    injection H as <-. revert Hne. unfold _load_audio_file.
    destruct (bind opened load_wav) as [[[a sr] ch] | x];
      [| intros Hne; now elim Hne].
    intros _. now rewrite on_transcribe_viewport.
  - (* Clear *)
    injection H as <-. revert Hne. unfold on_clear.
    destruct (negb _); [intros Hne; now elim Hne |].
    destruct (negb confirm); [intros Hne; now elim Hne |].
    reflexivity.
Qed.

(** The first recording: Stop with no session yet installs the clip and
    resets the viewport. *)
Lemma first_record_viewport (clip : ndarray) (sr : Z) (st : MainWindow) :
  sr <> 0 ->
  recorder_is_recording st = true -> _rerecord_active st = false ->
  session st = None ->
  session_audio (on_stop apple (clip, sr) st) = Some clip
  /\ viewport (on_stop apple (clip, sr) st) = (0%Q, None).
Proof.
  intros Hsr Hrec Hre Es. unfold on_stop, on_stop_finalize.
  rewrite Hre, Hrec. cbn [session set_recording]. rewrite Es.
  rewrite (truediv_ok (len clip) sr Hsr).
  cbn [session set_session audio sample_rate].
  rewrite (truediv_ok (len clip) sr Hsr).
  now split.
Qed.

End controller_facts.

(** C4 (as stated) fails: deleting a selection from a zoomed-in waveform
    is a splice, not a wholesale replacement, and yet the viewport comes
    back reset to the full-duration fit. *)
Lemma delete_selection_resets_viewport :
  let buf := Arr1 (repeat 0%Q 10) in
  let pinch := {| scaleFactor := 2; centerPoint_x := None |} in
  let w0 := handle (Gesture (Some pinch)) (set_audio buf 1 (init 100)) in
  let st0 := {| recorder_is_recording := false;
                session := Some {| audio := buf; sample_rate := 1;
                                   channels := 1 |};
                transcription := None;
                selection_time := Some (4%Q, Some 6%Q);
                _rerecord_active := false;
                _rerecord_range := None;
                waveform := w0 |} in
  let cursor := {| selectionStart := 0; selectionEnd := 0 |} in
  exists st',
    apply_edit None (DeleteSelection cursor) st0 = Ok st'
    /\ option_map len (session_audio st0) = Some 10
    /\ option_map len (session_audio st') = Some 8
    /\ _view_dur (waveform st0) <> None
    /\ viewport st' = (0%Q, None)
    /\ viewport st' <> viewport st0.
Proof.
  cbv zeta. eexists.
  split; [vm_compute; reflexivity |].
  split; [reflexivity |].
  split; [reflexivity |].
  split; [vm_compute; discriminate |].
  split; [reflexivity |].
  vm_compute. discriminate.
Qed.

(** C4, amended.  Every change of the session buffer, whether a wholesale
    replacement (import, clear, the first recording, a clip recorded away
    from the end) or an edit in place (the splice of a re-recorded clip,
    the deletion of a selection, an append), hands the new buffer to
    [WaveformView.set_audio], which resets the viewport to
    [view_start = 0], [view_duration = None] (full-duration fit); the
    viewport does not persist across edits.  The recorder's rate is not
    zero (it is built with 44100). *)
Theorem edits_reset_viewport
    (apple : option (wav -> result TranscriptionResult)) :
  (forall (c : command) (st st' : MainWindow),
      rate_ok c -> step apple c st = Ok st' ->
      session_audio st' <> session_audio st ->
      viewport st' = (0%Q, None))
  /\ (forall (f : wav) (a : ndarray) (sr ch : Z) (st : MainWindow),
         load_wav f = Ok (a, sr, ch) ->
         session_audio (_load_audio_file apple (Ok f) st) = Some a
         /\ viewport (_load_audio_file apple (Ok f) st) = (0%Q, None))
  /\ (forall (plain_text : string) (st : MainWindow),
         is_blank plain_text = false
         \/ (exists s, session st = Some s /\ 0 < len (audio s)) ->
         session_audio (on_clear plain_text true st) = None
         /\ viewport (on_clear plain_text true st) = (0%Q, None))
  /\ (forall (clip : ndarray) (sr : Z) (st : MainWindow),
         sr <> 0 ->
         recorder_is_recording st = true -> _rerecord_active st = false ->
         session st = None ->
         session_audio (on_stop apple (clip, sr) st) = Some clip
         /\ viewport (on_stop apple (clip, sr) st) = (0%Q, None)).
Proof.
  split; [exact (step_viewport apple) |].
  split; [exact (load_audio_file_viewport apple) |].
  split; [exact on_clear_viewport |].
  exact (first_record_viewport apple).
Qed.

Lemma edits_reset_viewport_witness :
  let buf := Arr1 (repeat 0%Q 10) in
  let pinch := {| scaleFactor := 2; centerPoint_x := None |} in
  let w0 :=
    set_cursor_time 10
      (handle (Gesture (Some pinch)) (set_audio buf 1 (init 100))) in
  let st0 := {| recorder_is_recording := true;
                session := Some {| audio := buf; sample_rate := 1;
                                   channels := 1 |};
                transcription := None;
                selection_time := None;
                _rerecord_active := false;
                _rerecord_range := None;
                waveform := w0 |} in
  let captured := (Arr2 1 [[1]; [1]]%Q, 44100) in
  let st' := on_stop None captured st0 in
  rate_ok (CmdStop captured)
  /\ step None (CmdStop captured) st0 = Ok st'
  /\ session_audio st' <> session_audio st0
  /\ _view_dur (waveform st0) <> None
  /\ viewport st' = (0%Q, None).
Proof.
  intros buf pinch w0 st0 captured st'.
  assert (H0 : rate_ok (CmdStop captured)) by (cbn; lia).
  assert (H1 : step None (CmdStop captured) st0 = Ok st') by reflexivity.
  assert (H2 : session_audio st' <> session_audio st0)
    by (vm_compute; discriminate).
  split; [exact H0 |]. split; [exact H1 |]. split; [exact H2 |].
  split; [vm_compute; discriminate |].
  exact (proj1 (edits_reset_viewport None) (CmdStop captured) st0 st'
           H0 H1 H2).
Defined.

(** After [on_stop] with no re-record armed the session is the one
    left by the finalize block, whether it ran to its end or was left
    through the [except] clause. *)
Lemma on_stop_session_flow
    (apple : option (wav -> result TranscriptionResult))
    (clip : ndarray) (sr : Z) (st : MainWindow) :
  _rerecord_active st = false ->
  session (on_stop apple (clip, sr) st)
  = session (match on_stop_finalize clip sr st with
             | Next st1 _ => st1
             | Caught st1 => st1
             end).
Proof.
  intros Harm. unfold on_stop. rewrite Harm.
  destruct (on_stop_finalize clip sr st) as [st1 appended | st1];
    [| reflexivity].
  destruct (session st1) as [sess |] eqn:E; [| exact E].
  cbv zeta. destruct (py.truediv _ _) as [d | x]; [| exact E].
  destruct appended; [rewrite on_transcribe_session |]; exact E.
Qed.

(** C7 (as stated) fails: with an imported two-channel session and the
    cursor at its end, Stop does not append the recorder's single-channel
    clip; [np.concatenate] raises, the error is reported and the session
    is left as it was. *)
Lemma stop_at_end_of_stereo_session_drops_clip :
  let buf := Arr2 2 [[0; 0]; [1 # 2; 1 # 2]]%Q in
  let sess := {| audio := buf; sample_rate := 2; channels := 2 |} in
  let st := {| recorder_is_recording := true;
               session := Some sess;
               transcription := None;
               selection_time := None;
               _rerecord_active := false;
               _rerecord_range := None;
               waveform := set_cursor_time 1 (set_audio buf 2 (init 100)) |} in
  let clip := Arr2 1 [[1 # 4]; [1 # 8]]%Q in
  let st' := on_stop None (clip, 44100) st in
  (inject_Z (len buf) / inject_Z 2 - (5 # 100)
   <= _cursor_time (waveform st))%Q
  /\ session st' = Some sess
  /\ option_map len (session_audio st') = Some 2
  /\ session_audio st' <> Some clip.
Proof.
  cbv zeta.
  split; [vm_compute; discriminate |].
  split; [reflexivity |].
  split; [reflexivity |].
  discriminate.
Qed.



(* ================================================================== *)
(** * Further properties of the code                                    *)
(* ================================================================== *)

(* ------------------------------------------------------------------ *)
(** ** Frame indices                                                    *)
(* ------------------------------------------------------------------ *)




(* ------------------------------------------------------------------ *)
(** ** splice_audio: contents and edge cases                            *)
(* ------------------------------------------------------------------ *)










(* ------------------------------------------------------------------ *)
(** ** PCM16: shape of the encoder, bytes, and files                    *)
(* ------------------------------------------------------------------ *)

Lemma clip_unit_mono (x y : Q) :
  (x <= y)%Q -> (py.clip x (-1) 1 <= py.clip y (-1) 1)%Q.
Proof. intros H. unfold py.clip. split_minmax; lra. Qed.

(** X6.  The PCM16 encoder is monotone and its output always lies in
    [-32767, 32767]: the code -32768 is never produced. *)
Theorem pcm16_encode_monotone (x y : Q) :
  (x <= y)%Q ->
  -32767 <= pcm16_encode x <= pcm16_encode y /\ pcm16_encode y <= 32767.
Proof.
  intros H.
  pose proof (pcm16_encode_range x). pose proof (pcm16_encode_range y).
  split; [split; [lia |] | lia].
  rewrite !pcm16_encode_trunc. apply trunc_mono, float32_mono.
  pose proof (clip_unit_mono x y H). lra.
Qed.

Lemma pcm16_encode_monotone_witness :
  ((1 # 3) <= 1 # 2)%Q
  /\ -32767 <= pcm16_encode (1 # 3) <= pcm16_encode (1 # 2).
Proof.
  assert (H : ((1 # 3) <= 1 # 2)%Q) by (vm_compute; discriminate).
  split; [exact H |].
  exact (proj1 (pcm16_encode_monotone (1 # 3) (1 # 2) H)).
Defined.

(** X7.  The encoder saturates (every sample at or above 1 becomes 32767,
    every sample at or below -1 becomes -32767) and is odd:
    [encode(-x) = -encode(x)]. *)
Theorem pcm16_encode_saturates_and_is_odd (x : Q) :
  ((1 <= x)%Q -> pcm16_encode x = 32767)
  /\ ((x <= -1)%Q -> pcm16_encode x = -32767)
  /\ pcm16_encode (- x) = - pcm16_encode x.
Proof.
  split; [| split].
  - intros H. rewrite pcm16_encode_trunc.
    rewrite (trunc_comp _ (inject_Z 32767)); [apply trunc_inject_Z |].
    assert (E : (py.clip x (-1) 1 == 1)%Q)
      by (unfold py.clip; split_minmax; lra).
    rewrite <- (float32_fix_Z 32767) by (cbn; lia).
    apply float32_comp. rewrite E. reflexivity.
  - intros H. rewrite pcm16_encode_trunc.
    rewrite (trunc_comp _ (inject_Z (-32767))); [apply trunc_inject_Z |].
    assert (E : (py.clip x (-1) 1 == -1)%Q)
      by (unfold py.clip; split_minmax; lra).
    rewrite <- (float32_fix_Z (-32767)) by (cbn; lia).
    apply float32_comp. rewrite E. reflexivity.
  - rewrite !pcm16_encode_trunc, <- trunc_opp. apply trunc_comp.
    assert (E : (py.clip (- x) (-1) 1 == - py.clip x (-1) 1)%Q)
      by (unfold py.clip; split_minmax; lra).
    rewrite <- float32_opp. apply float32_comp.
    rewrite E. ring.
Qed.

Lemma pcm16_encode_saturates_and_is_odd_witness :
  (1 <= 3 # 2)%Q /\ pcm16_encode (3 # 2) = 32767
  /\ (-(2) <= -1)%Q /\ pcm16_encode (-(2)) = -32767.
Proof.
  assert (H1 : (1 <= 3 # 2)%Q) by (vm_compute; discriminate).
  assert (H2 : (-(2) <= -1)%Q) by (vm_compute; discriminate).
  split; [exact H1 |].
  split; [exact (proj1 (pcm16_encode_saturates_and_is_odd (3 # 2)) H1) |].
  split; [exact H2 |].
  exact (proj1 (proj2 (pcm16_encode_saturates_and_is_odd (-(2)))) H2).
Defined.

Lemma int16_bytes_range (k : Z) :
  Forall (fun b => 0 <= b < 256) (int16_bytes k).
Proof.
  unfold int16_bytes. cbv zeta.
  pose proof (Z.mod_pos_bound k 65536 ltac:(lia)).
  repeat constructor.
  - apply Z.mod_pos_bound. lia.
  - apply Z.mod_pos_bound. lia.
  - apply Z.div_pos; lia.
  - apply Z.div_lt_upper_bound; lia.
Qed.

Lemma frombuffer_odd (n : nat) :
  forall bytes : list Z,
    (length bytes < 2 * n)%nat -> Nat.odd (length bytes) = true ->
    frombuffer bytes = Raise ValueError.
Proof.
  induction n as [| n IH]; intros bytes Hn Hodd; [lia |].
  destruct bytes as [| lo [| hi rest]].
  - discriminate Hodd.
  - reflexivity.
  - cbn [frombuffer]. rewrite IH; [reflexivity | cbn in Hn; lia |].
    cbn [length] in Hodd. now rewrite Nat.odd_succ_succ in Hodd.
Qed.

(** X8.  [tobytes] writes two bytes per sample, each in 0..255;
    [frombuffer] reads int16 samples back unchanged; and a buffer with an
    odd number of bytes makes [frombuffer] raise [ValueError]. *)
Theorem pcm16_bytes_roundtrip (pcm : list Z) :
  length (tobytes pcm) = (2 * length pcm)%nat
  /\ Forall (fun b => 0 <= b < 256) (tobytes pcm)
  /\ (Forall (fun k => -32768 <= k <= 32767) pcm ->
      frombuffer (tobytes pcm) = Ok pcm)
  /\ (forall extra : Z,
         frombuffer (tobytes pcm ++ [extra]) = Raise ValueError).
Proof.
  split; [| split; [| split]].
  - induction pcm as [| k l IH]; [reflexivity |].
    cbn [tobytes flat_map int16_bytes app length]. fold (tobytes l).
    rewrite IH. lia.
  - induction pcm as [| k l IH]; [constructor |].
    cbn [tobytes flat_map]. fold (tobytes l).
    apply Forall_app. split; [apply int16_bytes_range | exact IH].
  - apply frombuffer_tobytes.
  - intros extra.
    assert (L : length (tobytes pcm) = (2 * length pcm)%nat).
    { induction pcm as [| k l IH]; [reflexivity |].
      cbn [tobytes flat_map int16_bytes app length]. fold (tobytes l).
      rewrite IH. lia. }
    apply (frombuffer_odd (S (length pcm))).
    + rewrite length_app, L. cbn [length]. lia.
    + rewrite length_app, L. cbn [length].
      rewrite Nat.add_1_r, Nat.odd_succ. apply Nat.even_spec.
      exists (length pcm). lia.
Qed.

Lemma pcm16_bytes_roundtrip_witness :
  Forall (fun k => -32768 <= k <= 32767) [0; -1; 32767; -32768]
  /\ frombuffer (tobytes [0; -1; 32767; -32768])
     = Ok [0; -1; 32767; -32768].
Proof.
  assert (H : Forall (fun k => -32768 <= k <= 32767) [0; -1; 32767; -32768])
    by (repeat constructor; lia).
  split; [exact H |].
  exact (proj1 (proj2 (proj2 (pcm16_bytes_roundtrip [0; -1; 32767; -32768])))
           H).
Defined.











(* ------------------------------------------------------------------ *)
(** ** Recorder: queue, collector thread and stop                       *)
(* ------------------------------------------------------------------ *)

Lemma concatenate_same_channels (c : positive) (l : list ndarray) :
  l <> [] ->
  Forall (fun a => ndim a = 2 /\ channel_count a = c) l ->
  concatenate l = Ok (Arr2 c (concat (map frames l))).
Proof.
  intros Hne Hall. induction Hall as [| a l [Ha Hc] Hl IH]; [now elim Hne |].
  destruct a as [s | c' r]; [discriminate Ha |].
  cbn [channel_count] in Hc. subst c'.
  destruct l as [| b rest].
  - cbn. now rewrite app_nil_r.
  - change (concatenate (Arr2 c r :: b :: rest))
      with (bind (concatenate (b :: rest)) (concatenate2 (Arr2 c r))).
    rewrite IH by discriminate. cbn [bind concatenate2].
    now rewrite Pos.eqb_refl.
Qed.

Lemma append_to_buffer_ok (c : positive) (fl : list ndarray)
    (l : list ndarray) (r : audio_recorder.AudioRecorder) :
  l <> [] -> Forall (audio_recorder.chunk_ok c) l ->
  (audio_recorder._buffer r = None /\ fl = [])
  \/ audio_recorder._buffer r = Some (Arr2 c (concat (map frames fl))) ->
  audio_recorder._append_to_buffer l r
  = Ok (audio_recorder.set_buffer r
          (Some (Arr2 c (concat (map frames (fl ++ l)))))).
Proof.
  intros Hne Hl Hb. unfold audio_recorder._append_to_buffer.
  rewrite (concatenate_same_channels c l Hne Hl). cbn [bind].
  destruct Hb as [[-> ->] | ->]; [reflexivity |].
  cbn [concatenate concatenate2 bind]. rewrite Pos.eqb_refl. cbn [bind].
  now rewrite map_app, concat_app.
Qed.

Lemma collector_flush_kept (c : positive) (all l : list ndarray)
    (next : audio_recorder.collector) (r : audio_recorder.AudioRecorder) :
  l <> [] -> audio_recorder.collector_frames next = [] ->
  audio_recorder.chunks_kept c all (audio_recorder.Running l, r) ->
  audio_recorder.collector_flush l next r
  = (next, snd (audio_recorder.collector_flush l next r))
  /\ audio_recorder.chunks_kept c all (audio_recorder.collector_flush l next r).
Proof.
  intros Hne Hn (fl & E & Hb & Hall). cbn [fst snd] in *.
  cbn [audio_recorder.collector_frames] in E.
  assert (Hl : Forall (audio_recorder.chunk_ok c) l).
  { rewrite <- E in Hall. apply Forall_app in Hall as [_ Hall].
    now apply Forall_app in Hall as [Hall _]. }
  unfold audio_recorder.collector_flush.
  rewrite (append_to_buffer_ok c fl l r Hne Hl Hb).
  split; [reflexivity |].
  exists (fl ++ l). cbn [fst snd]. rewrite Hn. cbn [app].
  cbn [audio_recorder._frames_q audio_recorder.set_buffer
       audio_recorder._buffer].
  split; [now rewrite <- app_assoc |].
  split; [now right | exact Hall].
Qed.

Lemma collector_turn_kept (c : positive) (all : list ndarray)
    (flush_due : bool)
    (s : audio_recorder.collector * audio_recorder.AudioRecorder) :
  audio_recorder.chunks_kept c all s ->
  audio_recorder.chunks_kept c all
    (audio_recorder.collector_turn flush_due (fst s) (snd s)).
Proof.
  destruct s as [t r]. cbn [fst snd]. intros H.
  destruct t as [fr |]; cbn [audio_recorder.collector_turn]; [| exact H].
  destruct (audio_recorder._stop_event r).
  - destruct fr as [| a fr].
    + destruct H as (fl & E & Hb & Hall). now exists fl.
    + apply collector_flush_kept; [discriminate | reflexivity | exact H].
  - assert (H' : audio_recorder.chunks_kept c all
                   (match audio_recorder._frames_q r with
                    | chunk :: rest =>
                        (audio_recorder.Running (fr ++ [chunk]),
                         audio_recorder.set_queue r rest)
                    | [] => (audio_recorder.Running fr, r)
                    end)).
    { destruct (audio_recorder._frames_q r) as [| chunk rest] eqn:Eq;
        [exact H |].
      destruct H as (fl & E & Hb & Hall). exists fl.
      cbn [fst snd audio_recorder.collector_frames
           audio_recorder._frames_q audio_recorder.set_queue
           audio_recorder._buffer] in *.
      rewrite Eq in E. split; [| split; assumption].
      rewrite <- E, <- !app_assoc. reflexivity. }
    destruct (audio_recorder._frames_q r) as [| chunk rest].
    + destruct fr as [| a fr]; [exact H' |].
      destruct flush_due; [| exact H'].
      apply collector_flush_kept; [discriminate | reflexivity | exact H'].
    + destruct (fr ++ [chunk]) as [| a fr'] eqn:Ef; [exact H' |].
      destruct flush_due; [| exact H'].
      apply collector_flush_kept; [discriminate | reflexivity | exact H'].
Qed.

Lemma run_kept (c : positive) (events : list audio_recorder.event) :
  forall (all : list ndarray)
         (s : audio_recorder.collector * audio_recorder.AudioRecorder),
    Forall (audio_recorder.chunk_ok c) (audio_recorder.captured events) ->
    audio_recorder.chunks_kept c all s ->
    audio_recorder.chunks_kept c (all ++ audio_recorder.captured events)
      (audio_recorder.run events s).
Proof.
  induction events as [| e rest IH]; intros all s Hc H.
  - cbn. now rewrite app_nil_r.
  - cbn [audio_recorder.run fold_left].
    fold (audio_recorder.run rest (audio_recorder.step e s)).
    destruct e as [a | f].
    + cbn [audio_recorder.captured flat_map] in *.
      fold (audio_recorder.captured rest) in *.
      apply Forall_app in Hc as [Ha Hc].
      replace (all ++ [a] ++ audio_recorder.captured rest)
        with ((all ++ [a]) ++ audio_recorder.captured rest)
        by now rewrite <- app_assoc.
      apply IH; [exact Hc |].
      destruct H as (fl & E & Hb & Hall). exists fl.
      cbn [audio_recorder.step fst snd audio_recorder._callback
           audio_recorder.set_queue audio_recorder._frames_q
           audio_recorder._buffer].
      split; [now rewrite <- E, <- !app_assoc |].
      split; [exact Hb |]. apply Forall_app. now split.
    + cbn [audio_recorder.captured flat_map app] in *.
      fold (audio_recorder.captured rest) in *.
      apply IH; [exact Hc |].
      cbn [audio_recorder.step]. now apply collector_turn_kept.
Qed.

Lemma run_fields (events : list audio_recorder.event) :
  forall s : audio_recorder.collector * audio_recorder.AudioRecorder,
    let s' := audio_recorder.run events s in
    audio_recorder.sample_rate (snd s') = audio_recorder.sample_rate (snd s)
    /\ audio_recorder.channels (snd s') = audio_recorder.channels (snd s)
    /\ audio_recorder._stream (snd s') = audio_recorder._stream (snd s)
    /\ audio_recorder._stop_event (snd s')
       = audio_recorder._stop_event (snd s).
Proof.
  induction events as [| e rest IH]; intros s; [now cbn |].
  cbn [audio_recorder.run fold_left].
  fold (audio_recorder.run rest (audio_recorder.step e s)).
  destruct (IH (audio_recorder.step e s)) as (A & B & C & D).
  cbv zeta. rewrite A, B, C, D. clear.
  destruct s as [t r]. destruct e as [a | f]; [now cbn |].
  cbn [audio_recorder.step fst snd].
  assert (F : forall l n, 
             let s' := audio_recorder.collector_flush l n r in
             audio_recorder.sample_rate (snd s') = audio_recorder.sample_rate r
             /\ audio_recorder.channels (snd s') = audio_recorder.channels r
             /\ audio_recorder._stream (snd s') = audio_recorder._stream r
             /\ audio_recorder._stop_event (snd s')
                = audio_recorder._stop_event r).
  { intros l n. unfold audio_recorder.collector_flush,
      audio_recorder._append_to_buffer.
    destruct (concatenate l) as [ch | ex]; cbn [bind]; [| now cbn].
    destruct (audio_recorder._buffer r) as [b |]; [| now cbn].
    destruct (concatenate [b; ch]); now cbn. }
  assert (G : forall l n q,
             let s' := audio_recorder.collector_flush l n
                         (audio_recorder.set_queue r q) in
             audio_recorder.sample_rate (snd s') = audio_recorder.sample_rate r
             /\ audio_recorder.channels (snd s') = audio_recorder.channels r
             /\ audio_recorder._stream (snd s') = audio_recorder._stream r
             /\ audio_recorder._stop_event (snd s')
                = audio_recorder._stop_event r).
  { intros l n q. unfold audio_recorder.collector_flush,
      audio_recorder._append_to_buffer.
    destruct (concatenate l) as [ch | ex]; cbn [bind]; [| now cbn].
    cbn [audio_recorder._buffer audio_recorder.set_queue].
    destruct (audio_recorder._buffer r) as [b |]; [| now cbn].
    destruct (concatenate [b; ch]); now cbn. }
  destruct t as [fr |]; cbn [audio_recorder.collector_turn]; [| now cbn].
  destruct (audio_recorder._stop_event r) eqn:Ev.
  - destruct fr; [now cbn | apply F].
  - destruct (audio_recorder._frames_q r) as [| chunk q].
    + destruct fr; [now cbn |]. destruct f; [apply F | now cbn].
    + destruct (fr ++ [chunk]); [now cbn |].
      destruct f; [apply G | now cbn].
Qed.

(** X11.  [stop] returns, in capture order and as one
    [(frames, channels)] array, the chunks that the collector thread has
    flushed into the buffer by the time [join] returns: a prefix of the
    chunks queued (those left in the queue by an earlier recording, then
    those captured), followed in that order by the chunks the collector
    still holds (none once it has ended) and by the chunks still queued,
    which [stop] leaves in the queue.  The recorder is then idle. *)
Theorem recorder_stop_returns_flushed_chunks
    (r0 : audio_recorder.AudioRecorder) (t0 : audio_recorder.collector)
    (before during : list audio_recorder.event) :
  let c := audio_recorder.channels r0 in
  let s := audio_recorder.run before (audio_recorder.start t0 r0) in
  audio_recorder._stream r0 = false ->
  Forall (audio_recorder.chunk_ok c) (audio_recorder._frames_q r0) ->
  Forall (audio_recorder.chunk_ok c)
         (audio_recorder.captured (before ++ during)) ->
  exists flushed t' r',
    audio_recorder.stop during (fst s) (snd s)
    = audio_recorder.Stopped (Arr2 c (concat (map frames flushed)))
        (audio_recorder.sample_rate r0) t' r'
    /\ flushed ++ audio_recorder.collector_frames t'
         ++ audio_recorder._frames_q r'
       = audio_recorder._frames_q r0
         ++ audio_recorder.captured (before ++ during)
    /\ audio_recorder.is_recording r' = false
    /\ forall (during' : list audio_recorder.event)
              (t'' : audio_recorder.collector),
         audio_recorder.stop during' t'' r'
         = audio_recorder.RuntimeError_not_active.
Proof.
  intros c s Hs Hq Hc.
  unfold audio_recorder.captured in Hc. rewrite flat_map_app in Hc.
  fold (audio_recorder.captured before) in Hc.
  fold (audio_recorder.captured during) in Hc.
  apply Forall_app in Hc as [Hb Hd].
  unfold audio_recorder.captured at 1. rewrite flat_map_app.
  fold (audio_recorder.captured before).
  fold (audio_recorder.captured during).
  assert (Es : audio_recorder.start t0 r0
               = (audio_recorder.Running [],
                  {| audio_recorder.sample_rate :=
                       audio_recorder.sample_rate r0;
                     audio_recorder.channels := audio_recorder.channels r0;
                     audio_recorder._stream := true;
                     audio_recorder._frames_q := audio_recorder._frames_q r0;
                     audio_recorder._stop_event := false;
                     audio_recorder._buffer := None |}))
    by (unfold audio_recorder.start; now rewrite Hs).
  assert (K0 : audio_recorder.chunks_kept c (audio_recorder._frames_q r0)
                 (audio_recorder.start t0 r0)).
  { rewrite Es. exists []. cbn. split; [reflexivity |].
    split; [now left | exact Hq]. }
  pose proof (run_kept c before _ _ Hb K0) as K1. fold s in K1.
  destruct (run_fields before (audio_recorder.start t0 r0))
    as (F1 & F2 & F3 & _).
  fold s in F1, F2, F3. rewrite Es in F1, F2, F3. cbn in F1, F2, F3.
  unfold audio_recorder.stop. rewrite F3.
  set (r1 := {| audio_recorder.sample_rate :=
                  audio_recorder.sample_rate (snd s);
                audio_recorder._stop_event := true |}).
  assert (K2 : audio_recorder.chunks_kept c
                 (audio_recorder._frames_q r0
                  ++ audio_recorder.captured before) (fst s, r1)).
  { destruct K1 as (fl & E & B & A). now exists fl. }
  pose proof (run_kept c during _ _ Hd K2) as K3.
  destruct (run_fields during (fst s, r1)) as (G1 & G2 & _).
  cbn [snd] in G1, G2.
  destruct (audio_recorder.run during (fst s, r1)) as [t' r2].
  destruct K3 as (fl & E & B & A). cbn [fst snd] in E, B, G1, G2.
  exists fl, t'.
  exists {| audio_recorder.sample_rate := audio_recorder.sample_rate r0;
            audio_recorder.channels := c;
            audio_recorder._stream := false;
            audio_recorder._frames_q := audio_recorder._frames_q r2;
            audio_recorder._stop_event := audio_recorder._stop_event r2;
            audio_recorder._buffer := audio_recorder._buffer r2 |}.
  split.
  { cbn [audio_recorder._buffer audio_recorder.channels
         audio_recorder.sample_rate].
    rewrite G1, G2. unfold r1.
    cbn [audio_recorder.sample_rate audio_recorder.channels].
    rewrite F1, F2. fold c.
    destruct B as [[-> ->] | ->]; reflexivity. }
  split; [now rewrite <- app_assoc in E |].
  split; reflexivity.
Qed.

Lemma recorder_stop_returns_flushed_chunks_witness :
  let r0 := {| audio_recorder.sample_rate := 44100;
               audio_recorder.channels := 1;
               audio_recorder._stream := false;
               audio_recorder._frames_q := [Arr2 1 [[7]]%Q];
               audio_recorder._stop_event := true;
               audio_recorder._buffer := None |} in
  let before := [audio_recorder.Captured (Arr2 1 [[1]; [2]]%Q);
                 audio_recorder.Turn true;
                 audio_recorder.Captured (Arr2 1 [[3]]%Q);
                 audio_recorder.Turn false;
                 audio_recorder.Captured (Arr2 1 [[4]]%Q)] in
  let during := [audio_recorder.Turn false] in
  let s := audio_recorder.run before
             (audio_recorder.start audio_recorder.Exited r0) in
  audio_recorder._stream r0 = false
  /\ Forall (audio_recorder.chunk_ok 1) (audio_recorder._frames_q r0)
  /\ Forall (audio_recorder.chunk_ok 1)
            (audio_recorder.captured (before ++ during))
  /\ (exists r',
        audio_recorder.stop during (fst s) (snd s)
        = audio_recorder.Stopped (Arr2 1 [[7]; [1]; [2]]%Q) 44100
            audio_recorder.Exited r'
        /\ audio_recorder._frames_q r'
           = [Arr2 1 [[3]]%Q; Arr2 1 [[4]]%Q])
  /\ exists flushed t' r',
       audio_recorder.stop during (fst s) (snd s)
       = audio_recorder.Stopped (Arr2 1 (concat (map frames flushed)))
           44100 t' r'
       /\ flushed ++ audio_recorder.collector_frames t'
            ++ audio_recorder._frames_q r'
          = [Arr2 1 [[7]]; Arr2 1 [[1]; [2]]; Arr2 1 [[3]];
             Arr2 1 [[4]]]%Q.
Proof.
  intros r0 before during s.
  assert (Hq : Forall (audio_recorder.chunk_ok (audio_recorder.channels r0))
                 (audio_recorder._frames_q r0))
    by (repeat constructor).
  assert (Hc : Forall (audio_recorder.chunk_ok (audio_recorder.channels r0))
                 (audio_recorder.captured (before ++ during)))
    by (repeat constructor).
  split; [reflexivity |]. split; [exact Hq |]. split; [exact Hc |].
  split; [eexists; split; vm_compute; reflexivity |].
  destruct (recorder_stop_returns_flushed_chunks r0 audio_recorder.Exited
              before during eq_refl Hq Hc)
    as (fl & t' & r' & H1 & H2 & _).
  exists fl, t', r'. split; [exact H1 | exact H2].
Defined.

(* ------------------------------------------------------------------ *)
(** ** Waveform: visible range and pixel mapping                        *)
(* ------------------------------------------------------------------ *)

Lemma duration_nonneg (w : WaveformView) : (0 <= _duration w)%Q.
Proof.
  unfold _duration. destruct (_audio w) as [a |]; [| lra].
  destruct (Z.leb_spec (_sr w) 0) as [H | H]; [lra |].
  unfold Qdiv. apply Qmult_le_0_compat.
  - change 0%Q with (inject_Z 0). rewrite <- Zle_Qle. lia.
  - apply Qinv_le_0_compat.
    change 0%Q with (inject_Z 0). rewrite <- Zle_Qle. lia.
Qed.

Lemma duration_pos_sr (w : WaveformView) :
  (0 < _duration w)%Q -> 0 < _sr w.
Proof.
  unfold _duration. destruct (_audio w) as [a |]; [| lra].
  destruct (Z.leb_spec (_sr w) 0) as [H | H]; [lra | lia].
Qed.

Lemma Qle_bool_true (x y : Q) : (x <= y)%Q -> Qle_bool x y = true.
Proof. apply Qle_bool_iff. Qed.

Lemma visible_range_facts (w : WaveformView) :
  let vs := fst (_visible_range w) in
  let ve := snd (_visible_range w) in
  let total := _duration w in
  (0 <= vs)%Q /\ (vs <= ve)%Q /\ (ve <= total)%Q
  /\ ((0 < total)%Q -> (vs < ve)%Q)
  /\ (_view_dur w = None -> (vs == 0)%Q /\ (ve == total)%Q)
  /\ (forall vd,
         _view_dur w = Some vd -> (0 < vd)%Q -> (vd < total)%Q ->
         (0 <= _view_start w)%Q -> (_view_start w + vd <= total)%Q ->
         (vs == _view_start w)%Q /\ (ve == _view_start w + vd)%Q).
Proof.
  intros vs ve total.
  pose proof (duration_nonneg w) as Hn. fold total in Hn.
  unfold vs, ve, _visible_range. fold total.
  destruct (Qle_bool total 0) eqn:Ed.
  - apply Qle_bool_iff in Ed. cbn [fst snd].
    repeat split; intros; lra.
  - apply Qle_bool_false in Ed.
    destruct (_view_dur w) as [d |]; cbn [fst snd].
    + destruct (Qle_bool d 0) eqn:E1; cbn [orb fst snd].
      * apply Qle_bool_iff in E1.
        repeat split; intros; try discriminate; try lra.
        all: match goal with
             | H : Some _ = Some _ |- _ => injection H as <-
             end; lra.
      * apply Qle_bool_false in E1.
        destruct (Qle_bool total d) eqn:E2; cbn [fst snd].
        -- apply Qle_bool_iff in E2.
           repeat split; intros; try discriminate; try lra.
           all: match goal with
                | H : Some _ = Some _ |- _ => injection H as <-
                end; lra.
        -- apply Qle_bool_false in E2.
           generalize (_view_start w). intros s.
           repeat split; intros; try discriminate;
             try match goal with
                 | H : Some _ = Some _ |- _ => injection H as <-
                 end;
             split_minmax; lra.
    + repeat split; intros; try discriminate; lra.
Qed.

(** X12.  The visible range always lies inside the buffer,
    [0 <= start <= end <= total]; it is not empty when there is audio; it
    is the whole buffer when no window is set; and for a window that lies
    inside the buffer it is exactly [[view_start, view_start + view_dur]]. *)
Theorem visible_range_bounds (w : WaveformView) :
  let vs := fst (_visible_range w) in
  let ve := snd (_visible_range w) in
  let total := _duration w in
  (0 <= vs)%Q /\ (vs <= ve)%Q /\ (ve <= total)%Q
  /\ ((0 < total)%Q -> (vs < ve)%Q)
  /\ (_view_dur w = None -> (vs == 0)%Q /\ (ve == total)%Q)
  /\ (forall vd,
         _view_dur w = Some vd -> (0 < vd)%Q -> (vd < total)%Q ->
         (0 <= _view_start w)%Q -> (_view_start w + vd <= total)%Q ->
         (vs == _view_start w)%Q /\ (ve == _view_start w + vd)%Q).
Proof. exact (visible_range_facts w). Qed.

Lemma visible_range_bounds_witness :
  let w := with_view (set_audio (Arr1 (repeat 0%Q 20)) 2 (init 100))
                     3 (Some 4%Q) in
  (0 < 4)%Q /\ (4 < _duration w)%Q /\ (0 <= _view_start w)%Q
  /\ (_view_start w + 4 <= _duration w)%Q
  /\ (fst (_visible_range w) == 3)%Q /\ (snd (_visible_range w) == 3 + 4)%Q.
Proof.
  intros w.
  assert (H1 : (0 < 4)%Q) by reflexivity.
  assert (H2 : (4 < _duration w)%Q) by (vm_compute; reflexivity).
  assert (H3 : (0 <= _view_start w)%Q) by (vm_compute; discriminate).
  assert (H4 : (_view_start w + 4 <= _duration w)%Q)
    by (vm_compute; discriminate).
  split; [exact H1 |]. split; [exact H2 |]. split; [exact H3 |].
  split; [exact H4 |].
  exact (proj2 (proj2 (proj2 (proj2 (proj2 (visible_range_bounds w)))))
           4%Q eq_refl H1 H2 H3 H4).
Defined.

Lemma Qdiv_le_compat_r (a b v : Q) :
  (0 < v)%Q -> (a <= b)%Q -> (a / v <= b / v)%Q.
Proof.
  intros Hv Hab. unfold Qdiv.
  apply Qmult_le_compat_r; [exact Hab |].
  apply Qinv_le_0_compat. lra.
Qed.

Lemma clip01_bounds (x : Q) : (0 <= py.clip x 0 1 <= 1)%Q.
Proof. unfold py.clip. split_minmax; lra. Qed.

Lemma clip01_mono (x y : Q) :
  (x <= y)%Q -> (py.clip x 0 1 <= py.clip y 0 1)%Q.
Proof. intros H. unfold py.clip. split_minmax; lra. Qed.

Lemma width_pos (w : WaveformView) : (0 < inject_Z (Z.max 1 (width w)))%Q.
Proof. change 0%Q with (inject_Z 0). rewrite <- Zlt_Qlt. lia. Qed.

(** X13.  With at least a nanosecond in view, the time under any abscissa
    lies in the visible range; the mapping is monotone in the abscissa;
    everything at or left of 0 maps to the range's start and everything at
    or right of the widget's width to its end.  Without audio the time is
    0. *)
Theorem time_at_x_in_visible_range (w : WaveformView) (x x' : Q) :
  let vs := fst (_visible_range w) in
  let ve := snd (_visible_range w) in
  ((_duration w <= 0)%Q -> _time_at_x x w = 0%Q)
  /\ ((1 # 1000000000 <= ve - vs)%Q ->
      (vs <= _time_at_x x w)%Q /\ (_time_at_x x w <= ve)%Q
      /\ ((x <= x')%Q -> (_time_at_x x w <= _time_at_x x' w)%Q)
      /\ ((x <= 0)%Q -> (_time_at_x x w == vs)%Q)
      /\ ((inject_Z (Z.max 1 (width w)) <= x)%Q -> (_time_at_x x w == ve)%Q)).
Proof.
  intros vs ve. split.
  - intros H. unfold _time_at_x. now rewrite (Qle_bool_true _ _ H).
  - intros Hr.
    destruct (visible_range_facts w) as (B0 & B1 & B2 & _).
    fold vs ve in B0, B1, B2.
    assert (Hd : (0 < _duration w)%Q) by lra.
    pose proof (duration_pos_sr w Hd) as Hsr.
    assert (T : forall y, _time_at_x y w
                          = (vs + py.clip (y / inject_Z (Z.max 1 (width w)))
                                          0 1
                                  * Qmax (1 # 1000000000) (ve - vs))%Q).
    { intros y. unfold _time_at_x, vs, ve.
      rewrite (Qle_bool_false_of_lt _ _ Hd).
      destruct (Z.leb_spec (_sr w) 0) as [? | _]; [lia |].
      cbn [orb]. now destruct (_visible_range w). }
    rewrite !T.
    assert (Ev : (Qmax (1 # 1000000000) (ve - vs) == ve - vs)%Q)
      by (apply Q.max_r; exact Hr).
    pose proof (width_pos w) as HW.
    set (W := inject_Z (Z.max 1 (width w))) in *.
    pose proof (clip01_bounds (x / W)) as [P0 P1].
    repeat split.
    + rewrite Ev. nra.
    + rewrite Ev. nra.
    + intros Hx.
      pose proof (clip01_mono _ _ (Qdiv_le_compat_r x x' W HW Hx)) as Hm.
      rewrite Ev. nra.
    + intros Hx.
      assert (Hq : (x / W <= 0)%Q).
      { apply Qle_shift_div_r; [exact HW | lra]. }
      assert (E : (py.clip (x / W) 0 1 == 0)%Q)
        by (unfold py.clip; split_minmax; lra).
      rewrite E. ring.
    + intros Hx.
      assert (Hq : (1 <= x / W)%Q).
      { apply Qle_shift_div_l; [exact HW | lra]. }
      assert (E : (py.clip (x / W) 0 1 == 1)%Q)
        by (unfold py.clip; split_minmax; lra).
      rewrite E, Ev. ring.
Qed.

Lemma time_at_x_in_visible_range_witness :
  let w := with_view (set_audio (Arr1 (repeat 0%Q 20)) 2 (init 100))
                     3 (Some 4%Q) in
  (1 # 1000000000 <= snd (_visible_range w) - fst (_visible_range w))%Q
  /\ (fst (_visible_range w) <= _time_at_x 25 w)%Q
  /\ (_time_at_x 25 w <= snd (_visible_range w))%Q.
Proof.
  intros w.
  assert (H : (1 # 1000000000
               <= snd (_visible_range w) - fst (_visible_range w))%Q)
    by (vm_compute; discriminate).
  split; [exact H |].
  destruct (proj2 (time_at_x_in_visible_range w 25 25) H) as (H1 & H2 & _).
  split; [exact H1 | exact H2].
Defined.

Lemma x_at_time_facts (w : WaveformView) (w_px : Z) (t t' : Q) :
  0 <= w_px ->
  0 <= _x_at_time t w_px w <= w_px
  /\ ((t <= t')%Q -> _x_at_time t w_px w <= _x_at_time t' w_px w).
Proof.
  intros Hw. unfold _x_at_time.
  destruct (_visible_range w) as [vs ve].
  set (vr := Qmax (1 # 1000000000) (ve - vs)).
  assert (Hvr : (0 < vr)%Q) by (unfold vr; split_minmax; lra).
  assert (HW : (0 <= inject_Z w_px)%Q)
    by (change 0%Q with (inject_Z 0); now rewrite <- Zle_Qle).
  split.
  - pose proof (clip01_bounds ((t - vs) / vr)) as [P0 P1].
    set (p := py.clip ((t - vs) / vr) 0 1) in *.
    set (W := inject_Z w_px) in *.
    split.
    + rewrite <- (trunc_inject_Z 0). apply trunc_mono.
      change (inject_Z 0) with 0%Q. apply Qmult_le_0_compat; assumption.
    + rewrite <- (trunc_inject_Z w_px). apply trunc_mono.
      fold W. nra.
  - intros Ht. apply trunc_mono.
    assert (Hd : ((t - vs) / vr <= (t' - vs) / vr)%Q)
      by (apply Qdiv_le_compat_r; [exact Hvr | lra]).
    pose proof (clip01_mono _ _ Hd) as Hm.
    apply Qmult_le_compat_r; assumption.
Qed.

(** X14.  The pixel column of any time lies in [[0, w]] for a width
    [w >= 0], and later times never map to an earlier column. *)
Theorem x_at_time_in_widget (w : WaveformView) (w_px : Z) (t t' : Q) :
  0 <= w_px ->
  0 <= _x_at_time t w_px w <= w_px
  /\ ((t <= t')%Q -> _x_at_time t w_px w <= _x_at_time t' w_px w).
Proof. exact (x_at_time_facts w w_px t t'). Qed.

Lemma x_at_time_in_widget_witness :
  let w := set_audio (Arr1 (repeat 0%Q 20)) 2 (init 100) in
  0 <= 100 /\ (3 <= 7)%Q
  /\ 0 <= _x_at_time 3 100 w <= 100
  /\ _x_at_time 3 100 w <= _x_at_time 7 100 w.
Proof.
  intros w.
  assert (H1 : 0 <= 100) by lia.
  assert (H2 : (3 <= 7)%Q) by (vm_compute; discriminate).
  split; [exact H1 |]. split; [exact H2 |].
  destruct (x_at_time_in_widget w 100 3 7 H1) as [A B].
  split; [exact A | exact (B H2)].
Defined.

(* ------------------------------------------------------------------ *)
(** ** Waveform: mouse selection                                        *)
(* ------------------------------------------------------------------ *)

Lemma Qeq_bool_refl' (t : Q) : Qeq_bool t t = true.
Proof. apply Qeq_bool_iff. reflexivity. Qed.

Lemma Qmin_le_Qmax (a b : Q) : (Qmin a b <= Qmax a b)%Q.
Proof. split_minmax; lra. Qed.

Lemma Qmin_eq_Qmax (a b : Q) : (Qmin a b == Qmax a b)%Q -> (a == b)%Q.
Proof.
  pose proof (Q.le_min_l a b). pose proof (Q.le_min_r a b).
  pose proof (Q.le_max_l a b). pose proof (Q.le_max_r a b).
  intros E. lra.
Qed.

(** X15.  On a waveform with audio, a left press moves the cursor to the
    time under the pointer, starts a drag and leaves the controller with no
    selection; a following move gives the controller either no selection
    (same time) or the range between the two times, ordered and not
    empty. *)
Theorem waveform_drag_selection (st : MainWindow) (x1 x2 : Q) :
  (0 < _duration (waveform st))%Q ->
  let t1 := _time_at_x x1 (waveform st) in
  let t2 := _time_at_x x2 (waveform st) in
  let st1 := waveform_press true x1 st in
  selection_time st1 = None
  /\ _dragging (waveform st1) = true
  /\ (_cursor_time (waveform st1) == Qmax 0 t1)%Q
  /\ exists st2,
       waveform_move x2 st1 = Ok st2
       /\ match selection_time st2 with
          | None => (t1 == t2)%Q
          | Some (a, Some b) =>
              (a < b)%Q /\ (a == Qmin t1 t2)%Q /\ (b == Qmax t1 t2)%Q
          | Some (_, None) => False
          end.
Proof.
  intros Hd t1 t2 st1.
  assert (E1 : st1
               = on_scrub t1
                   (on_waveform_selection t1 t1
                      (set_waveform st
                         {| _audio := _audio (waveform st);
                            _sr := _sr (waveform st);
                            _cursor_time := t1;
                            _sel_start := Some t1; _sel_end := Some t1;
                            _dragging := true;
                            _view_start := _view_start (waveform st);
                            _view_dur := _view_dur (waveform st);
                            width := width (waveform st) |}))).
  { unfold st1, waveform_press, mousePressEvent.
    rewrite (Qle_bool_false_of_lt _ _ Hd). reflexivity. }
  assert (E1' : st1
                = on_scrub t1
                    (set_selection_time
                       (set_waveform st
                          {| _audio := _audio (waveform st);
                             _sr := _sr (waveform st);
                             _cursor_time := t1;
                             _sel_start := Some t1; _sel_end := Some t1;
                             _dragging := true;
                             _view_start := _view_start (waveform st);
                             _view_dur := _view_dur (waveform st);
                             width := width (waveform st) |}) None)).
  { rewrite E1. unfold on_waveform_selection.
    now rewrite Qeq_bool_refl'. }
  clear E1. rewrite E1'.
  split; [reflexivity |]. split; [reflexivity |].
  split; [reflexivity |].
  unfold waveform_move, mouseMoveEvent.
  cbn [waveform on_scrub set_waveform set_selection_time set_cursor_time
       _dragging negb orb].
  change (_duration _) with (_duration (waveform st)).
  rewrite (Qle_bool_false_of_lt _ _ Hd).
  cbn [_sel_start bind fold_left deliver].
  change (_time_at_x x2 _) with t2.
  eexists. split; [reflexivity |].
  cbn [fold_left deliver]. unfold on_waveform_selection.
  destruct (Qeq_bool (Qmin t1 t2) (Qmax t1 t2)) eqn:E;
    cbn [selection_time set_selection_time].
  - apply Qeq_bool_iff in E. apply Qmin_eq_Qmax, E.
  - assert (N : ~ (Qmin t1 t2 == Qmax t1 t2)%Q).
    { intro C. apply Qeq_bool_iff in C. congruence. }
    pose proof (Qmin_le_Qmax t1 t2) as Hle.
    assert (Hlt : (Qmin t1 t2 < Qmax t1 t2)%Q).
    { destruct (Qlt_le_dec (Qmin t1 t2) (Qmax t1 t2)) as [Hlt | Hge];
        [exact Hlt |].
      exfalso. apply N. lra. }
    rewrite (Q.min_l _ _ Hle), (Q.max_r _ _ Hle).
    split; [exact Hlt | split; reflexivity].
Qed.

Lemma waveform_drag_selection_witness :
  let st := set_waveform (MainWindow_init 100)
              (set_audio (Arr1 (repeat 0%Q 20)) 2 (init 100)) in
  (0 < _duration (waveform st))%Q
  /\ selection_time (waveform_press true 10 st) = None
  /\ exists st2,
       waveform_move 60 (waveform_press true 10 st) = Ok st2
       /\ match selection_time st2 with
          | Some (a, Some b) => (a < b)%Q
          | _ => False
          end.
Proof.
  intros st.
  assert (H : (0 < _duration (waveform st))%Q) by (vm_compute; reflexivity).
  split; [exact H |].
  destruct (waveform_drag_selection st 10 60 H) as (A & _ & _ & st2 & B & C).
  split; [exact A |]. exists st2. split; [exact B |].
  destruct (selection_time st2) as [[a [b |]] |].
  - exact (proj1 C).
  - exact C.
  - vm_compute in C. discriminate C.
Defined.

(* ------------------------------------------------------------------ *)
(** ** Waveform: painting geometry                                      *)
(* ------------------------------------------------------------------ *)






Lemma draw_words_loop_spacing
    (items : list (Q * Q * string)) (vs ve : Q) (w_px : Z)
    (w : WaveformView) :
  forall last_x,
    let labels := draw_words_loop items vs ve w_px w last_x in
    Forall (fun l => last_x + 40 <= label_x l) labels
    /\ ForallOrdPairs (fun a b => label_x a + 40 <= label_x b) labels.
Proof.
  induction items as [| [[start end_] text] rest IH]; intros last_x.
  - split; constructor.
  - cbn [draw_words_loop].
    destruct (Qle_bool vs end_ && Qle_bool start ve); [| apply IH].
    destruct (Z.ltb_spec (_x_at_time start w_px w - last_x) 40) as [H | H];
      [apply IH |].
    destruct (IH (_x_at_time start w_px w)) as [F P].
    split.
    + constructor; [cbn; lia |].
      eapply Forall_impl; [| exact F]. cbn. intros l Hl. lia.
    + constructor; [| exact P].
      eapply Forall_impl; [| exact F]. cbn. intros l Hl. exact Hl.
Qed.

(** X17.  Word labels never collide: any two labels drawn by
    [_draw_words] are at least 40 px apart, later words to the right, and
    every label sits inside the widget (for a width [w >= 0]). *)
Theorem draw_words_spacing
    (word_items : option (list (Q * Q * string))) (w_px : Z)
    (w : WaveformView) :
  0 <= w_px ->
  let labels := _draw_words word_items w_px w in
  ForallOrdPairs (fun a b => label_x a + 40 <= label_x b) labels
  /\ Forall (fun l => 0 <= label_x l <= w_px) labels.
Proof.
  intros Hw labels. unfold labels, _draw_words.
  destruct word_items as [items |]; [| split; constructor].
  destruct (_visible_range w) as [vs ve].
  split; [apply draw_words_loop_spacing |].
  generalize (-1000000000). induction items as [| [[start end_] text] rest IH];
    intros last_x; [constructor |].
  cbn [draw_words_loop].
  destruct (Qle_bool vs end_ && Qle_bool start ve); [| apply IH].
  destruct (_x_at_time start w_px w - last_x <? 40); [apply IH |].
  constructor; [| apply IH].
  cbn [label_x]. apply (x_at_time_facts w w_px start start Hw).
Qed.

Lemma draw_words_spacing_witness :
  let w := set_audio (Arr1 (repeat 0%Q 20)) 2 (init 100) in
  let items := [(0%Q, 1%Q, "a"%string); ((11 # 10)%Q, 2%Q, "b"%string);
                (5%Q, 6%Q, "c"%string)] in
  0 <= 300
  /\ ForallOrdPairs (fun a b => label_x a + 40 <= label_x b)
       (_draw_words (Some items) 300 w)
  /\ map label_text (_draw_words (Some items) 300 w)
     = ["a"%string; "c"%string].
Proof.
  intros w items.
  assert (H : 0 <= 300) by lia.
  split; [exact H |].
  split; [exact (proj1 (draw_words_spacing (Some items) 300 w H)) |].
  reflexivity.
Defined.

(* ------------------------------------------------------------------ *)
(** ** Waveform: what gestures keep                                     *)
(* ------------------------------------------------------------------ *)

Lemma with_view_content (w : WaveformView) (vs : Q) (vd : option Q) :
  let w' := with_view w vs vd in
  _audio w' = _audio w /\ _sr w' = _sr w
  /\ _cursor_time w' = _cursor_time w
  /\ _sel_start w' = _sel_start w /\ _sel_end w' = _sel_end w
  /\ _dragging w' = _dragging w /\ width w' = width w.
Proof. cbn. repeat split. Qed.

Lemma clamp_view_as_with_view (w : WaveformView) :
  exists vs vd, _clamp_view w = with_view w vs vd.
Proof.
  unfold _clamp_view.
  destruct (Qle_bool (_duration w) 0); [now eexists; eexists |].
  destruct (_view_dur w); now eexists; eexists.
Qed.

Lemma init_view_as_with_view (w : WaveformView) :
  exists vs vd, init_view w = with_view w vs vd.
Proof.
  destruct (init_view_cases w) as [E | [_ E]]; rewrite E.
  - exists (_view_start w), (_view_dur w). now destruct w.
  - now eexists; eexists.
Qed.

Lemma handle_as_with_view (e : view_event) (w : WaveformView) :
  exists vs vd, handle e w = with_view w vs vd.
Proof.
  assert (Id : exists vs vd, w = with_view w vs vd)
    by (exists (_view_start w), (_view_dur w); now destruct w).
  assert (Two : forall vs vd,
             exists vs' vd',
               _clamp_view (with_view (init_view w) vs vd)
               = with_view w vs' vd').
  { intros vs vd.
    destruct (clamp_view_as_with_view (with_view (init_view w) vs vd))
      as (a & b & ->).
    destruct (init_view_as_with_view w) as (c & d & ->).
    now exists a, b. }
  destruct e as [ev | [p |] |]; cbn [handle].
  - unfold wheelEvent.
    destruct (Qle_bool (_duration w) 0); [exact Id |].
    destruct (ctrl_or_meta ev); apply Two.
  - unfold _handle_gesture.
    destruct (Qle_bool (_duration w) 0); [exact Id |]. apply Two.
  - exact Id.
  - now eexists; eexists.
Qed.

(** X18.  Zoom, pan and reset gestures change nothing but the viewport:
    after any sequence of them the audio, sample rate, cursor, selection,
    drag flag and width of the widget are as before, and so is the
    duration. *)
Theorem gestures_only_move_the_viewport
    (events : list view_event) (w : WaveformView) :
  let w' := run events w in
  _audio w' = _audio w /\ _sr w' = _sr w
  /\ _cursor_time w' = _cursor_time w
  /\ _sel_start w' = _sel_start w /\ _sel_end w' = _sel_end w
  /\ _dragging w' = _dragging w /\ width w' = width w
  /\ _duration w' = _duration w.
Proof.
  revert w. induction events as [| e rest IH]; intros w.
  - cbn. repeat split.
  - cbn [run fold_left]. fold (run rest (handle e w)).
    destruct (IH (handle e w)) as (A & B & C & D & E & F & G & H).
    destruct (handle_as_with_view e w) as (vs & vd & Eh).
    rewrite Eh in *. cbv zeta in *.
    rewrite A, B, C, D, E, F, G, H. cbn. repeat split.
Qed.

Lemma clamp_view_zoom_ok (w : WaveformView) : zoom_ok (_clamp_view w).
Proof.
  unfold _clamp_view, zoom_ok.
  destruct (Qle_bool (_duration w) 0) eqn:E; [exact I |].
  destruct (_view_dur w) as [vd |]; cbn; [| exact I].
  change (_duration (with_view w _ _)) with (_duration w).
  generalize (_duration w). intros dur.
  split; split_minmax; lra.
Qed.

Lemma handle_zoom_ok (e : view_event) (w : WaveformView) :
  zoom_ok w -> zoom_ok (handle e w).
Proof.
  intros Hw. destruct e as [ev | [p |] |]; cbn [handle].
  - unfold wheelEvent.
    destruct (Qle_bool (_duration w) 0); [exact Hw |].
    destruct (ctrl_or_meta ev); apply clamp_view_zoom_ok.
  - unfold _handle_gesture.
    destruct (Qle_bool (_duration w) 0); [exact Hw |].
    apply clamp_view_zoom_ok.
  - exact Hw.
  - exact I.
Qed.

Lemma run_zoom_ok (events : list view_event) (w : WaveformView) :
  zoom_ok w -> zoom_ok (run events w).
Proof.
  revert w. induction events as [| e rest IH]; intros w Hw; [exact Hw |].
  cbn [run fold_left]. apply IH, handle_zoom_ok, Hw.
Qed.



(** X20.  A plain wheel scroll never changes the zoom level: on a widget
    with audio whose window respects the zoom bounds, the window keeps its
    duration and its start moves by the step ([px / 300] of the window per
    pixel, else 3 % of it per wheel notch), clamped into
    [[0, total - duration]]. *)
Theorem pan_keeps_zoom (ev : WheelEvent) (w : WaveformView) :
  let total := _duration w in
  let w1 := init_view w in
  let d := view_dur_of w1 in
  let step :=
    (if negb (pixelDelta_x ev =? 0)
     then (inject_Z (pixelDelta_x ev) / 300) * d
     else (inject_Z (angleDelta_x ev) / 120) * (3 # 100) * d)%Q in
  (0 < total)%Q -> zoom_ok w -> ctrl_or_meta ev = false ->
  exists vd,
    _view_dur (wheelEvent ev w) = Some vd
    /\ (vd == d)%Q
    /\ (_view_start (wheelEvent ev w)
        == py.clip (_view_start w1 - step) 0 (total - d))%Q.
Proof.
  intros total w1 d step Hd Hz Hctrl.
  assert (Hd1 : (0 < _duration w1)%Q)
    by (unfold w1; rewrite duration_init_view; exact Hd).
  assert (Ed : _duration w1 = total) by apply duration_init_view.
  assert (Hz1 : (Qmin (1 # 10) total <= d)%Q /\ (d <= total)%Q).
  { unfold d, view_dur_of, w1, init_view.
    destruct (_visible_range w) as [a b].
    unfold zoom_ok in Hz. fold total in Hz.
    destruct (_view_dur w) as [vd |] eqn:E.
    - now rewrite E.
    - cbn. change (_duration (with_view w a (Some (_duration w))))
        with total. fold total. split; [split_minmax; lra | lra]. }
  unfold wheelEvent. change (_duration w) with total.
  rewrite (Qle_bool_false_of_lt _ _ Hd), Hctrl.
  change (init_view w) with w1. fold d. fold step.
  assert (Ev : _view_dur w1 = Some d) by apply view_dur_init_view.
  rewrite Ev.
  rewrite (clamp_view_set w1 _ _ Hd1), Ed.
  cbn [_view_dur _view_start with_view].
  destruct Hz1 as [Z1 Z2].
  eexists. split; [reflexivity |].
  assert (E1 : (Qmax (Qmin d total) (Qmin (1 # 10) total) == d)%Q)
    by (revert Z1; split_minmax; intros; lra).
  split; [exact E1 |].
  rewrite E1. unfold py.clip.
  generalize (_view_start w1 - step)%Q. intros x.
  split_minmax; lra.
Qed.

Lemma pan_keeps_zoom_witness :
  let w := with_view (set_audio (Arr1 (repeat 0%Q 20)) 1 (init 100))
                     4 (Some 10%Q) in
  let ev := {| pixelDelta_x := 30; pixelDelta_y := 0; angleDelta_x := 0;
               angleDelta_y := 0; ctrl_or_meta := false;
               position_x := 0 |} in
  (0 < _duration w)%Q /\ zoom_ok w
  /\ (exists vd, _view_dur (wheelEvent ev w) = Some vd /\ (vd == 10)%Q)
  /\ (_view_start (wheelEvent ev w) == 3)%Q.
Proof.
  intros w ev.
  assert (H1 : (0 < _duration w)%Q) by (vm_compute; reflexivity).
  assert (H2 : zoom_ok w) by (vm_compute; split; discriminate).
  split; [exact H1 |]. split; [exact H2 |].
  destruct (pan_keeps_zoom ev w H1 H2 eq_refl) as (vd & E & Hvd & Hvs).
  split; [exists vd; split; [exact E |] |].
  { rewrite Hvd. vm_compute. reflexivity. }
  rewrite Hvs. vm_compute. reflexivity.
Defined.

Lemma chunks_length (c : nat) :
  (0 < c)%nat ->
  forall (k : nat) (l : list Q) (fuel : nat),
    length l = (k * c)%nat -> (k <= fuel)%nat ->
    length (chunks fuel c l) = k.
Proof.
  intros Hc. induction k as [| k IH]; intros l fuel Hl Hf.
  - destruct l; [| cbn in Hl; lia]. destruct fuel; reflexivity.
  - destruct fuel as [| fuel]; [lia |].
    destruct l as [| x l']; [cbn in Hl; lia |].
    cbn [chunks length]. f_equal. apply IH; [| lia].
    rewrite length_skipn, Hl. lia.
Qed.

Lemma max_abs_nonneg (row : list Q) : (0 <= max_abs row)%Q.
Proof.
  induction row as [| x row IH]; [cbn; lra |].
  change (max_abs (x :: row)) with (Qmax (Qabs x) (max_abs row)).
  eapply Qle_trans; [exact IH | apply Q.le_max_r].
Qed.

Lemma trunc_lt_bound (q : Q) (b : Z) :
  (0 <= q)%Q -> (q < inject_Z b)%Q -> 0 <= py.trunc q < b.
Proof.
  intros H0 Hb. destruct (trunc_spec q) as [P _]. specialize (P H0).
  split.
  - apply Zle_of_Qlt_succ. change (inject_Z 0) with 0%Q. lra.
  - rewrite Zlt_Qlt. lra.
Qed.

(** X21.  The envelope never draws more than [2 * w - 1] bars for a target
    width of [w >= 1] pixels; every bar stands at a column in [[0, w)] and
    has a non-negative amplitude. *)
Theorem envelope_bars_fit (w_px : Z) (w : WaveformView) :
  1 <= w_px ->
  let bars := _draw_envelope w_px w in
  Z.of_nat (length bars) < 2 * w_px
  /\ Forall (fun bar => 0 <= fst bar < w_px /\ (0 <= snd bar)%Q) bars.
Proof.
  intros Hw bars. unfold bars, _draw_envelope.
  destruct (Qle_bool (_duration w) 0); [split; [cbn [length Z.of_nat]; lia | constructor] |].
  destruct (_visible_range w) as [vs ve].
  destruct (_audio w) as [a |]; [| split; [cbn [length Z.of_nat]; lia | constructor]].
  set (chunk := slice_range a _ _).
  destruct (Z.eqb_spec (Z.of_nat (length chunk)) 0) as [E0 | N0];
    [split; [cbn [length Z.of_nat]; lia | constructor] |].
  set (n := Z.of_nat (length chunk)) in *.
  assert (Hn : 1 <= n) by (unfold n in *; lia).
  set (b := Z.max 1 (n / Z.max 1 w_px)).
  assert (Hb : 1 <= b) by (unfold b; lia).
  assert (Hwx : Z.max 1 w_px = w_px) by lia.
  assert (Hbn : b <= n).
  { unfold b. rewrite Hwx.
    assert (n / w_px <= n) by (apply Z.div_le_upper_bound; nia). lia. }
  set (k := n / b).
  assert (Hk : 1 <= k) by (unfold k; apply Z.div_le_lower_bound; lia).
  assert (Hk2 : k < 2 * w_px).
  { unfold k. apply Z.div_lt_upper_bound; [lia |].
    unfold b. rewrite Hwx.
    pose proof (Z.div_mod n w_px ltac:(lia)).
    pose proof (Z.mod_pos_bound n w_px ltac:(lia)). nia. }
  assert (Htrim : 0 <= k * b <= n).
  { unfold k. pose proof (Z.mul_div_le n b ltac:(lia)). nia. }
  assert (Lseg : length (chunks (length chunk) (Z.to_nat b)
                           (py.slice_to chunk (k * b)))
                 = Z.to_nat k).
  { apply chunks_length; [lia | | unfold n in *; nia].
    unfold py.slice_to. rewrite slice_index_in_range by (fold n; lia).
    rewrite firstn_length_le by (unfold n in *; lia). nia. }
  set (env := map max_abs _).
  assert (Lenv : length env = Z.to_nat k)
    by (unfold env; rewrite length_map; exact Lseg).
  rewrite Lenv. split.
  { rewrite length_map, length_combine, length_seq, Lenv, Nat.min_id. lia. }
  apply Forall_forall. intros [x amp] Hin.
  apply in_map_iff in Hin. destruct Hin as ([i e] & Heq & Hin).
  injection Heq as <- <-.
  pose proof (in_combine_l _ _ _ _ Hin) as Hi.
  pose proof (in_combine_r _ _ _ _ Hin) as He.
  apply in_seq in Hi.
  unfold env in He. apply in_map_iff in He. destruct He as (row & <- & _).
  cbn [fst snd]. split; [| apply max_abs_nonneg].
  rewrite Z2Nat.id by lia.
  assert (HkQ : (0 < inject_Z k)%Q)
    by (change 0%Q with (inject_Z 0); rewrite <- Zlt_Qlt; lia).
  assert (HiQ : (0 <= inject_Z (Z.of_nat i))%Q)
    by (change 0%Q with (inject_Z 0); rewrite <- Zle_Qle; lia).
  assert (HiK : (inject_Z (Z.of_nat i) < inject_Z k)%Q)
    by (rewrite <- Zlt_Qlt; lia).
  assert (HwQ : (0 < inject_Z w_px)%Q)
    by (change 0%Q with (inject_Z 0); rewrite <- Zlt_Qlt; lia).
  assert (Eq : (inject_Z (Z.of_nat i) * (inject_Z w_px / inject_Z k)
                == inject_Z w_px * (inject_Z (Z.of_nat i) / inject_Z k))%Q)
    by (field; lra).
  assert (Hr0 : (0 <= inject_Z (Z.of_nat i) / inject_Z k)%Q)
    by (apply Qle_shift_div_l; lra).
  assert (Hr1 : (inject_Z (Z.of_nat i) / inject_Z k < 1)%Q)
    by (apply Qlt_shift_div_r; lra).
  apply trunc_lt_bound; rewrite Eq; nra.
Qed.

Lemma envelope_bars_fit_witness :
  let w := set_audio (Arr1 [0; 1 # 2; -(1); 1 # 4; 0; 1 # 8; 1; 0]%Q) 2
                     (init 100) in
  1 <= 3
  /\ Z.of_nat (length (_draw_envelope 3 w)) < 2 * 3
  /\ map snd (_draw_envelope 3 w) = [1 # 2; 1; 1 # 8; 1]%Q.
Proof.
  intros w.
  assert (H : 1 <= 3) by lia.
  split; [exact H |].
  split; [exact (proj1 (envelope_bars_fit 3 w H)) |].
  vm_compute. reflexivity.
Defined.

(* ------------------------------------------------------------------ *)
(** ** Controller: the waveform shows the session buffer                *)
(* ------------------------------------------------------------------ *)

Section controller_invariants.

Variable apple : option (wav -> result TranscriptionResult).

Lemma mirrors_on_transcribe (st : MainWindow) :
  mirrors st -> mirrors (on_transcribe apple st).
Proof.
  unfold mirrors.
  now rewrite on_transcribe_session, on_transcribe_waveform.
Qed.

(** A new buffer handed to the session and to [set_audio] alike. *)
Lemma mirrors_installed (st : MainWindow) (s : SessionAudio) (w : WaveformView) :
  _audio w = Some (mono_samples (audio s)) -> _sr w = sample_rate s ->
  mirrors (set_waveform (set_session st (Some s)) w).
Proof. intros A B. unfold mirrors. cbn. now split. Qed.

Lemma on_stop_mirrors (captured : ndarray * Z) (st : MainWindow) :
  snd captured <> 0 ->
  mirrors st -> mirrors (on_stop apple captured st).
Proof.
  destruct captured as [clip sr]. cbn [snd]. intros Hsr H. unfold on_stop.
  destruct (_rerecord_active st).
  - unfold on_stop_rerecord.
    destruct (recorder_is_recording st); [| exact H].
    cbn [session set_recording _rerecord_range].
    destruct (session st) as [sess |] eqn:Es;
      [| unfold mirrors in *; cbn; now rewrite Es in *].
    destruct (_rerecord_range st) as [[s [e |]] |];
      try (unfold mirrors in *; cbn; now rewrite Es in *).
    destruct (splice_audio _ _ _ _ _) as [new_audio | x];
      [| unfold mirrors in *; cbn; now rewrite Es in *].
    apply mirrors_on_transcribe. unfold mirrors. cbn. now split.
  - destruct (on_stop_finalize clip sr st) as [st1 appended | st1] eqn:F.
    + destruct (session st1) as [sess |] eqn:E1.
      * assert (M : forall w,
                   _audio w = Some (mono_samples (audio sess)) ->
                   _sr w = sample_rate sess ->
                   mirrors (set_waveform st1 w)).
        { intros w A B. unfold mirrors. cbn. rewrite E1. now split. }
        destruct (py.truediv _ _) as [d | x]; [| now apply M].
        destruct appended; [apply mirrors_on_transcribe |]; now apply M.
      * unfold on_stop_finalize in F.
        rewrite !(truediv_ok (len clip) sr Hsr) in F.
        destruct (recorder_is_recording st).
        -- cbn [session set_recording] in F.
           destruct (session st) as [sess |] eqn:Es.
           ++ destruct (len (audio sess) =? 0);
                [injection F as <- _; discriminate E1 |].
              destruct (py.truediv _ _) as [d | x]; [| discriminate F].
              destruct (Qle_bool _ _).
              ** destruct (concatenate _) as [j | x];
                   [injection F as <- _; discriminate E1 | discriminate F].
              ** injection F as <- _; discriminate E1.
           ++ injection F as <- _; discriminate E1.
        -- injection F as <- _. exact H.
    + unfold on_stop_finalize in F.
      rewrite !(truediv_ok (len clip) sr Hsr) in F.
      destruct (recorder_is_recording st); [| discriminate F].
      cbn [session set_recording] in F.
      destruct (session st) as [sess |] eqn:Es; [| discriminate F].
      destruct (len (audio sess) =? 0); [discriminate F |].
      destruct (py.truediv _ _) as [d | x].
      * destruct (Qle_bool _ _); [| discriminate F].
        destruct (concatenate _) as [j | x]; [discriminate F |].
        injection F as <-. unfold mirrors in *. cbn. now rewrite Es in *.
      * injection F as <-. unfold mirrors in *. cbn. now rewrite Es in *.
Qed.

Lemma delete_selection_mirrors (c : TextCursor) (st st' : MainWindow) :
  mirrors st -> _delete_selection apple c st = Ok st' -> mirrors st'.
Proof.
  intros H. unfold _delete_selection.
  destruct (session st) as [sess |] eqn:Es;
    [| intros [= <-]; exact H].
  destruct (match selection_time st with
            | Some r => Ok (Some r)
            | None => _ end) as [[[s [e |]] |] | x];
    cbn [bind]; try discriminate; try (intros [= <-]; exact H).
  destruct (Qle_bool e s); [intros [= <-]; exact H |].
  destruct (splice_audio _ _ _ _ _) as [new_audio | x];
    [| intros [= <-]; exact H].
  intros [= <-]. apply mirrors_on_transcribe.
  unfold mirrors. cbn. now split.
Qed.

Lemma waveform_only_mirrors (st : MainWindow) (w : WaveformView) :
  _audio w = _audio (waveform st) -> _sr w = _sr (waveform st) ->
  mirrors st -> mirrors (set_waveform st w).
Proof. intros A B. unfold mirrors. cbn. now rewrite A, B. Qed.

Lemma step_mirrors (c : command) (st st' : MainWindow) :
  rate_ok c -> mirrors st -> step apple c st = Ok st' -> mirrors st'.
Proof.
  intros Hr H. destruct c; cbn [step].
  - (* Record *)
    intros [= <-]. unfold on_record.
    destruct captured as [clip sr]. cbn [rate_ok] in Hr.
    destruct (recorder_is_recording st); [now apply on_stop_mirrors |].
    destruct (_selection_to_time _ _ _) as [[r |] | x]; [| | exact H];
      destruct start_ok; exact H.
  - intros [= <-]. destruct captured as [clip sr].
    now apply on_stop_mirrors.
  - intros [= <-]. unfold on_rerecord.
    destruct (session st), (selection_time st); exact H.
  - now apply delete_selection_mirrors.
  - (* Import *)
    intros [= <-]. unfold _load_audio_file.
    destruct (bind opened load_wav) as [[[a sr] ch] | x]; [| exact H].
    apply mirrors_on_transcribe. unfold mirrors. cbn. now split.
  - (* Clear *)
    intros [= <-]. unfold on_clear.
    destruct (negb _); [exact H |].
    destruct (negb confirm); [exact H |].
    unfold mirrors. cbn. now right.
  - (* Text selection *)
    unfold on_selection_changed.
    destruct (_selection_to_time _ _ _) as [sel | x]; [| discriminate].
    cbn [bind]. cbn [session set_selection_time].
    destruct sel as [[s e] |]; destruct (session st) eqn:Es;
      intros [= <-]; unfold mirrors in *; cbn; rewrite Es in *; exact H.
  - (* Mouse press *)
    intros [= <-]. unfold waveform_press, mousePressEvent.
    destruct (Qle_bool _ 0); [now destruct st |].
    destruct left_button; [| now destruct st].
    cbn [fold_left deliver]. unfold on_waveform_selection.
    rewrite Qeq_bool_refl'. exact H.
  - (* Mouse move *)
    unfold waveform_move, mouseMoveEvent.
    destruct (negb _ || _);
      [cbn [bind fold_left]; intros [= <-]; now destruct st |].
    destruct (_sel_start (waveform st)) as [s |]; [| discriminate].
    cbn [bind fold_left deliver]. intros [= <-].
    unfold on_waveform_selection.
    destruct (Qeq_bool _ _); exact H.
  - (* Mouse release *)
    intros [= <-]. unfold mouseReleaseEvent.
    destruct (_dragging (waveform st)); [exact H | now destruct st].
  - (* Viewport gesture *)
    intros [= <-].
    destruct (handle_as_with_view e (waveform st)) as (vs & vd & ->).
    exact H.
Qed.

Lemma inputs_rate_ok (c : command) : inputs_ok c -> rate_ok c.
Proof. destruct c as [[clip sr] ? ? | [clip sr] | | | | | | | | |]; cbn; lia. Qed.

Lemma run_commands_mirrors (cs : list command) :
  Forall inputs_ok cs ->
  forall st st', mirrors st -> run_commands apple cs st = Ok st' -> mirrors st'.
Proof.
  induction 1 as [| c cs Hc _ IH]; intros st st' H; cbn [run_commands].
  - now intros [= <-].
  - destruct (step apple c st) as [st1 | x] eqn:E; [| discriminate].
    cbn [bind]. apply IH.
    apply (step_mirrors c st st1); [now apply inputs_rate_ok | exact H | exact E].
Qed.

End controller_invariants.

(** X22.  Whatever the user does (record, stop, re-record, delete, import,
    clear, select, drag, zoom, pan), with the recorder returning
    single-channel clips at a positive rate, the waveform widget keeps
    showing the session's buffer: the same mono samples at the same sample
    rate, and an empty waveform when there is no session. *)
Theorem waveform_mirrors_session
    (apple : option (wav -> result TranscriptionResult))
    (width : Z) (cs : list command) (st : MainWindow) :
  Forall inputs_ok cs ->
  run_commands apple cs (MainWindow_init width) = Ok st ->
  match session st with
  | Some s =>
      _audio (waveform st) = Some (mono_samples (audio s))
      /\ _sr (waveform st) = sample_rate s
  | None => _audio (waveform st) = None \/ _audio (waveform st) = Some []
  end.
Proof.
  intros Hin.
  apply (run_commands_mirrors apple cs Hin (MainWindow_init width) st).
  unfold mirrors. cbn. now left.
Qed.

Lemma waveform_mirrors_session_witness :
  let cs := [CmdRecord (zeros0, 44100) {| selectionStart := 0; selectionEnd := 0 |}
                       true;
             CmdStop (Arr2 1 [[1]; [2]; [3]]%Q, 44100);
             CmdView (Gesture (Some {| scaleFactor := 2;
                                       centerPoint_x := None |}))] in
  Forall inputs_ok cs
  /\ exists st,
       run_commands None cs (MainWindow_init 100) = Ok st
       /\ match session st with
          | Some s =>
              _audio (waveform st) = Some (mono_samples (audio s))
              /\ _sr (waveform st) = sample_rate s
          | None =>
              _audio (waveform st) = None \/ _audio (waveform st) = Some []
          end.
Proof.
  intros cs.
  assert (Hin : Forall inputs_ok cs)
    by (repeat constructor; reflexivity).
  split; [exact Hin |].
  destruct (run_commands None cs (MainWindow_init 100)) as [st | x] eqn:E.
  - exists st. split; [reflexivity |].
    exact (waveform_mirrors_session None 100 cs st Hin E).
  - vm_compute in E. discriminate E.
Defined.

(* ------------------------------------------------------------------ *)
(** ** Controller: channel bookkeeping and export                       *)
(* ------------------------------------------------------------------ *)




Section controller_channels.

Variable apple : option (wav -> result TranscriptionResult).


(** What [on_stop] can leave in the session: what was there, the clip as
    a fresh session, the buffer with the clip appended, or the buffer with
    the clip spliced in. *)
Lemma on_stop_session (clip : ndarray) (sr : Z) (st : MainWindow) :
  let st' := on_stop apple (clip, sr) st in
  session st' = session st
  \/ session st'
     = Some {| audio := clip; sample_rate := sr; channels := 1 |}
  \/ (exists sess joined,
         session st = Some sess
         /\ concatenate [to_2d (audio sess); to_2d clip] = Ok joined
         /\ session st'
            = Some {| audio := astype_float32 joined;
                      sample_rate := sample_rate sess;
                      channels := channels sess |})
  \/ (exists sess s e new_audio,
         session st = Some sess
         /\ splice_audio (audio sess) (sample_rate sess) s e (to_mono clip)
            = Ok new_audio
         /\ session st'
            = Some {| audio := new_audio;
                      sample_rate := sample_rate sess;
                      channels := channels sess |}).
Proof.
  cbv zeta. destruct (_rerecord_active st) eqn:Harm.
  - unfold on_stop. rewrite Harm. unfold on_stop_rerecord.
    destruct (recorder_is_recording st); [| now left].
    cbn [session set_recording _rerecord_range].
    destruct (session st) as [sess |] eqn:Es; [| left; cbn; congruence].
    destruct (_rerecord_range st) as [[s [e |]] |];
      try (left; cbn; congruence).
    destruct (splice_audio _ _ _ _ _) as [new_audio | x] eqn:S;
      [| left; cbn; congruence].
    right. right. right. exists sess, s, e, new_audio.
    rewrite on_transcribe_session. cbn. auto.
  - rewrite (on_stop_session_flow apple clip sr st Harm).
    unfold on_stop_finalize.
    destruct (recorder_is_recording st); [| now left].
    cbn [session set_recording].
    destruct (session st) as [sess |] eqn:Es.
    + destruct (len (audio sess) =? 0).
      { destruct (py.truediv (len clip) sr); right; left; reflexivity. }
      destruct (py.truediv (len (audio sess)) (sample_rate sess))
        as [d | x]; [| left; exact Es].
      destruct (Qle_bool _ _).
      * destruct (concatenate _) as [j | x] eqn:C; [| left; exact Es].
        right. right. left. exists sess, j.
        split; [reflexivity |]. split; [exact C |].
        destruct (py.truediv (len clip) sr); reflexivity.
      * destruct (py.truediv (len clip) sr); right; left; reflexivity.
    + destruct (py.truediv (len clip) sr); right; left; reflexivity.
Qed.




End controller_channels.



(* ------------------------------------------------------------------ *)
(** ** Selection reconciler: the mapped range is ordered                *)
(* ------------------------------------------------------------------ *)

(** Two searches over a list ordered by [R], the second predicate implying
    the first: the first hit of the weaker one stands at or before the
    first hit of the stronger one. *)
Lemma find_ordered {A : Type} (R : A -> A -> Prop) (p q : A -> bool)
    (l : list A) (a b : A) :
  (forall x, R x x) ->
  (forall x, q x = true -> p x = true) ->
  ForallOrdPairs R l ->
  find p l = Some a -> find q l = Some b -> R a b.
Proof.
  intros Hr Hqp Hl. induction Hl as [| x l Hx Hl IH]; cbn [find].
  - discriminate.
  - destruct (p x) eqn:Px.
    + intros [= <-]. destruct (q x) eqn:Qx.
      * intros [= <-]. apply Hr.
      * intros Hb. apply find_some in Hb.
        exact (proj1 (Forall_forall _ _) Hx b (proj1 Hb)).
    + destruct (q x) eqn:Qx; [rewrite (Hqp x Qx) in Px; discriminate |].
      exact IH.
Qed.

(** X24.  When the segments come in time order with non-negative
    durations and the selection ends inside the transcript, the range that
    [_selection_to_time] returns is never reversed: [start_t <= end_t]. *)
Theorem selection_range_is_ordered
    (tr : TranscriptionResult) (session : option SessionAudio)
    (cursor : TextCursor) (s e : Q) :
  ForallOrdPairs (fun a b => (start_sec a <= start_sec b)%Q) (segments tr) ->
  Forall (fun seg => (0 <= duration_sec seg)%Q) (segments tr) ->
  Exists (fun seg => Z.max (selectionStart cursor) (selectionEnd cursor)
                     <= seg_end_char seg) (segments tr) ->
  _selection_to_time (Some tr) session cursor = Ok (Some (s, Some e)) ->
  (s <= e)%Q.
Proof.
  intros Hord Hdur Hex. unfold _selection_to_time.
  set (start := Z.min _ _). set (end_ := Z.max _ _) in *.
  destruct (Z.eqb_spec start end_) as [E | N]; [discriminate |].
  assert (Hlt : start < end_) by (unfold start, end_ in *; lia).
  rewrite (scan_segments_find start end_ Hlt).
  destruct (find (fun seg => end_ <=? seg_end_char seg) (segments tr))
    as [b |] eqn:Fb.
  - destruct (find (fun seg => start <? seg_end_char seg) (segments tr))
      as [a |] eqn:Fa.
    + cbn [option_map]. intros [= <- <-].
      assert (Hab : (start_sec a <= start_sec b)%Q).
      { refine (find_ordered
                  (fun a b => (start_sec a <= start_sec b)%Q) _ _
                  (segments tr) a b _ _ Hord Fa Fb).
        - intros x. apply Qle_refl.
        - intros x Hx. apply Z.leb_le in Hx. apply Z.ltb_lt. lia. }
      apply find_some in Fb.
      pose proof (proj1 (Forall_forall _ _) Hdur b (proj1 Fb)) as Hb.
      cbn beta in Hb. lra.
    + exfalso. apply find_some in Fb. destruct Fb as [Hin Hb].
      apply (find_none _ _ Fa) in Hin.
      apply Z.leb_le in Hb. apply Z.ltb_ge in Hin. lia.
  - exfalso. apply Exists_exists in Hex. destruct Hex as (x & Hin & Hx).
    apply (find_none _ _ Fb) in Hin. apply Z.leb_gt in Hin. lia.
Qed.

Lemma selection_range_is_ordered_witness :
  let hello := {| text := "hello"; start_sec := 0; duration_sec := 1 # 2;
                  char_start := 0; char_length := 5 |} in
  let world := {| text := "world"; start_sec := 6 # 10;
                  duration_sec := 1 # 2;
                  char_start := 6; char_length := 5 |} in
  let tr := {| full_text := "hello world"; segments := [hello; world] |} in
  let cursor := {| selectionStart := 8; selectionEnd := 2 |} in
  _selection_to_time (Some tr) None cursor
  = Ok (Some (0%Q, Some ((6 # 10) + (1 # 2))%Q))
  /\ (0 <= (6 # 10) + (1 # 2))%Q.
Proof.
  intros hello world tr cursor.
  split; [reflexivity |].
  apply (selection_range_is_ordered tr None cursor).
  - repeat constructor; cbn; lra.
  - repeat constructor; cbn; lra.
  - apply Exists_cons_tl, Exists_cons_hd. cbn. lia.
  - reflexivity.
Defined.

(* ------------------------------------------------------------------ *)
(** ** Playback                                                         *)
(* ------------------------------------------------------------------ *)

Lemma firstn_repeat_le {A : Type} (x : A) (i j : nat) :
  (i <= j)%nat -> firstn i (repeat x j) = repeat x i.
Proof.
  revert j. induction i as [| i IH]; intros [| j] H; cbn; try reflexivity.
  - lia.
  - f_equal. apply IH. lia.
Qed.

Lemma skipn_repeat {A : Type} (x : A) (i j : nat) :
  skipn i (repeat x j) = repeat x (j - i).
Proof.
  revert j. induction i as [| i IH]; intros [| j]; cbn; try reflexivity.
  apply IH.
Qed.

(** The first [k] samples of a list padded with silence do not depend on
    how much padding there is, as long as it is enough. *)
Lemma firstn_pad {A : Type} (x : A) (l : list A) (k j : nat) :
  (k <= j + length l)%nat ->
  firstn k (l ++ repeat x j) = firstn k (l ++ repeat x k).
Proof.
  intros H. rewrite !firstn_app.
  f_equal. rewrite !firstn_repeat_le by lia. reflexivity.
Qed.

Lemma firstn_plus {A : Type} (l : list A) (a b : nat) :
  firstn (a + b) l = firstn a l ++ firstn b (skipn a l).
Proof.
  revert l. induction a as [| a IH]; intros [| x l]; cbn;
    rewrite ?firstn_nil; try reflexivity.
  f_equal. apply IH.
Qed.

(** Two successive padded blocks are one padded block. *)
Lemma padded_blocks {A : Type} (x : A) (l : list A) (k K : nat) :
  firstn k (l ++ repeat x k) ++ firstn K (skipn k l ++ repeat x K)
  = firstn (k + K) (l ++ repeat x (k + K)).
Proof.
  rewrite firstn_plus.
  rewrite (firstn_pad x l k (k + K)) by lia. f_equal.
  rewrite skipn_app, skipn_repeat.
  symmetry. apply (firstn_pad x (skipn k l) K (k + K - (k - length l))).
  rewrite length_skipn. lia.
Qed.

(** One call of the stream callback: the block is the next [frames]
    samples of the buffer, padded with silence. *)
Lemma callback_block (a : list Q) (k : Z) (p : Playback) :
  _play_audio p = Some a -> 0 <= _play_frame p -> 0 <= k ->
  callback k p
  = (firstn (Z.to_nat k)
       (skipn (Z.to_nat (_play_frame p)) a ++ repeat 0%Q (Z.to_nat k)),
     {| _play_stream := _play_stream p; _play_audio := Some a;
        _play_sr := _play_sr p;
        _play_frame := Z.min (_play_frame p + k) (Z.of_nat (length a)) |},
     Z.of_nat (length a) <=? Z.min (_play_frame p + k) (Z.of_nat (length a))).
Proof.
  intros Ea Hf Hk. unfold callback. rewrite Ea.
  f_equal. f_equal.
  unfold slice_range, py.slice_index.
  set (n := Z.of_nat (length a)). set (f := _play_frame p) in *.
  assert (Hn : 0 <= n) by (unfold n; lia).
  destruct (Z.ltb_spec f 0) as [H | _]; [lia |].
  destruct (Z.ltb_spec (Z.min (f + k) n) 0) as [H | _]; [lia |].
  replace (Z.min (Z.min (f + k) n) n) with (Z.min (f + k) n) by lia.
  assert (Es : skipn (Z.to_nat (Z.min f n)) a = skipn (Z.to_nat f) a).
  { destruct (Z.le_ge_cases f n) as [H | H].
    - now rewrite Z.min_l.
    - rewrite Z.min_r by exact H.
      rewrite !skipn_all2; [reflexivity | |]; unfold n in *; lia. }
  rewrite Es.
  set (L := skipn (Z.to_nat f) a).
  assert (HL : length L = (length a - Z.to_nat f)%nat)
    by (unfold L; apply length_skipn).
  rewrite firstn_app.
  destruct (Z.le_ge_cases (f + k) n) as [H | H].
  - rewrite (Z.min_l (f + k) n) by exact H.
    rewrite (Z.min_l f n) by lia.
    replace (Z.to_nat (f + k) - Z.to_nat f)%nat with (Z.to_nat k) by lia.
    rewrite length_firstn.
    replace (Z.to_nat k - Nat.min (Z.to_nat k) (length L))%nat with 0%nat
      by (unfold n in *; lia).
    replace (Z.to_nat k - length L)%nat with 0%nat by (unfold n in *; lia).
    reflexivity.
  - rewrite (Z.min_r (f + k) n) by exact H.
    rewrite (firstn_all2 (n := (Z.to_nat n - Z.to_nat (Z.min f n))%nat))
      by (unfold n in *; lia).
    rewrite (firstn_all2 (n := Z.to_nat k)) by (unfold n in *; lia).
    rewrite firstn_repeat_le by lia. reflexivity.
Qed.

(** X25.  The stream callback plays the buffer as it is: whatever block
    sizes the audio thread asks for, the blocks written are, end to end,
    the samples from the start frame on, followed by silence; none is
    skipped or repeated, and the position never passes the end. *)
Theorem playback_plays_the_buffer
    (a : list Q) (sizes : list Z) (p : Playback) :
  _play_audio p = Some a -> 0 <= _play_frame p ->
  Forall (fun k => 0 <= k) sizes ->
  let total := fold_right Z.add 0 sizes in
  fst (callbacks sizes p)
  = firstn (Z.to_nat total)
      (skipn (Z.to_nat (_play_frame p)) a ++ repeat 0%Q (Z.to_nat total))
  /\ _play_audio (snd (callbacks sizes p)) = Some a
  /\ (sizes <> [] ->
      _play_frame (snd (callbacks sizes p))
      = Z.min (_play_frame p + total) (Z.of_nat (length a))).
Proof.
  intros Ea Hf Hs. revert p Ea Hf.
  induction Hs as [| k sizes Hk Hs IH]; intros p Ea Hf; cbn zeta.
  - cbn. split; [reflexivity |]. split; [exact Ea |]. now intros [].
  - cbn [callbacks fold_right].
    rewrite (callback_block a k p Ea Hf Hk).
    set (p' := {| _play_stream := _ |}).
    assert (Ht : 0 <= fold_right Z.add 0 sizes).
    { clear -Hs. induction Hs; cbn; lia. }
    specialize (IH p' eq_refl ltac:(cbn; lia)). cbn zeta in IH.
    destruct (callbacks sizes p') as [outs p''] eqn:Er.
    cbn [fst snd] in *. destruct IH as (Eo & Ea' & Ef).
    split; [| split; [exact Ea' |]].
    + rewrite Eo. cbn [_play_frame p'].
      set (f := _play_frame p) in *. set (T := fold_right Z.add 0 sizes) in *.
      set (n := Z.of_nat (length a)).
      rewrite Z2Nat.inj_add by lia.
      rewrite <- padded_blocks. f_equal. f_equal. f_equal.
      rewrite skipn_skipn.
      destruct (Z.le_ge_cases (f + k) n) as [H | H].
      * rewrite Z.min_l by exact H. f_equal. lia.
      * rewrite Z.min_r by exact H.
        rewrite !skipn_all2; [reflexivity | |]; unfold n in *; lia.
    + intros _. destruct sizes as [| k' rest].
      * cbn in Er. injection Er as _ <-. cbn. f_equal. lia.
      * rewrite Ef by discriminate. cbn [_play_frame p'].
        set (T := fold_right Z.add 0 (k' :: rest)) in *. lia.
Qed.

Lemma playback_plays_the_buffer_witness :
  let a := [1 # 2; 1 # 4; 1 # 8; 1 # 16; 1 # 32]%Q in
  let p := {| _play_stream := true; _play_audio := Some a;
              _play_sr := 8000; _play_frame := 1 |} in
  fst (callbacks [2; 3; 2] p)
  = [1 # 4; 1 # 8; 1 # 16; 1 # 32; 0; 0; 0]%Q
  /\ _play_frame (snd (callbacks [2; 3; 2] p)) = 5.
Proof.
  intros a p.
  destruct (playback_plays_the_buffer a [2; 3; 2] p eq_refl) as (E & _ & F).
  - cbn. lia.
  - repeat constructor; lia.
  - split; [rewrite E; reflexivity |].
    rewrite F by discriminate. reflexivity.
Defined.




(* ------------------------------------------------------------------ *)
(** ** Controller: what the edits do to the buffer                      *)
(* ------------------------------------------------------------------ *)

Section controller_edits.

Variable apple : option (wav -> result TranscriptionResult).


Lemma to_2d_shape (a : ndarray) :
  to_2d a = Arr2 (channel_count a) (frames a).
Proof. now destruct a. Qed.

Lemma append_mismatch (base insert : ndarray) :
  channel_count base <> channel_count insert ->
  concatenate [to_2d base; to_2d insert] = Raise ValueError.
Proof.
  intros N. rewrite !to_2d_shape. cbn [concatenate concatenate2 bind].
  destruct (Pos.eqb_spec (channel_count base) (channel_count insert));
    [contradiction | reflexivity].
Qed.

Lemma channel_count_to_mono (a : ndarray) :
  channel_count (to_mono a) = 1%positive.
Proof. now destruct a. Qed.

End controller_edits.

(** X27.  A session with more than one channel (an imported stereo file)
    cannot be edited: Delete leaves everything as it is, and Stop never
    splices a re-recorded clip into the buffer nor appends to it; the
    session is either kept or replaced by the new clip. *)
Theorem multichannel_session_is_not_edited
    (apple : option (wav -> result TranscriptionResult))
    (cursor : TextCursor) (clip : ndarray) (sr : Z)
    (st : MainWindow) (sess : SessionAudio) :
  session st = Some sess ->
  channel_count (audio sess) <> 1%positive ->
  (forall st', _delete_selection apple cursor st = Ok st' -> st' = st)
  /\ (channel_count clip = 1%positive ->
      session (on_stop apple (clip, sr) st) = Some sess
      \/ session (on_stop apple (clip, sr) st)
         = Some {| audio := clip; sample_rate := sr; channels := 1 |}).
Proof.
  intros Es Hc. split.
  - intros st'. unfold _delete_selection. rewrite Es.
    destruct (match selection_time st with
              | Some r => Ok (Some r)
              | None => _ end) as [[[s [e |]] |] | x];
      cbn [bind]; try discriminate; try (now intros [= <-]).
    destruct (Qle_bool e s); [now intros [= <-] |].
    rewrite splice_audio_mismatch by exact Hc.
    now intros [= <-].
  - intros Hclip.
    destruct (on_stop_session apple clip sr st)
      as [E | [E | [(s0 & j & Es0 & C & _) | (s0 & s & e & n & Es0 & S & _)]]].
    + left. now rewrite E.
    + right. exact E.
    + exfalso. rewrite Es in Es0. injection Es0 as <-.
      rewrite append_mismatch in C; [discriminate |].
      now rewrite Hclip.
    + exfalso. rewrite Es in Es0. injection Es0 as <-.
      rewrite splice_audio_mismatch in S; [discriminate |].
      now rewrite channel_count_to_mono.
Qed.

Lemma multichannel_session_is_not_edited_witness :
  let sess := {| audio := Arr2 2 [[0; 0]; [1 # 2; 1 # 2]; [1; 1]]%Q;
                 sample_rate := 1; channels := 2 |} in
  let st := set_selection_time
              (set_session (MainWindow_init 100) (Some sess))
              (Some (0%Q, Some 2%Q)) in
  let cursor := {| selectionStart := 0; selectionEnd := 0 |} in
  _delete_selection None cursor st = Ok st
  /\ (session (on_stop None (Arr2 1 [[1 # 4]]%Q, 44100) st) = Some sess
      \/ session (on_stop None (Arr2 1 [[1 # 4]]%Q, 44100) st)
         = Some {| audio := Arr2 1 [[1 # 4]]%Q; sample_rate := 44100;
                   channels := 1 |}).
Proof.
  intros sess st cursor.
  destruct (multichannel_session_is_not_edited
              None cursor (Arr2 1 [[1 # 4]]%Q) 44100 st sess eq_refl)
    as [D S]; [discriminate |].
  split; [| exact (S eq_refl)].
  destruct (_delete_selection None cursor st) as [st' | x] eqn:E.
  - now rewrite (D st' eq_refl).
  - vm_compute in E. discriminate E.
Defined.






(** X30.  A confirmed Clear of a project with audio or text empties it:
    no session, no transcription, no selection, an empty waveform.  It
    does not disarm a pending re-record, though: if one was armed, the
    next Record and Stop discard the new clip and leave the project
    empty; otherwise the clip becomes the new session. *)
Theorem clear_then_record
    (apple : option (wav -> result TranscriptionResult))
    (plain_text : string) (unused : ndarray * Z) (cursor : TextCursor)
    (clip : ndarray) (sr : Z) (st : MainWindow) :
  is_blank plain_text = false
  \/ (exists s, session st = Some s /\ 0 < len (audio s)) ->
  let st1 := on_clear plain_text true st in
  let st3 := on_stop apple (clip, sr)
               (on_record apple unused cursor true st1) in
  session st1 = None
  /\ transcription st1 = None
  /\ selection_time st1 = None
  /\ recorder_is_recording st1 = false
  /\ _audio (waveform st1) = Some []
  /\ (_duration (waveform st1) == 0)%Q
  /\ viewport st1 = (0%Q, None)
  /\ (_rerecord_active st = true ->
      session st3 = None /\ _rerecord_active st3 = false)
  /\ (_rerecord_active st = false ->
      session st3
      = Some {| audio := clip; sample_rate := sr; channels := 1 |}).
Proof.
  intros Hcontent st1 st3.
  assert (E1 : st1
               = {| recorder_is_recording := false; session := None;
                    transcription := None; selection_time := None;
                    _rerecord_active := _rerecord_active st;
                    _rerecord_range := _rerecord_range st;
                    waveform :=
                      set_cursor_time 0
                        (set_audio zeros0 44100
                           (set_selection None None (waveform st))) |}).
  { unfold st1, on_clear.
    assert (C : (match session st with
                 | Some s => 0 <? len (audio s)
                 | None => false
                 end || negb (is_blank plain_text)) = true).
    { destruct Hcontent as [B | (s & Es & L)].
      - rewrite B. apply orb_true_r.
      - rewrite Es. apply Z.ltb_lt in L. now rewrite L. }
    rewrite C. reflexivity. }
  assert (E2 : on_record apple unused cursor true st1
               = set_recording st1 true).
  { unfold on_record. rewrite E1.
    cbn [recorder_is_recording transcription session _selection_to_time].
    reflexivity. }
  unfold st3. rewrite E2, E1.
  cbn [session transcription selection_time recorder_is_recording waveform
       viewport].
  do 4 (split; [reflexivity |]).
  split; [reflexivity |].
  split; [reflexivity |].
  split; [reflexivity |].
  unfold on_stop, on_stop_rerecord, on_stop_finalize.
  cbn [_rerecord_active set_recording recorder_is_recording session
       _rerecord_range set_rerecord].
  split; intros ->.
  - cbn [session set_rerecord _rerecord_active]. now split.
  - cbn [session set_session set_recording set_waveform].
    destruct (py.truediv (len clip) sr);
      cbn [session set_session set_recording set_waveform audio
           sample_rate];
      [destruct (py.truediv (len clip) sr) |]; reflexivity.
Qed.

Lemma clear_then_record_witness :
  let sess := {| audio := Arr1 [0; 1 # 4]%Q; sample_rate := 2;
                 channels := 1 |} in
  let st := set_rerecord
              (set_session (MainWindow_init 100) (Some sess))
              true (Some (0%Q, Some 1%Q)) in
  let cursor := {| selectionStart := 0; selectionEnd := 0 |} in
  let st1 := on_clear "hello" true st in
  session st1 = None
  /\ session (on_stop None (Arr2 1 [[1 # 2]]%Q, 44100)
                (on_record None (zeros0, 44100) cursor true st1)) = None.
Proof.
  intros sess st cursor st1.
  destruct (clear_then_record None "hello" (zeros0, 44100) cursor
              (Arr2 1 [[1 # 2]]%Q) 44100 st (or_introl eq_refl))
    as (A & _ & _ & _ & _ & _ & _ & B & _).
  split; [exact A | exact (proj1 (B eq_refl))].
Defined.
